(** * LocalRSS reader: the feed update engine of [app.py]

    A shallow embedding of the update core ([update_feeds_async] and the
    helpers it calls) and of the job manager ([start_update_job],
    [cancel_update_job], [_progress_updater]), then of their callers (the
    scheduler, the single-feed refresh), of the routes that write the
    database, of the importers, of the text helpers and the feed
    discovery, and of [load_config] of [tray_app.py], followed by the
    properties proved about them.

    Conventions.
    - SQLite tables are lists of rows in rowid order; a nullable column is
      an [option].
    - Python code that reads the clock, polls the cancellation event,
      mutates the database or raises runs in the monad [M]: a state monad
      over [World] whose result is either a value or a raised exception.
      The state survives a raised exception, as Python's side effects do.
    - Library and platform code ([feedparser.parse], [calendar.timegm],
      [time.mktime], [hashlib.sha256], [str.strip], the HTTP session, the
      order in which [asyncio.as_completed] yields) and the environment
      variables read at import time are the fields of [Platform].
    - The routes that read a JSON body take it as [request.get_json]
      returned it ([Request.body]); the conversions they apply to its
      fields ([int], [str.strip]) raise as Python's do. *)

From Stdlib Require Import ZArith Lia Bool String Ascii Permutation.
From stdpp Require Import gmap strings list pretty.

Local Open Scope string_scope.
Local Open Scope list_scope.
Local Open Scope Z_scope.

(** ** Python values *)

Module Py.

(** The exceptions the modelled code can meet. *)
Inductive exn : Type :=
| TypeError
| ValueError
| OverflowError
| AttributeError.

Inductive res (A : Type) : Type :=
| Ok (a : A)
| Raise (e : exn).
Arguments Ok {A} a.
Arguments Raise {A} e.

(** Truth value of an optional string: [None] and the empty string are
    falsy. *)
Definition truthy (o : option string) : bool :=
  match o with
  | Some s => negb (String.eqb s EmptyString)
  | None => false
  end.

(** [a or b] on optional strings. *)
Definition or_ (a b : option string) : option string :=
  if truthy a then a else b.

(** [x or ''], the result being used as a string. *)
Definition or_empty (a : option string) : string :=
  match or_ a (Some EmptyString) with
  | Some s => s
  | None => EmptyString
  end.

(** [s or None]. *)
Definition or_none (s : string) : option string :=
  if String.eqb s EmptyString then None else Some s.

(** [int(x or 0)] on a nullable INTEGER column. *)
Definition int_or_0 (o : option Z) : Z :=
  match o with
  | Some n => n
  | None => 0
  end.

(** [d.get(k, '')]. *)
Definition get_default (o : option string) : string :=
  match o with
  | Some s => s
  | None => EmptyString
  end.

(** [a or b] on strings. *)
Definition or_str (a b : string) : string :=
  if String.eqb a EmptyString then b else a.

Definition newline : string := String (ascii_of_nat 10) EmptyString.

End Py.

Export Py.

(** ** Data model *)

(** A [time.struct_time]: the six fields the conversions read. *)
Record struct_time : Type := mkTime {
  tm_year : Z;
  tm_mon : Z;
  tm_mday : Z;
  tm_hour : Z;
  tm_min : Z;
  tm_sec : Z
}.

(** What [safe_struct_time_to_ts] may be handed: a struct_time, or an
    object on which [int(st.tm_year)] raises. *)
Inductive time_like : Type :=
| StructTime (st : struct_time)
| Malformed.

(** One element of [parsed.entries] (a feedparser entry dict): the keys the
    update core reads. [pe_content] lists the ["value"] of each element of
    [entry["content"]]. *)
Record ParsedEntry : Type := mkParsedEntry {
  pe_id : option string;
  pe_guid : option string;
  pe_link : option string;
  pe_title : option string;
  pe_published : option string;
  pe_updated : option string;
  pe_published_parsed : option time_like;
  pe_updated_parsed : option time_like;
  pe_content : list (option string);
  pe_summary : option string
}.

(** The result of [feedparser.parse]: [parsed.feed.get("title")] and
    [parsed.entries]. *)
Record Parsed : Type := mkParsed {
  p_feed_title : option string;
  p_entries : list ParsedEntry
}.

(** A row of table [feeds] ([init_db]). *)
Record FeedRow : Type := mkFeed {
  f_id : Z;
  f_url : string;
  f_title : option string;
  f_etag : option string;
  f_last_modified : option string;
  f_last_fetch : option Z;
  f_fail_count : option Z;
  f_next_fetch : option Z;
  f_month_count : option Z;
  f_last_ok : option Z
}.

(** A row of table [entries] ([init_db]); [(e_feed_id, e_guid)] is UNIQUE. *)
Record EntryRow : Type := mkEntry {
  e_id : Z;
  e_feed_id : Z;
  e_guid : string;
  e_title : option string;
  e_link : option string;
  e_published : option Z;
  e_content_html : option string;
  e_read_at : option Z;
  e_bookmarked : option Z;
  e_created_at : Z
}.

(** The request headers [fetch_one] adds to the fixed ones. *)
Record Headers : Type := mkHeaders {
  if_none_match : option string;
  if_modified_since : option string
}.

(** What [session.get] produces: a response, or an exception. *)
Inductive Response : Type :=
| HttpResponse (status : Z) (text : string) (etag last_mod : option string)
| ConnError (msg : string).

(** The tuple [(feed_id, kind, payload, etag, last_mod)] returned by
    [fetch_one], as a tagged union on [kind]. *)
Inductive FetchResult : Type :=
| not_modified (feed_id : Z)
| http_error (feed_id : Z) (status : Z)
| ok (feed_id : Z) (text : string) (etag last_mod : option string)
| exception (feed_id : Z) (msg : string).

Definition result_feed_id (r : FetchResult) : Z :=
  match r with
  | not_modified i | http_error i _ | ok i _ _ _ | exception i _ => i
  end.

(** The keyword arguments of one [progress_cb] call; [state] is always
    ["running"]. *)
Record Progress : Type := mkProgress {
  pr_total : Z;
  pr_checked : Z;
  pr_updated : Z;
  pr_errors : Z;
  pr_state : string;
  pr_current_url : option string
}.

(** The dict [update_feeds_async] returns. *)
Record Stats : Type := mkStats {
  st_checked : Z;
  st_updated : Z;
  st_errors : Z;
  st_total : Z
}.

(** Transaction-level statements, recorded in execution order. *)
Inductive Sql : Type :=
| BEGIN
| DELETE_old (cutoff : Z)
| COMMIT
| ROLLBACK.

(** Library code, platform code and configuration. *)
Record Platform : Type := mkPlatform {
  INTERVAL_LOW : Z;
  INTERVAL_MED : Z;
  INTERVAL_HIGH : Z;
  RETENTION_DAYS : Z;
  (** the [n]-th reading of the system clock, in epoch seconds *)
  clock : nat -> Z;
  (** the UTC calendar year of an epoch time *)
  utc_year : Z -> Z;
  (** [calendar.timegm]; [None] when it raises *)
  timegm : struct_time -> option Z;
  (** [time.mktime]; [None] when it raises *)
  mktime : struct_time -> option Z;
  (** [hashlib.sha256(s.encode("utf-8", "ignore")).hexdigest()] *)
  sha256_hexdigest : string -> string;
  (** [str.strip] *)
  strip : string -> string;
  (** [feedparser.parse] *)
  feedparser_parse : string -> Parsed;
  (** [session.get(url, headers=...)] with its 25 s timeout *)
  session_get : string -> Headers -> Response;
  (** the order in which [asyncio.as_completed] yields the tasks: each
      task once *)
  as_completed : list FetchResult -> list FetchResult;
  as_completed_once : forall tasks, Permutation (as_completed tasks) tasks
}.

(** The state the update core runs in: the two tables, the local counters
    of the running [update_feeds_async], and the environment (how many
    clock readings were taken, after how many more polls the cancellation
    event is seen set, [None] for never). *)
Record World : Type := mkWorld {
  feeds : list FeedRow;
  entries : list EntryRow;
  checked : Z;
  updated : Z;
  errors : Z;
  clock_reads : nat;
  cancel_after : option nat;
  sql_log : list Sql;
  progress_log : list Progress
}.

(** ** The monad of the update core *)

Definition M (A : Type) : Type := World -> res A * World.

Definition ret {A : Type} (a : A) : M A := fun w => (Ok a, w).

Definition bind {A B : Type} (m : M A) (k : A -> M B) : M B :=
  fun w =>
    match m w with
    | (Ok a, w') => k a w'
    | (Raise e, w') => (Raise e, w')
    end.

Definition raise {A : Type} (e : exn) : M A := fun w => (Raise e, w).

(** [try: body except Exception: handler]. *)
Definition try_except {A : Type} (body : M A) (handler : exn -> M A)
    : M A :=
  fun w =>
    match body w with
    | (Ok a, w') => (Ok a, w')
    | (Raise e, w') => handler e w'
    end.

Definition gets {A : Type} (f : World -> A) : M A := fun w => (Ok (f w), w).

Definition modify (f : World -> World) : M unit := fun w => (Ok tt, f w).

(** A library call that either returns or raises. *)
Definition lift_option {A : Type} (e : exn) (o : option A) : M A :=
  match o with
  | Some a => ret a
  | None => raise e
  end.

Notation "'let*' x ':=' c1 'in' c2" := (bind c1 (fun x => c2))
  (at level 10, x name, c1 at level 100, c2 at level 200).
Notation "c1 ';;' c2" := (bind c1 (fun _ => c2))
  (at level 100, c2 at level 200, right associativity).

(** *** Updates of single fields of the state *)

Definition with_feeds (fs : list FeedRow) (w : World) : World :=
  mkWorld fs (entries w) (checked w) (updated w) (errors w)
          (clock_reads w) (cancel_after w) (sql_log w) (progress_log w).

Definition with_entries (es : list EntryRow) (w : World) : World :=
  mkWorld (feeds w) es (checked w) (updated w) (errors w)
          (clock_reads w) (cancel_after w) (sql_log w) (progress_log w).

Definition with_counters (c u e : Z) (w : World) : World :=
  mkWorld (feeds w) (entries w) c u e
          (clock_reads w) (cancel_after w) (sql_log w) (progress_log w).

Definition with_clock_reads (n : nat) (w : World) : World :=
  mkWorld (feeds w) (entries w) (checked w) (updated w) (errors w)
          n (cancel_after w) (sql_log w) (progress_log w).

Definition with_cancel_after (c : option nat) (w : World) : World :=
  mkWorld (feeds w) (entries w) (checked w) (updated w) (errors w)
          (clock_reads w) c (sql_log w) (progress_log w).

Definition with_sql_log (l : list Sql) (w : World) : World :=
  mkWorld (feeds w) (entries w) (checked w) (updated w) (errors w)
          (clock_reads w) (cancel_after w) l (progress_log w).

Definition with_progress_log (l : list Progress) (w : World) : World :=
  mkWorld (feeds w) (entries w) (checked w) (updated w) (errors w)
          (clock_reads w) (cancel_after w) (sql_log w) l.

(** ** The store: the SQL statements of the update core *)

Module Store.

(** [SELECT ... FROM feeds WHERE id=?] followed by [fetchone()]. *)
Definition feed_by_id (fid : Z) (fs : list FeedRow) : option FeedRow :=
  List.find (fun r => f_id r =? fid) fs.

(** [UPDATE feeds SET ... WHERE id=?]: [set] rewrites the SET columns. *)
Definition update_feed (set : FeedRow -> FeedRow) (fid : Z)
    (fs : list FeedRow) : list FeedRow :=
  List.map (fun r => if f_id r =? fid then set r else r) fs.

(** [SELECT * FROM feeds WHERE id IN (...)]. *)
Definition feeds_in (ids : list Z) (fs : list FeedRow) : list FeedRow :=
  List.filter (fun r => List.existsb (Z.eqb (f_id r)) ids) fs.

(** [SELECT * FROM feeds WHERE next_fetch <= ?]; a NULL never compares. *)
Definition feeds_due (now : Z) (fs : list FeedRow) : list FeedRow :=
  List.filter
    (fun r => match f_next_fetch r with
              | Some n => n <=? now
              | None => false
              end) fs.

(** Is there a row with this [(feed_id, guid)]? *)
Definition entry_exists (fid : Z) (guid : string)
    (es : list EntryRow) : bool :=
  List.existsb
    (fun e => (e_feed_id e =? fid) && String.eqb (e_guid e) guid) es.

(** The rowid SQLite gives the next row of [entries]: one more than the
    largest one in use, 1 in an empty table. *)
Definition next_rowid (es : list EntryRow) : Z :=
  match List.map e_id es with
  | [] => 1
  | i :: ids => 1 + List.fold_right Z.max i ids
  end.

(** [INSERT OR IGNORE INTO entries(feed_id, guid, title, link, published,
    content_html, created_at) VALUES (...)]: the new table and
    [rowcount]. The row is dropped when its [(feed_id, guid)] is taken;
    [read_at] is NULL and [bookmarked] takes its default 0. *)
Definition insert_or_ignore_entry (fid : Z) (guid : string)
    (title : string) (link : option string) (published : Z)
    (html : string) (created : Z) (es : list EntryRow)
    : list EntryRow * Z :=
  if entry_exists fid guid es then (es, 0)
  else
    (es ++ [mkEntry (next_rowid es) fid guid (Some title) link
                    (Some published) (Some html) None (Some 0) created],
     1).

(** [published >= ?] in SQL: NULL is not counted. *)
Definition published_ge (cutoff : Z) (e : EntryRow) : bool :=
  match e_published e with
  | Some p => cutoff <=? p
  | None => false
  end.

(** [SELECT COUNT( * ) FROM entries WHERE feed_id=? AND published>=?]. *)
Definition count_recent (fid cutoff : Z) (es : list EntryRow) : Z :=
  Z.of_nat
    (List.length
       (List.filter
          (fun e => (e_feed_id e =? fid) && published_ge cutoff e) es)).

(** The WHERE clause [published < ? AND bookmarked = 0]. *)
Definition old_unbookmarked (cutoff : Z) (e : EntryRow) : bool :=
  match e_published e, e_bookmarked e with
  | Some p, Some b => (p <? cutoff) && (b =? 0)
  | _, _ => false
  end.

(** [DELETE FROM entries WHERE published < ? AND bookmarked = 0]. *)
Definition delete_old (cutoff : Z) (es : list EntryRow) : list EntryRow :=
  List.filter (fun e => negb (old_unbookmarked cutoff e)) es.

End Store.

(** ** The update core *)

Module Update.
Section Core.

Variable P : Platform.

(** *** Clock and cancellation *)

Definition read_clock : M Z :=
  fun w => (Ok (clock P (clock_reads w)),
            with_clock_reads (S (clock_reads w)) w).

(** [now_ts()]: [int(time.time())]. *)
Definition now_ts : M Z := read_clock.

(** [cutoff_ts()]: the current time minus [RETENTION_DAYS] days. *)
Definition cutoff_ts : M Z :=
  let* t := read_clock in
  ret (t - RETENTION_DAYS P * 86400).

(** [datetime.now(timezone.utc).year]. *)
Definition utc_now_year : M Z :=
  let* t := read_clock in
  ret (utc_year P t).

(** [cancel_event.is_set()]: once seen set, the event stays set (nothing
    in the program clears it). *)
Definition is_set : M bool :=
  fun w =>
    match cancel_after w with
    | None => (Ok false, w)
    | Some O => (Ok true, w)
    | Some (S n) => (Ok false, with_cancel_after (Some n) w)
    end.

(** [cancel_event and cancel_event.is_set()]; [cancel_event] tells
    whether the caller passed an event (the scheduler and the single-feed
    refresh pass none). *)
Definition cancelled (cancel_event : bool) : M bool :=
  if cancel_event then is_set else ret false.

(** *** Helpers *)

Definition choose_interval (month_count : Z) : Z :=
  if month_count <=? 10 then INTERVAL_LOW P
  else if month_count <=? 200 then INTERVAL_MED P
  else INTERVAL_HIGH P.

(** The expression [min(6 * 3600, (2 ** min(fail, 8)) * 60)] of the error
    branch. For [fail < 0] Python's [**] gives a float; the failure
    streak is never negative. *)
Definition backoff (fail : Z) : Z :=
  Z.min (6 * 3600) ((2 ^ Z.min fail 8) * 60).

Definition stable_guid (entry : ParsedEntry) : string :=
  let gid := or_ (pe_id entry) (pe_guid entry) in
  if truthy gid then get_default gid
  else
    let link := get_default (pe_link entry) in
    let title := get_default (pe_title entry) in
    let published :=
      or_str (get_default (pe_published entry))
             (get_default (pe_updated entry)) in
    sha256_hexdigest P
      (link +:+ newline +:+ title +:+ newline +:+ published).

(** [int(st.tm_year)]. *)
Definition int_tm_year (st : time_like) : M Z :=
  match st with
  | StructTime t => ret (tm_year t)
  | Malformed => raise AttributeError
  end.

(** [int(calendar.timegm(st))]. *)
Definition calendar_timegm (st : time_like) : M Z :=
  match st with
  | StructTime t => lift_option ValueError (timegm P t)
  | Malformed => raise TypeError
  end.

(** [int(time.mktime(st))]. *)
Definition time_mktime (st : time_like) : M Z :=
  match st with
  | StructTime t => lift_option OverflowError (mktime P t)
  | Malformed => raise TypeError
  end.

(** Each [try] block yields [Some v] where the source returns [v] from
    inside it and [None] where control falls through to the next one. *)
Definition safe_struct_time_to_ts (st : time_like) : M Z :=
  let* early :=
    try_except
      (let* y := int_tm_year st in
       let* now_year := utc_now_year in
       if (y <? 1971) || (now_year + 5 <? y)
       then (let* t := now_ts in ret (Some t))
       else ret None)
      (fun _ => let* t := now_ts in ret (Some t)) in
  match early with
  | Some t => ret t
  | None =>
      let* utc :=
        try_except
          (let* t := calendar_timegm st in ret (Some t))
          (fun _ => ret None) in
      match utc with
      | Some t => ret t
      | None => try_except (time_mktime st) (fun _ => now_ts)
      end
  end.

(** [if st:] holds for every struct_time (a non-empty tuple). *)
Definition entry_published_ts (entry : ParsedEntry) : M Z :=
  match pe_published_parsed entry with
  | Some st => safe_struct_time_to_ts st
  | None =>
      match pe_updated_parsed entry with
      | Some st => safe_struct_time_to_ts st
      | None => now_ts
      end
  end.

Definition entry_content_html (entry : ParsedEntry) : string :=
  match pe_content entry with
  | value :: _ => or_empty value
  | [] => or_empty (pe_summary entry)
  end.

(** [SET month_count=?]. *)
Definition set_month_count (c : Z) (r : FeedRow) : FeedRow :=
  mkFeed (f_id r) (f_url r) (f_title r) (f_etag r) (f_last_modified r)
         (f_last_fetch r) (f_fail_count r) (f_next_fetch r) (Some c)
         (f_last_ok r).

Definition recompute_month_count (feed_id cutoff : Z) : M unit :=
  let* c := gets (fun w => Store.count_recent feed_id cutoff (entries w)) in
  modify (fun w =>
    with_feeds
      (Store.update_feed (set_month_count c) feed_id (feeds w)) w).

(** [fetch_one]: the semaphore and the session only bound how many
    requests are in flight. *)
Definition fetch_one (feed_row : FeedRow) : FetchResult :=
  let feed_id := f_id feed_row in
  let headers :=
    mkHeaders
      (if truthy (f_etag feed_row) then f_etag feed_row else None)
      (if truthy (f_last_modified feed_row)
       then f_last_modified feed_row else None) in
  match session_get P (f_url feed_row) headers with
  | HttpResponse status text etag last_mod =>
      if status =? 304 then not_modified feed_id
      else if negb (status =? 200) then http_error feed_id status
      else ok feed_id text etag last_mod
  | ConnError msg => exception feed_id msg
  end.

(** *** The SET clauses of the UPDATE statements *)

(** [SET last_fetch=?, fail_count=0, next_fetch=?]. *)
Definition set_not_modified (last_fetch next_fetch : Z) (r : FeedRow)
    : FeedRow :=
  mkFeed (f_id r) (f_url r) (f_title r) (f_etag r) (f_last_modified r)
         (Some last_fetch) (Some 0) (Some next_fetch) (f_month_count r)
         (f_last_ok r).

(** [SET last_fetch=?, fail_count=?, next_fetch=?]. *)
Definition set_failed (last_fetch fail next_fetch : Z) (r : FeedRow)
    : FeedRow :=
  mkFeed (f_id r) (f_url r) (f_title r) (f_etag r) (f_last_modified r)
         (Some last_fetch) (Some fail) (Some next_fetch) (f_month_count r)
         (f_last_ok r).

(** SQL's [COALESCE(x, y)]. *)
Definition COALESCE {A : Type} (x y : option A) : option A :=
  match x with
  | Some _ => x
  | None => y
  end.

(** [SET title=COALESCE(?, title), etag=?, last_modified=?, last_fetch=?,
    last_ok=?, fail_count=0]. *)
Definition set_fetched (feed_title etag last_mod : option string)
    (last_fetch last_ok : Z) (r : FeedRow) : FeedRow :=
  mkFeed (f_id r) (f_url r) (COALESCE feed_title (f_title r)) etag last_mod
         (Some last_fetch) (Some 0) (f_next_fetch r) (f_month_count r)
         (Some last_ok).

(** [SET next_fetch=?]. *)
Definition set_next_fetch (next_fetch : Z) (r : FeedRow) : FeedRow :=
  mkFeed (f_id r) (f_url r) (f_title r) (f_etag r) (f_last_modified r)
         (f_last_fetch r) (f_fail_count r) (Some next_fetch)
         (f_month_count r) (f_last_ok r).

Definition UPDATE_feeds (set : FeedRow -> FeedRow) (feed_id : Z) : M unit :=
  modify (fun w => with_feeds (Store.update_feed set feed_id (feeds w)) w).

Definition SELECT_feed (feed_id : Z) : M (option FeedRow) :=
  gets (fun w => Store.feed_by_id feed_id (feeds w)).

Definition INSERT_OR_IGNORE_entry (fid : Z) (guid title : string)
    (link : option string) (published : Z) (html : string) (created : Z)
    : M Z :=
  fun w =>
    let '(es, rowcount) :=
      Store.insert_or_ignore_entry fid guid title link published html
                                   created (entries w) in
    (Ok rowcount, with_entries es w).

Definition log_sql (q : Sql) : M unit :=
  modify (fun w => with_sql_log (sql_log w ++ [q]) w).

Definition incr_checked : M unit :=
  modify (fun w => with_counters (checked w + 1) (updated w) (errors w) w).

Definition incr_updated : M unit :=
  modify (fun w => with_counters (checked w) (updated w + 1) (errors w) w).

Definition incr_errors : M unit :=
  modify (fun w => with_counters (checked w) (updated w) (errors w + 1) w).

(** *** The loop over [parsed.entries] (lines 531-550) *)

(** The body of the inner [try]; [continue] leaves [added_any] as it
    is. *)
Definition insert_entry (feed_id cutoff : Z) (e : ParsedEntry)
    (added_any : bool) : M bool :=
  let guid := stable_guid e in
  let title := strip P (or_empty (pe_title e)) in
  let link := pe_link e in
  let* pub_ts := entry_published_ts e in
  if pub_ts <? cutoff then ret added_any
  else
    let html := entry_content_html e in
    let* created := now_ts in
    let* rowcount :=
      INSERT_OR_IGNORE_entry feed_id guid title link pub_ts html created in
    ret (if rowcount =? 0 then added_any else true).

Fixpoint insert_entries (cancel_event : bool) (feed_id cutoff : Z)
    (es : list ParsedEntry) (added_any : bool) : M bool :=
  match es with
  | [] => ret added_any
  | e :: rest =>
      let* stop := cancelled cancel_event in
      if stop then ret added_any
      else
        let* added :=
          try_except (insert_entry feed_id cutoff e added_any)
                     (fun _ => incr_errors;; ret added_any) in
        insert_entries cancel_event feed_id cutoff rest added
  end.

(** *** Reconciling one result (lines 498-564) *)

(** [int(mcrow["month_count"] or 0) if mcrow else 0]. *)
Definition month_count_of (feed_id : Z) : M Z :=
  let* mcrow := SELECT_feed feed_id in
  ret (match mcrow with
       | Some r => int_or_0 (f_month_count r)
       | None => 0
       end).

Definition reconcile_not_modified (feed_id : Z) : M unit :=
  let* mc := month_count_of feed_id in
  let* t1 := now_ts in
  let* t2 := now_ts in
  UPDATE_feeds (set_not_modified t1 (t2 + choose_interval mc)) feed_id.

(** [row["fail_count"]] raises when no row has this id. *)
Definition reconcile_error (feed_id : Z) : M unit :=
  incr_errors;;
  let* row := SELECT_feed feed_id in
  match row with
  | None => raise TypeError
  | Some r =>
      let fail := int_or_0 (f_fail_count r) + 1 in
      let* t1 := now_ts in
      let* t2 := now_ts in
      UPDATE_feeds (set_failed t1 fail (t2 + backoff fail)) feed_id
  end.

Definition reconcile_ok (cancel_event : bool) (cutoff feed_id : Z)
    (payload : string) (etag last_mod : option string) : M unit :=
  let parsed := feedparser_parse P payload in
  let feed_title := or_none (strip P (or_empty (p_feed_title parsed))) in
  let* t1 := now_ts in
  let* t2 := now_ts in
  UPDATE_feeds (set_fetched feed_title etag last_mod t1 t2) feed_id;;
  let* added_any :=
    insert_entries cancel_event feed_id cutoff (p_entries parsed) false in
  (if added_any then incr_updated else ret tt);;
  recompute_month_count feed_id cutoff;;
  let* mc := month_count_of feed_id in
  let* t3 := now_ts in
  UPDATE_feeds (set_next_fetch (t3 + choose_interval mc)) feed_id.

(** The [if kind == ... elif kind != "ok" ... else] of the outer [try]. *)
Definition reconcile_kind (cancel_event : bool) (cutoff : Z)
    (r : FetchResult) : M unit :=
  match r with
  | not_modified feed_id => reconcile_not_modified feed_id
  | http_error feed_id _ => reconcile_error feed_id
  | exception feed_id _ => reconcile_error feed_id
  | ok feed_id payload etag last_mod =>
      reconcile_ok cancel_event cutoff feed_id payload etag last_mod
  end.

Definition report (progress_cb : bool) (p : Progress) : M unit :=
  if progress_cb
  then modify (fun w => with_progress_log (progress_log w ++ [p]) w)
  else ret tt.

(** One iteration of the loop over the completed tasks, after its
    cancellation check. *)
Definition reconcile (cancel_event progress_cb : bool) (cutoff total : Z)
    (r : FetchResult) : M unit :=
  let feed_id := result_feed_id r in
  incr_checked;;
  let* urow := SELECT_feed feed_id in
  let cur_url := option_map f_url urow in
  try_except (reconcile_kind cancel_event cutoff r)
             (fun _ => incr_errors);;
  let* p := gets (fun w => mkProgress total (checked w) (updated w)
                                      (errors w) "running" cur_url) in
  report progress_cb p.

(** *** The sweep *)

(** The loop that creates the tasks: the feeds whose fetch is
    dispatched. *)
Fixpoint dispatch (cancel_event : bool) (fs : list FeedRow)
    : M (list FeedRow) :=
  match fs with
  | [] => ret []
  | f :: rest =>
      let* stop := cancelled cancel_event in
      if stop then ret []
      else
        let* tasks := dispatch cancel_event rest in
        ret (f :: tasks)
  end.

(** The loop over [asyncio.as_completed(tasks)]. *)
Fixpoint consume (cancel_event progress_cb : bool) (cutoff total : Z)
    (results : list FetchResult) : M unit :=
  match results with
  | [] => ret tt
  | r :: rest =>
      let* stop := cancelled cancel_event in
      if stop then ret tt
      else
        reconcile cancel_event progress_cb cutoff total r;;
        consume cancel_event progress_cb cutoff total rest
  end.

(** The query that selects the feeds; an empty [feed_ids] is falsy, as
    [None] is. *)
Definition select_feeds (feed_ids : list Z) (only_due : bool)
    : M (list FeedRow) :=
  match feed_ids with
  | _ :: _ => gets (fun w => Store.feeds_in feed_ids (feeds w))
  | [] =>
      if only_due
      then (let* t := now_ts in
            gets (fun w => Store.feeds_due t (feeds w)))
      else gets feeds
  end.

(** [db.rollback()]: the tables as they were at BEGIN. *)
Definition rollback (snapshot : list FeedRow * list EntryRow) : M unit :=
  modify (fun w => with_entries (snd snapshot)
                     (with_feeds (fst snapshot) w));;
  log_sql ROLLBACK.

Definition update_feeds_async (feed_ids : list Z)
    (only_due progress_cb cancel_event : bool) : M Stats :=
  let* cutoff := cutoff_ts in
  let* fs := select_feeds feed_ids only_due in
  let total := Z.of_nat (List.length fs) in
  modify (with_counters 0 0 0);;
  report progress_cb (mkProgress total 0 0 0 "running" None);;
  if total =? 0 then ret (mkStats 0 0 0 0)
  else
    let* snapshot := gets (fun w => (feeds w, entries w)) in
    log_sql BEGIN;;
    try_except
      (let* tasks := dispatch cancel_event fs in
       consume cancel_event progress_cb cutoff total
               (as_completed P (List.map fetch_one tasks));;
       modify (fun w =>
                 with_entries (Store.delete_old cutoff (entries w)) w);;
       log_sql (DELETE_old cutoff);;
       log_sql COMMIT)
      (fun e => rollback snapshot;; raise e);;
    gets (fun w => mkStats (checked w) (updated w) (errors w) total).

End Core.
End Update.

(** ** The job manager *)

Module Jobs.

(** A job dict. [_cancel_event] is a reference into the manager's
    [events]: the [threading.Event] is shared by the dict and by the
    runner thread that captured it. [ended_ts] and [error] are the keys a
    finished job gains. *)
Record Job : Type := mkJob {
  state : string;
  j_checked : Z;
  j_updated : Z;
  j_errors : Z;
  j_total : Z;
  current_url : option string;
  started_ts : Z;
  last_change_ts : Z;
  _cancel_event : option nat;
  ended_ts : option Z;
  error : option string
}.

(** A runner thread: the [job_id] and the [cancel_event] its closure
    captured. *)
Record Runner : Type := mkRunner {
  r_job_id : string;
  r_cancel_event : nat
}.

(** The module-level state: [_jobs], [_active_job_id], the Event objects
    allocated so far (is each one set?) and the runner threads started so
    far. *)
Record Manager : Type := mkManager {
  _jobs : gmap string Job;
  _active_job_id : option string;
  events : list bool;
  threads : list Runner
}.

Definition initial : Manager := mkManager ∅ None [] [].

(** [_new_job_id()]: [f"job_{now_ts()}_{os.getpid()}"]. *)
Definition _new_job_id (now pid : Z) : string :=
  "job_" +:+ pretty now +:+ "_" +:+ pretty pid.

(** [job.update(kwargs)] followed by the stamp of [last_change_ts]. *)
Definition apply_progress (p : Progress) (now : Z) (job : Job) : Job :=
  mkJob (pr_state p) (pr_checked p) (pr_updated p) (pr_errors p)
        (pr_total p) (pr_current_url p) (started_ts job) now
        (_cancel_event job) (ended_ts job) (error job).

Definition _progress_updater (job_id : string) (kwargs : Progress)
    (now : Z) (m : Manager) : Manager :=
  match _jobs m !! job_id with
  | None => m
  | Some job =>
      mkManager (<[job_id := apply_progress kwargs now job]> (_jobs m))
                (_active_job_id m) (events m) (threads m)
  end.

(** The guard of [start_update_job]: [_active_job_id] is truthy and that
    job's state is ["running"]. *)
Definition active_running (m : Manager) : option string :=
  match _active_job_id m with
  | Some id =>
      if truthy (Some id)
      then match _jobs m !! id with
           | Some job => if String.eqb (state job) "running"
                         then Some id else None
           | None => None
           end
      else None
  | None => None
  end.

(** [start_update_job]: the three arguments [now_*] are the readings of
    the three [now_ts()] calls, [pid] is [os.getpid()]. The result is the
    returned job id. *)
Definition start_update_job (full_sweep : bool)
    (now_id now_started now_changed pid : Z) (m : Manager)
    : string * Manager :=
  match active_running m with
  | Some id => (id, m)
  | None =>
      let job_id := _new_job_id now_id pid in
      let cancel_event := List.length (events m) in
      let job := mkJob "running" 0 0 0 0 None now_started now_changed
                       (Some cancel_event) None None in
      (job_id,
       mkManager (<[job_id := job]> (_jobs m)) (Some job_id)
                 (events m ++ [false])
                 (threads m ++ [mkRunner job_id cancel_event]))
  end.

(** [ev.set()]. *)
Definition set_event (ev : nat) (evs : list bool) : list bool :=
  <[ev := true]> evs.

(** [cancel_event.is_set()]. *)
Definition event_is_set (ev : nat) (evs : list bool) : bool :=
  match evs !! ev with
  | Some b => b
  | None => false
  end.

Definition cancel_update_job (job_id : string) (now : Z) (m : Manager)
    : bool * Manager :=
  match _jobs m !! job_id with
  | None => (false, m)
  | Some job =>
      match _cancel_event job with
      | Some ev =>
          (true,
           mkManager
             (<[job_id :=
                  mkJob "cancelling" (j_checked job) (j_updated job)
                        (j_errors job) (j_total job) (current_url job)
                        (started_ts job) now (_cancel_event job)
                        (ended_ts job) (error job)]> (_jobs m))
             (_active_job_id m) (set_event ev (events m)) (threads m))
      | None => (false, m)
      end
  end.

(** The end of [runner] after [update_feeds_async] returned [stats]. *)
Definition runner_done (r : Runner) (stats : Stats) (now : Z)
    (m : Manager) : Manager :=
  match _jobs m !! r_job_id r with
  | None => m
  | Some job =>
      mkManager
        (<[r_job_id r :=
             mkJob (if event_is_set (r_cancel_event r) (events m)
                    then "cancelled" else "done")
                   (st_checked stats) (st_updated stats) (st_errors stats)
                   (st_total stats) (current_url job) (started_ts job)
                   (last_change_ts job) (_cancel_event job) (Some now)
                   (error job)]> (_jobs m))
        (_active_job_id m) (events m) (threads m)
  end.

(** The [except] branch of [runner]. *)
Definition runner_failed (r : Runner) (msg : string) (now : Z)
    (m : Manager) : Manager :=
  match _jobs m !! r_job_id r with
  | None => m
  | Some job =>
      mkManager
        (<[r_job_id r :=
             mkJob "error" (j_checked job) (j_updated job) (j_errors job)
                   (j_total job) (current_url job) (started_ts job)
                   (last_change_ts job) (_cancel_event job) (Some now)
                   (Some msg)]> (_jobs m))
        (_active_job_id m) (events m) (threads m)
  end.

(** [_any_update_job_running]. *)
Definition _any_update_job_running (m : Manager) : bool :=
  match active_running m with
  | Some _ => true
  | None => false
  end.

(** The atomic steps of the manager: each one runs under [_jobs_lock].
    A progress callback comes from a runner thread and carries the state
    ["running"], the only one [update_feeds_async] reports. *)
Inductive step : Manager -> Manager -> Prop :=
| step_start full_sweep t1 t2 t3 pid m :
    step m (snd (start_update_job full_sweep t1 t2 t3 pid m))
| step_cancel job_id now m :
    step m (snd (cancel_update_job job_id now m))
| step_progress r p now m :
    r ∈ threads m -> pr_state p = "running" ->
    step m (_progress_updater (r_job_id r) p now m)
| step_done r stats now m :
    r ∈ threads m -> step m (runner_done r stats now m)
| step_failed r msg now m :
    r ∈ threads m -> step m (runner_failed r msg now m).

Inductive reachable : Manager -> Prop :=
| reach_initial : reachable initial
| reach_step m m' : reachable m -> step m m' -> reachable m'.

(** A job counts as active while its state is ["running"] or
    ["cancelling"]. *)
Definition is_active (job : Job) : bool :=
  String.eqb (state job) "running" || String.eqb (state job) "cancelling".

Definition at_most_one_active (m : Manager) : Prop :=
  forall i j a b,
    _jobs m !! i = Some a -> _jobs m !! j = Some b ->
    is_active a = true -> is_active b = true -> i = j.

End Jobs.

(** ** The feed-creation route *)

Module Api.

(** [SET title=?]. *)
Definition set_title (title : option string) (r : FeedRow) : FeedRow :=
  mkFeed (f_id r) (f_url r) title (f_etag r) (f_last_modified r)
         (f_last_fetch r) (f_fail_count r) (f_next_fetch r)
         (f_month_count r) (f_last_ok r).

(** [api_feed_create], lines 895-896, for a feed whose URL is already
    stored: [if title and not existing["title"]: UPDATE feeds SET
    title=? WHERE id=?]. *)
Definition learn_title (title : option string) (existing : FeedRow)
    (fs : list FeedRow) : list FeedRow :=
  if truthy title && negb (truthy (f_title existing))
  then Store.update_feed (set_title title) (f_id existing) fs
  else fs.

End Api.

(** ** Readers of the job manager *)

Module JobViews.

(** [get_job]: a copy of the job dict without its ["_cancel_event"] key
    (an absent key is [None]), paired with the ["job_id"] it gains. *)
Definition get_job (job_id : string) (m : Jobs.Manager)
    : option (string * Jobs.Job) :=
  match Jobs._jobs m !! job_id with
  | None => None
  | Some job =>
      Some (job_id,
            Jobs.mkJob (Jobs.state job) (Jobs.j_checked job)
                       (Jobs.j_updated job) (Jobs.j_errors job)
                       (Jobs.j_total job) (Jobs.current_url job)
                       (Jobs.started_ts job) (Jobs.last_change_ts job)
                       None (Jobs.ended_ts job) (Jobs.error job))
  end.

(** The guard of [api_db_select] (lines 810-812): the active job, read
    through [get_job], is in state ["running"] or ["starting"]. *)
Definition db_select_blocked (m : Jobs.Manager) : bool :=
  match Jobs._active_job_id m with
  | Some id =>
      if truthy (Some id)
      then match get_job id m with
           | Some (_, job) =>
               String.eqb (Jobs.state job) "running"
               || String.eqb (Jobs.state job) "starting"
           | None => false
           end
      else false
  | None => false
  end.

End JobViews.

(** ** Callers of the update core *)

Module Callers.
Section Callers.

Variable P : Platform.

(** [_update_one_feed_now]: [asyncio.run(update_feeds_async(feed_ids=
    [feed_id], only_due=False))]. Its [except RuntimeError: pass] is for
    [asyncio.run] called under a running loop; none of the exceptions of
    [Py.exn] is a RuntimeError, so what the sweep raises goes through. *)
Definition _update_one_feed_now (feed_id : Z) : M unit :=
  Update.update_feeds_async P [feed_id] false false false;;
  ret tt.

(** One iteration of [scheduler_loop] after its sleep. [enabled] is
    [_scheduler_enabled]; [lock_free] tells whether
    [DB_WRITE_LOCK.acquire(blocking=False)] succeeds. The lock taken is
    released in the [finally], so it is free again when the iteration
    ends. *)
Definition scheduler_tick (enabled lock_free : bool) : M unit :=
  if negb enabled then ret tt
  else if negb lock_free then ret tt
  else
    try_except
      (Update.update_feeds_async P [] true false false;; ret tt)
      (fun _ => ret tt).

End Callers.
End Callers.

(** ** The statements of the routes and of the importers *)

Module Tables.

(** [SELECT ... FROM feeds WHERE url=?] followed by [fetchone()]. *)
Definition feed_by_url (url : string) (fs : list FeedRow)
    : option FeedRow :=
  List.find (fun r => String.eqb (f_url r) url) fs.

(** The rowid SQLite gives the next row of [feeds]: one more than the
    largest one in use, 1 in an empty table. *)
Definition next_feed_id (fs : list FeedRow) : Z :=
  match List.map f_id fs with
  | [] => 1
  | i :: ids => 1 + List.fold_right Z.max i ids
  end.

(** A row of [feeds] as an INSERT that names [url], [title] and at most
    [next_fetch] (with the value 0, which is also its default) makes it:
    the other columns take their defaults. *)
Definition new_feed (id : Z) (url : string) (title : option string)
    : FeedRow :=
  mkFeed id url title None None None (Some 0) (Some 0) (Some 0) (Some 0).

(** [INSERT OR IGNORE INTO feeds(url, title) VALUES (?, ?)], and the same
    with [next_fetch] 0: the new table and [rowcount]. The row is dropped
    when its [url] is taken ([url] is UNIQUE). *)
Definition insert_or_ignore_feed (url : string) (title : option string)
    (fs : list FeedRow) : list FeedRow * Z :=
  match feed_by_url url fs with
  | Some _ => (fs, 0)
  | None => (fs ++ [new_feed (next_feed_id fs) url title], 1)
  end.

(** [DELETE FROM feeds WHERE id=?]. *)
Definition delete_feed (fid : Z) (fs : list FeedRow) : list FeedRow :=
  List.filter (fun r => negb (f_id r =? fid)) fs.

(** [DELETE FROM entries WHERE feed_id=?]. *)
Definition delete_entries_of (fid : Z) (es : list EntryRow)
    : list EntryRow :=
  List.filter (fun e => negb (e_feed_id e =? fid)) es.

(** [SELECT ... FROM entries WHERE id=?] followed by [fetchone()]. *)
Definition entry_by_id (id : Z) (es : list EntryRow) : option EntryRow :=
  List.find (fun e => e_id e =? id) es.

(** [UPDATE entries SET ... WHERE id=?]. *)
Definition update_entry (set : EntryRow -> EntryRow) (id : Z)
    (es : list EntryRow) : list EntryRow :=
  List.map (fun e => if e_id e =? id then set e else e) es.

(** Would [UPDATE feeds SET url=? ... WHERE id=?] break the UNIQUE
    constraint of [url]: does another row hold this url? *)
Definition url_taken_by_other (url : string) (fid : Z)
    (fs : list FeedRow) : bool :=
  List.existsb
    (fun r => String.eqb (f_url r) url && negb (f_id r =? fid)) fs.

End Tables.

(** What a route answers: [jsonify(body)], or [jsonify({"ok": False,
    "error": error}), status]. *)
Inductive Reply (A : Type) : Type :=
| Json (body : A)
| Refused (status : Z) (error : string).

Arguments Json {A} body.
Arguments Refused {A} status error.

(** ** The JSON body of a request *)

Module Request.

(** A JSON number with a fraction or an exponent, read as a Python
    [float]: [NaN], [Infinity] and [-Infinity], which [json.loads]
    accepts, or a finite value, the fraction [num / den]. *)
Inductive pyfloat : Type :=
| NaN
| Infinity (negative : bool)
| Finite (num : Z) (den : positive).

(** A value of a key of the body. Of an array or an object the routes
    look at the truth value only. A string is a byte string in UTF-8; a
    JSON string with an unpaired surrogate, which has no such encoding,
    is outside the model. *)
Inductive value : Type :=
| Null
| Bool (b : bool)
| Int (n : Z)
| Float (f : pyfloat)
| Str (s : string)
| Array (empty : bool)
| Object (empty : bool).

(** What [request.get_json(silent=True)] returns: [None] when the request
    carries no JSON or JSON that does not parse, a dict for a JSON
    object, or another JSON value, of which the routes look at the truth
    value only. *)
Inductive body : Type :=
| NoJson
| Dict (d : gmap string value)
| Other (truthy : bool).

(** The truth value of a Python value. *)
Definition truth (v : value) : bool :=
  match v with
  | Null => false
  | Bool b => b
  | Int n => negb (n =? 0)
  | Float NaN => true
  | Float (Infinity _) => true
  | Float (Finite num _) => negb (num =? 0)
  | Str s => negb (String.eqb s EmptyString)
  | Array empty => negb empty
  | Object empty => negb empty
  end.

(** [data.get(k)] for [data = request.get_json(silent=True) or {}]: a
    falsy body is replaced by the empty dict; a truthy body that is not a
    dict has no [get]. *)
Definition get (data : body) (k : string) : res (option value) :=
  match data with
  | NoJson => Ok None
  | Dict d => Ok (d !! k)
  | Other truthy => if truthy then Raise AttributeError else Ok None
  end.

(** [v or default], for [v] the result of a [get]. *)
Definition or_else (v : option value) (default : value) : value :=
  match v with
  | Some x => if truth x then x else default
  | None => default
  end.

(** [int(v)]. [int_of_str] is [int] on strings, [None] when it raises
    ValueError; a float is truncated towards zero. *)
Definition int_ (int_of_str : string -> option Z) (v : value) : res Z :=
  match v with
  | Null => Raise TypeError
  | Bool b => Ok (if b then 1 else 0)
  | Int n => Ok n
  | Float NaN => Raise ValueError
  | Float (Infinity _) => Raise OverflowError
  | Float (Finite num den) => Ok (Z.quot num (Z.pos den))
  | Str s =>
      match int_of_str s with
      | Some n => Ok n
      | None => Raise ValueError
      end
  | Array _ => Raise TypeError
  | Object _ => Raise TypeError
  end.

(** [v.strip()]: only a string has the method. *)
Definition strip_ (strip : string -> string) (v : value) : res string :=
  match v with
  | Str s => Ok (strip s)
  | _ => Raise AttributeError
  end.

(** [int(data.get(k) or 0)]. *)
Definition field_int (int_of_str : string -> option Z) (data : body)
    (k : string) : res Z :=
  match get data k with
  | Ok v => int_ int_of_str (or_else v (Int 0))
  | Raise e => Raise e
  end.

(** [(data.get(k) or '').strip()], the default being the empty string. *)
Definition field_text (strip : string -> string) (data : body)
    (k : string) : res string :=
  match get data k with
  | Ok v => strip_ strip (or_else v (Str EmptyString))
  | Raise e => Raise e
  end.

(** A result of a pure computation, in the monad. *)
Definition lift {A : Type} (r : res A) : M A := fun w => (r, w).

End Request.

Module Routes.
Section Routes.

Variable P : Platform.

(** [re.match(r"^https?://", url, re.I)]. *)
Variable http_url : string -> bool.

(** Lines 878-886 of [api_feed_create]: the discovery of the feed behind
    the input URL, its download, the check that it looks like a feed and
    the parse of its title. It yields [(feed_url, kind, title)], or the
    text of the error the route answers with status 400. *)
Variable probe : string -> string + (string * string * option string).

(** [int] on strings; [None] when it raises ValueError. *)
Variable int_of_str : string -> option Z.

(** [SET read_at=?]. *)
Definition set_read_at (t : Z) (e : EntryRow) : EntryRow :=
  mkEntry (e_id e) (e_feed_id e) (e_guid e) (e_title e) (e_link e)
          (e_published e) (e_content_html e) (Some t) (e_bookmarked e)
          (e_created_at e).

(** [SET bookmarked=?]. *)
Definition set_bookmarked (b : Z) (e : EntryRow) : EntryRow :=
  mkEntry (e_id e) (e_feed_id e) (e_guid e) (e_title e) (e_link e)
          (e_published e) (e_content_html e) (e_read_at e) (Some b)
          (e_created_at e).

(** [SET url=?, title=?, etag=NULL, last_modified=NULL, fail_count=0,
    next_fetch=0]. *)
Definition set_url (url : string) (title : option string) (r : FeedRow)
    : FeedRow :=
  mkFeed (f_id r) url title None None (f_last_fetch r) (Some 0) (Some 0)
         (f_month_count r) (f_last_ok r).

Definition UPDATE_entries (set : EntryRow -> EntryRow) (id : Z) : M unit :=
  modify (fun w =>
    with_entries (Tables.update_entry set id (entries w)) w).

(** [api_mark_read]; the answer is always [{"ok": True}]. *)
Definition api_mark_read (entry_id : Z) : M unit :=
  let* t := Update.now_ts P in
  UPDATE_entries (set_read_at t) entry_id;;
  Update.log_sql COMMIT.

(** [api_toggle_bookmark]: the result is the [bookmarked] of the answer.
    [row["bookmarked"]] raises when no entry has this id. *)
Definition api_toggle_bookmark (entry_id : Z) : M Z :=
  let* row := gets (fun w => Tables.entry_by_id entry_id (entries w)) in
  match row with
  | None => raise TypeError
  | Some r =>
      let cur := int_or_0 (e_bookmarked r) in
      let new := if negb (cur =? 0) then 0 else 1 in
      UPDATE_entries (set_bookmarked new) entry_id;;
      Update.log_sql COMMIT;;
      ret new
  end.

(** [_require_no_running_update]. *)
Definition _require_no_running_update {A : Type} (m : Jobs.Manager)
    : option (Reply A) :=
  if Jobs._any_update_job_running m
  then Some (Refused 409 "Cannot modify feeds while an update is running.")
  else None.

(** An integer that SQLite can hold: a signed 64-bit one. *)
Definition sqlite_int (n : Z) : bool :=
  (- 2 ^ 63 <=? n) && (n <? 2 ^ 63).

(** [db.execute] with the Python integer [n] among its parameters: the
    binding raises OverflowError when [n] does not fit an INTEGER of
    SQLite. *)
Definition bind_int (n : Z) : M unit :=
  if sqlite_int n then ret tt else raise OverflowError.

(** Lines 966-981 of [api_feed_delete]: the route once [feed_id] is
    read. *)
Definition feed_delete_checked (feed_id : Z) : M (Reply unit) :=
  if feed_id =? 0 then ret (Refused 400 "id required")
  else
    bind_int feed_id;;
    let* row := Update.SELECT_feed feed_id in
    match row with
    | None => ret (Refused 404 "Unknown feed")
    | Some _ =>
        modify (fun w =>
          with_entries
            (Tables.delete_entries_of feed_id (entries w)) w);;
        modify (fun w =>
          with_feeds (Tables.delete_feed feed_id (feeds w)) w);;
        Update.log_sql COMMIT;;
        ret (Json tt)
    end.

(** [api_feed_delete]; [data] is what [request.get_json(silent=True)]
    returned. The conversion of the id may raise. *)
Definition api_feed_delete (m : Jobs.Manager) (data : Request.body)
    : M (Reply unit) :=
  match _require_no_running_update m with
  | Some block => ret block
  | None =>
      let* feed_id :=
        Request.lift (Request.field_int int_of_str data "id") in
      feed_delete_checked feed_id
  end.

(** Lines 924-955 of [api_feed_update]: the route once its three inputs
    are read. The UPDATE that changes the url raises
    [sqlite3.IntegrityError] when another feed holds the url; nothing is
    committed then. The body of the answer is [(id, url, title)]. *)
Definition feed_update_checked (feed_id : Z) (url : string)
    (title : option string)
    : M (Reply (Z * string * option string)) :=
  if feed_id =? 0 then ret (Refused 400 "id required")
  else if String.eqb url EmptyString
  then ret (Refused 400 "url required")
  else if negb (http_url url)
  then ret (Refused 400 "URL must start with http:// or https://")
  else
    bind_int feed_id;;
    let* row := Update.SELECT_feed feed_id in
    match row with
    | None => ret (Refused 404 "Unknown feed")
    | Some r =>
        let* conflict :=
          gets (fun w =>
            negb (String.eqb url (f_url r))
            && Tables.url_taken_by_other url feed_id (feeds w)) in
        if conflict
        then ret (Refused 409 "A feed with that URL already exists.")
        else
          (if negb (String.eqb url (f_url r))
           then Update.UPDATE_feeds (set_url url title) feed_id
           else Update.UPDATE_feeds (Api.set_title title) feed_id);;
          Update.log_sql COMMIT;;
          Callers._update_one_feed_now P feed_id;;
          ret (Json (feed_id, url, title))
    end.

(** [api_feed_update]; [data] is what [request.get_json(silent=True)]
    returned. The three inputs are read in the order of lines 921-923,
    and each of the conversions may raise. *)
Definition api_feed_update (m : Jobs.Manager) (data : Request.body)
    : M (Reply (Z * string * option string)) :=
  match _require_no_running_update m with
  | Some block => ret block
  | None =>
      let* feed_id :=
        Request.lift (Request.field_int int_of_str data "id") in
      let* url :=
        Request.lift (Request.field_text (strip P) data "url") in
      let* title :=
        Request.lift (Request.field_text (strip P) data "title") in
      feed_update_checked feed_id url (or_none title)
  end.

(** [api_feed_create]. The body of the answer is [(kind, (id, url,
    title), existing)]. *)
Definition api_feed_create (m : Jobs.Manager) (url : option string)
    : M (Reply (string * (Z * string * option string) * bool)) :=
  match _require_no_running_update m with
  | Some block => ret block
  | None =>
      let input_url := strip P (or_empty url) in
      if String.eqb input_url EmptyString
      then ret (Refused 400 "url required")
      else
        match probe input_url with
        | inl error => ret (Refused 400 error)
        | inr (feed_url, kind, title) =>
            let* existing :=
              gets (fun w => Tables.feed_by_url feed_url (feeds w)) in
            match existing with
            | Some ex =>
                let feed_id := f_id ex in
                (if truthy title && negb (truthy (f_title ex))
                 then
                   modify (fun w =>
                     with_feeds (Api.learn_title title ex (feeds w)) w);;
                   Update.log_sql COMMIT
                 else ret tt);;
                let out_title := or_ title (f_title ex) in
                ret (Json (kind, (feed_id, f_url ex, out_title), true))
            | None =>
                let* feed_id :=
                  gets (fun w => Tables.next_feed_id (feeds w)) in
                modify (fun w =>
                  with_feeds
                    (feeds w ++ [Tables.new_feed feed_id feed_url title])
                    w);;
                Update.log_sql COMMIT;;
                Callers._update_one_feed_now P feed_id;;
                ret (Json (kind, (feed_id, feed_url, title), false))
            end
        end
  end.

End Routes.
End Routes.

(** ** OPML and feeds.txt *)

Module Opml.
Section Opml.

Variable P : Platform.

(** The body of the loop of [_parse_opml] for one [outline] element with
    attributes [attrib]; the state is [(pairs, seen)]. *)
Definition parse_outline (attrib : gmap string string)
    (acc : list (string * option string) * gset string)
    : list (string * option string) * gset string :=
  let '(pairs, seen) := acc in
  let url := or_ (or_ (attrib !! "xmlUrl") (attrib !! "xmlurl"))
                 (attrib !! "url") in
  if negb (truthy url) then acc
  else
    let url := strip P (or_empty url) in
    if String.eqb url EmptyString || bool_decide (url ∈ seen) then acc
    else
      let title :=
        or_none (strip P (or_empty (or_ (attrib !! "title")
                                        (attrib !! "text")))) in
      (pairs ++ [(url, title)], {[url]} ∪ seen).

(** [_parse_opml] after [ET.fromstring]: [outlines] lists the attributes
    of the elements [root.findall(".//outline")] returns, in document
    order. *)
Definition _parse_opml (outlines : list (gmap string string))
    : list (string * option string) :=
  fst (List.fold_left (fun acc attrib => parse_outline attrib acc)
                      outlines ([], ∅)).

(** The loop [for url, title in pairs: INSERT OR IGNORE ...] of
    [api_opml_import], with its two counters. *)
Fixpoint insert_pairs (pairs : list (string * option string))
    (imported skipped : Z) : M (Z * Z) :=
  match pairs with
  | [] => ret (imported, skipped)
  | (url, title) :: rest =>
      let* rowcount :=
        (fun w =>
           let '(fs, rowcount) :=
             Tables.insert_or_ignore_feed url title (feeds w) in
           (Ok rowcount, with_feeds fs w)) in
      if rowcount =? 1
      then insert_pairs rest (imported + 1) skipped
      else insert_pairs rest imported (skipped + 1)
  end.

(** [api_opml_import] in the modes that work on the current database
    (lines 1102-1130): [replace] tells whether the mode is ["replace"]
    rather than ["merge"]. The result is [(imported, skipped)]. *)
Definition opml_import (replace : bool)
    (pairs : list (string * option string)) : M (Z * Z) :=
  Update.log_sql BEGIN;;
  (if replace
   then modify (with_entries []);; modify (with_feeds [])
   else ret tt);;
  let* counts := insert_pairs pairs 0 0 in
  Update.log_sql COMMIT;;
  ret counts.

(** [ensure_feed]. *)
Definition ensure_feed (url : string) : M unit :=
  modify (fun w =>
    with_feeds (fst (Tables.insert_or_ignore_feed url None (feeds w))) w).

(** The loop over the lines of feeds.txt. *)
Fixpoint ensure_lines (lines : list string) (n : Z) : M Z :=
  match lines with
  | [] => ret n
  | line :: rest =>
      let u := strip P line in
      if String.eqb u EmptyString || String.prefix "#" u
      then ensure_lines rest n
      else ensure_feed u;; ensure_lines rest (n + 1)
  end.

(** [import_feeds_txt]: [file] is [None] when the path does not exist,
    else the lines of the file. *)
Definition import_feeds_txt (file : option (list string)) : M Z :=
  match file with
  | None => ret 0
  | Some lines =>
      Update.log_sql BEGIN;;
      let* n := ensure_lines lines 0 in
      Update.log_sql COMMIT;;
      ret n
  end.

(** The loop of [import_default_opml_if_needed]. *)
Fixpoint insert_default_pairs (pairs : list (string * option string))
    (n : Z) : M Z :=
  match pairs with
  | [] => ret n
  | (url, title) :: rest =>
      if String.eqb url EmptyString then insert_default_pairs rest n
      else
        modify (fun w =>
          with_feeds
            (fst (Tables.insert_or_ignore_feed url
                    (if truthy title then title else None) (feeds w)))
            w);;
        insert_default_pairs rest (n + 1)
  end.

(** [import_default_opml_if_needed]: [file] is [None] when the path does
    not exist; else it holds what [ET.fromstring] makes of the file:
    [None] when it raises, so that [_parse_opml] raises ValueError, else
    the outlines. *)
Definition import_default_opml_if_needed
    (file : option (option (list (gmap string string)))) : M Z :=
  match file with
  | None => ret 0
  | Some xml =>
      let* count := gets (fun w => Z.of_nat (List.length (feeds w))) in
      if 0 <? count then ret 0
      else
        match xml with
        | None => raise ValueError
        | Some outlines =>
            let pairs := _parse_opml outlines in
            Update.log_sql BEGIN;;
            let* n := insert_default_pairs pairs 0 in
            Update.log_sql COMMIT;;
            ret n
        end
  end.

End Opml.
End Opml.

(** ** File names and XML text *)

Module Text.

(** The class [[A-Za-z0-9._-]] of [_sanitize_db_name]. A string is the
    UTF-8 text of a Python [str]: every byte of a character outside ASCII
    is outside the class, so a run of such characters is a run of such
    bytes. *)
Definition safe_char (c : ascii) : bool :=
  let n := nat_of_ascii c in
  ((65 <=? n) && (n <=? 90) || (97 <=? n) && (n <=? 122)
   || (48 <=? n) && (n <=? 57)
   || (n =? 46) || (n =? 95) || (n =? 45))%nat.

(** [re.sub(r"[^A-Za-z0-9._-]+", "_", s)]: each maximal run of characters
    outside the class becomes one underscore. [in_run] tells whether the
    character before was outside the class. *)
Fixpoint sub_unsafe (in_run : bool) (s : string) : string :=
  match s with
  | EmptyString => EmptyString
  | String c rest =>
      if safe_char c then String c (sub_unsafe false rest)
      else if in_run then sub_unsafe true rest
      else String "_" (sub_unsafe true rest)
  end.

(** [str.lower] on a character of the class. *)
Definition lower_char (c : ascii) : ascii :=
  let n := nat_of_ascii c in
  if ((65 <=? n) && (n <=? 90))%nat then ascii_of_nat (n + 32) else c.

Fixpoint lower (s : string) : string :=
  match s with
  | EmptyString => EmptyString
  | String c rest => String (lower_char c) (lower rest)
  end.

(** [s.endswith(suffix)]. *)
Definition endswith (suffix s : string) : bool :=
  String.eqb
    (String.substring (String.length s - String.length suffix)
                      (String.length suffix) s)
    suffix
  && (String.length suffix <=? String.length s)%nat.

(** [_sanitize_db_name]; [strip] is [str.strip]. The name that is
    lowered holds characters of the class only. *)
Definition _sanitize_db_name (strip : string -> string)
    (name : option string) : string :=
  let name := strip (or_empty name) in
  let name := sub_unsafe false name in
  if String.eqb name EmptyString then EmptyString
  else if negb (endswith ".db" (lower name)) then name +:+ ".db"
  else name.

Definition dquote : ascii := ascii_of_nat 34.

(** [s.replace(old, new)] for a one-character [old]. *)
Fixpoint replace (old : ascii) (new : string) (s : string) : string :=
  match s with
  | EmptyString => EmptyString
  | String c rest =>
      if Ascii.eqb c old then new +:+ replace old new rest
      else String c (replace old new rest)
  end.

(** The local function [esc] of [_build_opml]. *)
Definition esc (s : string) : string :=
  replace dquote "&quot;"
    (replace ">" "&gt;" (replace "<" "&lt;" (replace "&" "&amp;" s))).

(** The line [_build_opml] writes for a feed given as a dict with the keys
    ["url"] and ["title"], as [api_opml_export] passes it. *)
Definition outline (url title : option string) : string :=
  let url := or_empty url in
  let title := or_str (or_empty title) url in
  let q := String dquote EmptyString in
  "    <outline type=" +:+ q +:+ "rss" +:+ q
  +:+ " text=" +:+ q +:+ esc title +:+ q
  +:+ " title=" +:+ q +:+ esc title +:+ q
  +:+ " xmlUrl=" +:+ q +:+ esc url +:+ q +:+ " />".

End Text.

(** ** Feed discovery *)

Module Discovery.
Section Discovery.

(** [str.lower]. *)
Variable str_lower : string -> string.

(** [needle in hay]. *)
Definition contains (needle hay : string) : bool :=
  match String.index 0 needle hay with
  | Some _ => true
  | None => false
  end.

(** The white space [bytes.lstrip] removes. *)
Definition is_space (c : ascii) : bool :=
  let n := nat_of_ascii c in
  ((9 <=? n) && (n <=? 13) || (n =? 32))%nat.

(** [bytes.lstrip]. *)
Fixpoint lstrip (s : string) : string :=
  match s with
  | EmptyString => EmptyString
  | String c rest => if is_space c then lstrip rest else s
  end.

(** [_looks_like_feed]; [bytes.lower] changes the ASCII letters only, as
    [Text.lower] does. *)
Definition _looks_like_feed (content_type : option string) (body : string)
    : bool :=
  let ct := str_lower (or_empty content_type) in
  if List.existsb (fun t => contains t ct)
       ["application/rss+xml"; "application/atom+xml"; "application/xml";
        "text/xml"]
  then true
  else
    let head := lstrip (String.substring 0 4096 body) in
    if String.prefix "<?xml" head then true
    else
      let lower := Text.lower head in
      contains "<rss" lower
      || (contains "<feed" lower && contains "xmlns" lower).

(** The state of a [_HeadLinkFinder]. *)
Record Finder : Type := mkFinder {
  in_head : bool;
  candidates : list string
}.

(** [{k.lower(): (v or "") for (k, v) in attrs}]: a later attribute of
    the same name replaces an earlier one. *)
Definition attr_dict (attrs : list (string * option string))
    : gmap string string :=
  List.fold_left (fun d kv => <[str_lower (fst kv) := or_empty (snd kv)]> d)
                 attrs ∅.

(** [d.get(k, "")]. *)
Definition get_or_empty (d : gmap string string) (k : string) : string :=
  match d !! k with
  | Some v => v
  | None => EmptyString
  end.

Definition handle_starttag (tag : string)
    (attrs : list (string * option string)) (p : Finder) : Finder :=
  if String.eqb (str_lower tag) "head" then mkFinder true (candidates p)
  else if negb (in_head p) then p
  else if negb (String.eqb (str_lower tag) "link") then p
  else
    let d := attr_dict attrs in
    let rel := str_lower (get_or_empty d "rel") in
    let typ := str_lower (get_or_empty d "type") in
    let href := get_or_empty d "href" in
    if String.eqb href EmptyString then p
    else if negb (contains "alternate" rel) then p
    else if contains "rss" typ || contains "atom" typ || contains "xml" typ
    then mkFinder (in_head p) (candidates p ++ [href])
    else p.

Definition handle_endtag (tag : string) (p : Finder) : Finder :=
  if String.eqb (str_lower tag) "head" then mkFinder false (candidates p)
  else p.

(** The calls [HTMLParser.feed] makes on the two handlers. *)
Inductive Event : Type :=
| StartTag (tag : string) (attrs : list (string * option string))
| EndTag (tag : string).

Definition handle (p : Finder) (e : Event) : Finder :=
  match e with
  | StartTag tag attrs => handle_starttag tag attrs p
  | EndTag tag => handle_endtag tag p
  end.

(** The finder after the events of a page, from its initial state. *)
Definition feed_events (events : list Event) : Finder :=
  List.fold_left handle events (mkFinder false []).

End Discovery.
End Discovery.

(** ** The configuration of the tray application (tray_app.py) *)

Module Tray.


(** The exceptions [load_config] can meet: OSError from [open],
    UnicodeDecodeError from the read, JSONDecodeError and RecursionError
    from the parse, TypeError from the merge. *)
Inductive exn : Type :=
| OSError
| UnicodeDecodeError
| JSONDecodeError
| RecursionError
| TypeError.





End Tray.

(** * Vocabulary of the properties *)

Import Update Jobs.

(** ** Keys and kinds *)

(** The key of the UNIQUE constraint of [entries]. *)
Definition entry_key (e : EntryRow) : Z * string := (e_feed_id e, e_guid e).

Definition unique_keys (es : list EntryRow) : Prop :=
  List.NoDup (List.map entry_key es).

Definition is_failure (r : FetchResult) : bool :=
  match r with
  | http_error _ _ | exception _ _ => true
  | not_modified _ | ok _ _ _ _ => false
  end.

(** ** Date safety *)

(** The year window of the date-safety policy: [1971, currentYear + 5]. *)
Definition year_trusted (current_year y : Z) : bool :=
  (1971 <=? y) && (y <=? current_year + 5).

(** The fallback ladder of the date-safety policy, for a conversion that
    starts at the [n]-th clock reading: an untrusted year gives the current
    time; otherwise the UTC conversion, else the local-time one, else the
    current time. *)
Definition toTimestamp (P : Platform) (n : nat) (st : time_like) : Z :=
  match st with
  | Malformed => clock P n
  | StructTime t =>
      if year_trusted (utc_year P (clock P n)) (tm_year t)
      then match timegm P t with
           | Some utc => utc
           | None =>
               match mktime P t with
               | Some local => local
               | None => clock P (S n)
               end
           end
      else clock P (S n)
  end.

(** The timestamp [entry_published_ts] gives an entry at the [n]-th clock
    reading. *)
Definition published_at (P : Platform) (n : nat) (e : ParsedEntry) : Z :=
  match pe_published_parsed e with
  | Some st => toTimestamp P n st
  | None =>
      match pe_updated_parsed e with
      | Some st => toTimestamp P n st
      | None => clock P n
      end
  end.

(** ** Frames and steps *)

(** [w'] is [w] after some more clock readings: nothing else changed. *)
Definition clock_only (w w' : World) : Prop :=
  w' = with_clock_reads (clock_reads w') w /\
  (clock_reads w <= clock_reads w')%nat.

(** The part of the state the loop over [parsed.entries] leaves alone. *)
Definition loop_frame (w w' : World) : Prop :=
  feeds w' = feeds w /\ checked w' = checked w /\ updated w' = updated w
  /\ errors w' = errors w /\ sql_log w' = sql_log w
  /\ progress_log w' = progress_log w.

(** What one reconciliation may do to the state when it handles a feed of
    [ids] under retention cutoff [cutoff]: poll the cancellation event,
    read the clock, insert (or ignore) an entry of such a feed that is not
    older than the cutoff, update the row of such a feed, move the local
    counters, report progress. *)
Inductive prim (ids : list Z) (cutoff : Z) : World -> World -> Prop :=
| prim_poll w n :
    cancel_after w = Some (S n) ->
    prim ids cutoff w (with_cancel_after (Some n) w)
| prim_clock w :
    prim ids cutoff w (with_clock_reads (S (clock_reads w)) w)
| prim_insert w fid guid title link pub html created :
    fid ∈ ids -> cutoff <= pub ->
    prim ids cutoff w
      (with_entries
         (fst (Store.insert_or_ignore_entry fid guid title link pub html
                                            created (entries w))) w)
| prim_update w fid set :
    fid ∈ ids -> (forall r, f_id (set r) = f_id r) ->
    prim ids cutoff w
      (with_feeds (Store.update_feed set fid (feeds w)) w)
| prim_counters w c u e :
    prim ids cutoff w (with_counters c u e w)
| prim_progress w p :
    prim ids cutoff w (with_progress_log (progress_log w ++ [p]) w).

Abbreviation prims ids cutoff := (rtc (prim ids cutoff)).

(** ** One reconciliation *)

(** The state in which the branch on [kind] starts. *)
Definition counted (w : World) : World :=
  with_counters (checked w + 1) (updated w) (errors w) w.

(** The state after the progress report that ends an iteration. *)
Definition reported (progress_cb : bool) (total : Z)
    (cur_url : option string) (w : World) : World :=
  if progress_cb
  then with_progress_log
         (progress_log w
          ++ [mkProgress total (checked w) (updated w) (errors w)
                         "running" cur_url]) w
  else w.

(** The url reported as [current_url]. *)
Definition cur_url_of (r : FetchResult) (w : World) : option string :=
  option_map f_url (Store.feed_by_id (result_feed_id r) (feeds w)).

(** The feed title the ok branch passes to the UPDATE. *)
Definition learned_title (P : Platform) (payload : string)
    : option string :=
  or_none (strip P (or_empty (p_feed_title (feedparser_parse P payload)))).

(** The state in which the loop over [parsed.entries] starts. *)
Definition fetched (P : Platform) (fid : Z) (payload : string)
    (etag last_mod : option string) (w : World) : World :=
  with_feeds
    (Store.update_feed
       (set_fetched (learned_title P payload) etag last_mod
                    (clock P (clock_reads w))
                    (clock P (S (clock_reads w))))
       fid (feeds w))
    (with_clock_reads (S (S (clock_reads w))) w).

(** The state after the [if added_any: updated += 1] of the ok branch. *)
Definition bumped (added_any : bool) (w : World) : World :=
  if added_any
  then with_counters (checked w) (updated w + 1) (errors w) w
  else w.

(** The state after the tail of the ok branch: [month_count] is recounted,
    read back, and [next_fetch] is set from it. *)
Definition rescheduled (P : Platform) (cutoff fid : Z) (w : World)
    : World :=
  let recounted :=
    Store.update_feed
      (set_month_count (Store.count_recent fid cutoff (entries w)))
      fid (feeds w) in
  let mc :=
    match Store.feed_by_id fid recounted with
    | Some r => int_or_0 (f_month_count r)
    | None => 0
    end in
  with_feeds
    (Store.update_feed
       (set_next_fetch (clock P (clock_reads w) + choose_interval P mc))
       fid recounted)
    (with_clock_reads (S (clock_reads w)) w).


(** ** The sweep *)

(** The feeds whose fetch the first loop dispatches, given how many polls
    still come back false. *)
Definition dispatched (cancel_event : bool) (c : option nat)
    (fs : list FeedRow) : list FeedRow :=
  if cancel_event
  then match c with
       | None => fs
       | Some k => firstn k fs
       end
  else fs.

(** The polls left after [n] iterations that poll until the event is seen
    set. *)
Definition polled (cancel_event : bool) (c : option nat) (n : nat)
    : option nat :=
  if cancel_event
  then match c with
       | None => None
       | Some k => Some (k - n)%nat
       end
  else c.

(** The retention cutoff of a sweep that starts in [w]. *)
Definition sweep_cutoff (P : Platform) (w : World) : Z :=
  clock P (clock_reads w) - RETENTION_DAYS P * 86400.

(** The rows the query of [select_feeds] returns in a sweep that starts in
    [w]. *)
Definition selected (P : Platform) (feed_ids : list Z) (only_due : bool)
    (w : World) : list FeedRow :=
  match feed_ids with
  | _ :: _ => Store.feeds_in feed_ids (feeds w)
  | [] =>
      if only_due
      then Store.feeds_due (clock P (S (clock_reads w))) (feeds w)
      else feeds w
  end.

(** The state of a sweep that starts in [w] when it tests [total == 0]:
    the clock was read, the counters are zero, the first progress report
    is out. *)
Definition started (P : Platform) (feed_ids : list Z)
    (only_due progress_cb : bool) (w : World) : World :=
  let reads :=
    match feed_ids with
    | _ :: _ => S (clock_reads w)
    | [] => if only_due then S (S (clock_reads w)) else S (clock_reads w)
    end in
  let w0 := with_counters 0 0 0 (with_clock_reads reads w) in
  if progress_cb
  then with_progress_log
         (progress_log w0
          ++ [mkProgress (Z.of_nat (List.length
                                      (selected P feed_ids only_due w)))
                         0 0 0 "running" None]) w0
  else w0.

(** The state in which the loop over the completed tasks starts: BEGIN is
    logged and the first loop has polled the event. *)
Definition began (P : Platform) (feed_ids : list Z)
    (only_due progress_cb cancel_event : bool) (w : World) : World :=
  let w0 := started P feed_ids only_due progress_cb w in
  with_cancel_after
    (polled cancel_event (cancel_after w)
            (List.length (selected P feed_ids only_due w)))
    (with_sql_log (sql_log w0 ++ [BEGIN]) w0).

(** The results the second loop iterates over, in completion order. *)
Definition completed (P : Platform) (feed_ids : list Z)
    (only_due cancel_event : bool) (w : World) : list FetchResult :=
  as_completed P
    (List.map (fetch_one P)
       (dispatched cancel_event (cancel_after w)
                   (selected P feed_ids only_due w))).

(** The state after the DELETE and the COMMIT that end a sweep. *)
Definition committed (cutoff : Z) (w : World) : World :=
  with_sql_log (sql_log w ++ [DELETE_old cutoff; COMMIT])
    (with_entries (Store.delete_old cutoff (entries w)) w).

(** The loop over the completed tasks went through the results [rs]
    from [w] to [w']: before each of them the check of the cancellation
    event answered false, and the result was reconciled. *)
Inductive reconciled_all (P : Platform) (cancel_event progress_cb : bool)
    (cutoff total : Z) : list FetchResult -> World -> World -> Prop :=
| reconciled_none w :
    reconciled_all P cancel_event progress_cb cutoff total [] w w
| reconciled_next r rest w wp w1 w' :
    cancelled cancel_event w = (Ok false, wp) ->
    reconcile P cancel_event progress_cb cutoff total r wp = (Ok tt, w1) ->
    reconciled_all P cancel_event progress_cb cutoff total rest w1 w' ->
    reconciled_all P cancel_event progress_cb cutoff total (r :: rest) w w'.

(** The state in which the loop that dispatches the fetches starts:
    BEGIN is logged. *)
Definition opened (P : Platform) (feed_ids : list Z)
    (only_due progress_cb : bool) (w : World) : World :=
  let w0 := started P feed_ids only_due progress_cb w in
  with_sql_log (sql_log w0 ++ [BEGIN]) w0.

(** ** Concrete inputs *)

(** A platform to evaluate the update core on: the clock ticks one second
    per reading from 2023-11-14, the UTC conversion counts mean years and
    mean months, the local-time conversion always fails, every
    body parses to a feed titled "Feed title" with one dated and one
    undated entry, and every request is answered 200. *)
Definition demo_entries : list ParsedEntry :=
  [mkParsedEntry (Some "a1") None (Some "http://a/1") (Some "First")
                 None None
                 (Some (StructTime (mkTime 2023 11 14 0 0 0))) None
                 [] (Some "one");
   mkParsedEntry None None (Some "http://a/2") (Some "Second")
                 None None None None [] None].

Definition demo : Platform :=
  mkPlatform 1200 3600 7200 30
    (fun n => 1700000000 + Z.of_nat n)
    (fun t => 1970 + t / 31556952)
    (fun st => Some ((tm_year st - 1970) * 31556952
                     + (tm_mon st - 1) * 2629746
                     + (tm_mday st - 1) * 86400
                     + tm_hour st * 3600 + tm_min st * 60 + tm_sec st))
    (fun _ => None)
    (fun s => s)
    (fun s => s)
    (fun _ => mkParsed (Some "Feed title") demo_entries)
    (fun _ _ => HttpResponse 200 "<rss/>" None None)
    (fun l => l)
    (fun l => Permutation_refl l).

(** Feed 1 has a title, was fetched before and failed twice; feed 2 is
    new. *)
Definition demo_feed1 : FeedRow :=
  mkFeed 1 "http://a/feed" (Some "My title") None None (Some 1699990000)
         (Some 2) (Some 0) (Some 0) (Some 0).

Definition demo_feed2 : FeedRow :=
  mkFeed 2 "http://b/feed" None None None None (Some 0) (Some 0) (Some 0)
         (Some 0).

(** One old entry that is bookmarked and one that is not. *)
Definition demo_old_kept : EntryRow :=
  mkEntry 1 1 "old-kept" (Some "kept") None (Some 1000) None None (Some 1)
          1000.

Definition demo_old_dropped : EntryRow :=
  mkEntry 2 1 "old-dropped" (Some "dropped") None (Some 1000) None None
          (Some 0) 1000.

Definition demo_world (cancel : option nat) : World :=
  mkWorld [demo_feed1; demo_feed2] [demo_old_kept; demo_old_dropped]
          0 0 0 0 cancel [] [].

(** The states used below: a job is started at time 100 by process 7;
    it is cancelled at 101; a second start comes at 102. *)
Definition jobs_started : Manager :=
  snd (start_update_job true 100 100 100 7 initial).

Definition jobs_cancelled : Manager :=
  snd (cancel_update_job "job_100_7" 101 jobs_started).

Definition jobs_restarted : Manager :=
  snd (start_update_job true 102 102 102 7 jobs_cancelled).

(** The first job ran to its end at 105 without being cancelled. *)
Definition jobs_finished : Manager :=
  runner_done (mkRunner "job_100_7" 0) (mkStats 2 1 0 2) 105 jobs_started.

(** An [int] on strings to evaluate the routes with: it reads a
    non-empty string of decimal digits. *)
Fixpoint digits (s : string) (acc : Z) : option Z :=
  match s with
  | EmptyString => Some acc
  | String c rest =>
      let n := Z.of_nat (nat_of_ascii c) - 48 in
      if (0 <=? n) && (n <=? 9) then digits rest (10 * acc + n) else None
  end.

Definition demo_int (s : string) : option Z :=
  match s with
  | EmptyString => None
  | _ => digits s 0
  end.

(** ** Conditional requests *)

(** The two conditional headers [fetch_one] adds for a feed row (lines
    437-441). *)
Definition conditional_headers (feed_row : FeedRow) : Headers :=
  mkHeaders
    (if truthy (f_etag feed_row) then f_etag feed_row else None)
    (if truthy (f_last_modified feed_row)
     then f_last_modified feed_row else None).

(** The progress report that ends the reconciliation of a result. *)
Definition progress_of (total : Z) (url : option string) (w : World)
    : Progress :=
  mkProgress total (checked w) (updated w) (errors w) "running" url.

(** What [fetch_one] makes of the response (lines 444-456). *)
Definition classify (feed_id : Z) (resp : Response) : FetchResult :=
  match resp with
  | HttpResponse status text etag last_mod =>
      if status =? 304 then not_modified feed_id
      else if negb (status =? 200) then http_error feed_id status
      else ok feed_id text etag last_mod
  | ConnError msg => exception feed_id msg
  end.

(** A validator as [fetch_one] sends it: only when it is truthy. *)
Definition validator (v : option string) : option string :=
  if truthy v then v else None.

(** ** Invariants of the two tables *)

(** Which feeds exist: the id and the url of each row, in table order. *)
Definition feed_keys (fs : list FeedRow) : list (Z * string) :=
  List.map (fun f => (f_id f, f_url f)) fs.

(** The foreign key of [entries], which SQLite does not check unless
    asked to: every entry belongs to a feed that has a row. *)
Definition no_orphans (fs : list FeedRow) (es : list EntryRow) : Prop :=
  forall e, In e es -> In (e_feed_id e) (List.map f_id fs).

(** ** The feed routes *)

(** The SET clause [api_feed_update] applies to a row: the one that
    changes the url when the url is new, else the one for the title. *)
Definition edit_of (url : string) (title : option string) (row : FeedRow)
    : FeedRow -> FeedRow :=
  if negb (String.eqb url (f_url row))
  then Routes.set_url url title
  else Api.set_title title.

(** The state in which [api_feed_update] starts its refresh. *)
Definition edited (fid : Z) (url : string) (title : option string)
    (row : FeedRow) (w : World) : World :=
  with_sql_log (sql_log w ++ [COMMIT])
    (with_feeds
       (Store.update_feed (edit_of url title row) fid (feeds w)) w).

(** ** Imports *)

(** The url and the title of a row: what an OPML file says of a feed. *)
Definition feed_pair (f : FeedRow) : string * option string :=
  (f_url f, f_title f).

(** A row as an INSERT of the importers leaves it: never fetched, due at
    once. *)
Definition fresh_feed (f : FeedRow) : Prop :=
  f = Tables.new_feed (f_id f) (f_url f) (f_title f).

(** The lines of feeds.txt that name a feed: stripped, not empty, not a
    comment. *)
Definition feed_lines (P : Platform) (lines : list string) : list string :=
  List.filter
    (fun u => negb (String.eqb u EmptyString || String.prefix "#" u))
    (List.map (strip P) lines).

(** What the loop of [_parse_opml] maintains: [seen] holds the urls of
    [pairs], no url occurs twice, no url is empty, no title is the empty
    string. *)
Definition parse_inv (acc : list (string * option string) * gset string)
    : Prop :=
  (forall u, u ∈ snd acc <-> In u (List.map fst (fst acc)))
  /\ List.NoDup (List.map fst (fst acc))
  /\ List.Forall (fun p => fst p <> EmptyString
                           /\ snd p <> Some EmptyString) (fst acc).

(** ** Text *)

(** How often a character occurs in a string. *)
Fixpoint count_char (c : ascii) (s : string) : nat :=
  match s with
  | EmptyString => O
  | String d rest =>
      (if Ascii.eqb d c then 1 else 0) + count_char c rest
  end.

(** Every character of the string is in the class of
    [_sanitize_db_name]. *)
Fixpoint all_safe (s : string) : bool :=
  match s with
  | EmptyString => true
  | String c rest => Text.safe_char c && all_safe rest
  end.

(** ** Jobs *)

(** The states a job dict is ever given. *)
Definition job_states : list string :=
  ["running"; "cancelling"; "cancelled"; "done"; "error"].

(** ** Pages *)

(** A run of [n] blanks. *)
Fixpoint blanks (n : nat) : string :=
  match n with
  | O => EmptyString
  | S k => String " " (blanks k)
  end.

(** Is the event the start of a [head] element? *)
Definition starts_head (str_lower : string -> string)
    (e : Discovery.Event) : bool :=
  match e with
  | Discovery.StartTag tag _ => String.eqb (str_lower tag) "head"
  | Discovery.EndTag _ => false
  end.

(** Is [href] the non-empty href of a [link] start tag among the
    events? *)
Definition link_href (str_lower : string -> string)
    (events : list Discovery.Event) (href : string) : Prop :=
  href <> EmptyString
  /\ exists tag attrs,
       In (Discovery.StartTag tag attrs) events
       /\ str_lower tag = "link"
       /\ Discovery.get_or_empty (Discovery.attr_dict str_lower attrs)
                                 "href" = href.

(** * Properties *)

(** ** Running the monad *)

Lemma bind_ok {A B : Type} (m : M A) (k : A -> M B) w a w' :
  m w = (Ok a, w') -> bind m k w = k a w'.
Proof. intros H. unfold bind. now rewrite H. Qed.

Lemma bind_raise {A B : Type} (m : M A) (k : A -> M B) w e w' :
  m w = (Raise e, w') -> bind m k w = (Raise e, w').
Proof. intros H. unfold bind. now rewrite H. Qed.

Lemma try_except_ok {A : Type} (m : M A) (h : exn -> M A) w a w' :
  m w = (Ok a, w') -> try_except m h w = (Ok a, w').
Proof. intros H. unfold try_except. now rewrite H. Qed.

Lemma try_except_raise {A : Type} (m : M A) (h : exn -> M A) w e w' :
  m w = (Raise e, w') -> try_except m h w = h e w'.
Proof. intros H. unfold try_except. now rewrite H. Qed.

Lemma clock_only_refl w : clock_only w w.
Proof. split; [now destruct w | lia]. Qed.

Lemma clock_only_trans w1 w2 w3 :
  clock_only w1 w2 -> clock_only w2 w3 -> clock_only w1 w3.
Proof.
  intros [E1 L1] [E2 L2]. split; [|lia].
  rewrite E2 at 1. rewrite E1 at 1. reflexivity.
Qed.

Lemma clock_only_reads w n :
  (clock_reads w <= n)%nat -> clock_only w (with_clock_reads n w).
Proof. intros H. split; [reflexivity | exact H]. Qed.

(** Closes [exists w', m w = (Ok v, w') /\ clock_only w w'] once [m w] has
    been reduced. *)
Ltac solve_clock_only :=
  eexists; split; [reflexivity | split; [reflexivity | cbn; lia]].


(** ** Facts about the store *)

Section StoreFacts.

Lemma feed_by_id_update_same set fid fs :
  (forall r, f_id (set r) = f_id r) ->
  Store.feed_by_id fid (Store.update_feed set fid fs)
  = option_map set (Store.feed_by_id fid fs).
Proof.
  intros Hid. unfold Store.feed_by_id, Store.update_feed.
  induction fs as [|r fs IH]; [reflexivity|]. cbn.
  destruct (f_id r =? fid) eqn:E.
  - rewrite Hid, E. reflexivity.
  - rewrite E. exact IH.
Qed.

Lemma feed_by_id_update_other set fid j fs :
  (forall r, f_id (set r) = f_id r) -> j <> fid ->
  Store.feed_by_id j (Store.update_feed set fid fs)
  = Store.feed_by_id j fs.
Proof.
  intros Hid Hne. unfold Store.feed_by_id, Store.update_feed.
  induction fs as [|r fs IH]; [reflexivity|]. cbn.
  destruct (f_id r =? fid) eqn:E.
  - rewrite Hid. apply Z.eqb_eq in E.
    destruct (f_id r =? j) eqn:E'; [apply Z.eqb_eq in E'; congruence|].
    exact IH.
  - destruct (f_id r =? j); [reflexivity | exact IH].
Qed.

End StoreFacts.

(** ** The backoff schedule *)

Lemma backoff_unfold n : backoff n = Z.min 21600 (60 * 2 ^ Z.min n 8).
Proof. unfold backoff. f_equal. apply Z.mul_comm. Qed.

Lemma backoff_mono n m : n <= m -> backoff n <= backoff m.
Proof.
  intros H. unfold backoff.
  apply Z.min_le_compat_l, Z.mul_le_mono_nonneg_r; [lia|].
  apply Z.pow_le_mono_r; lia.
Qed.

Lemma backoff_flat n : 8 <= n -> backoff n = 15360.
Proof.
  intros H. unfold backoff. rewrite (Z.min_r n 8) by lia. reflexivity.
Qed.

(** ** Date safety *)

Section DateFacts.

Variable P : Platform.

Lemma year_trusted_spec cy y :
  year_trusted cy y = negb ((y <? 1971) || (cy + 5 <? y)).
Proof. unfold year_trusted. lia. Qed.

Lemma safe_struct_time_to_ts_run st w :
  exists w',
    safe_struct_time_to_ts P st w
    = (Ok (toTimestamp P (clock_reads w) st), w')
    /\ clock_only w w'.
Proof.
  destruct st as [t|].
  - unfold safe_struct_time_to_ts, toTimestamp.
    rewrite year_trusted_spec.
    cbv [bind try_except int_tm_year utc_now_year read_clock now_ts ret
         calendar_timegm time_mktime lift_option raise]. cbn.
    destruct ((tm_year t <? 1971)
              || (utc_year P (clock P (clock_reads w)) + 5 <? tm_year t));
      cbn; [solve_clock_only|].
    destruct (timegm P t); cbn; [solve_clock_only|].
    destruct (mktime P t); cbn; solve_clock_only.
  - cbn. solve_clock_only.
Qed.

Lemma entry_published_ts_run e w :
  exists w',
    entry_published_ts P e w = (Ok (published_at P (clock_reads w) e), w')
    /\ clock_only w w'.
Proof.
  unfold entry_published_ts, published_at.
  destruct (pe_published_parsed e) as [st|];
    [apply safe_struct_time_to_ts_run|].
  destruct (pe_updated_parsed e) as [st|];
    [apply safe_struct_time_to_ts_run|].
  solve_clock_only.
Qed.

End DateFacts.

(** ** The steps a reconciliation is made of *)

Lemma prim_update_eq ids cutoff w w' fid set :
  fid ∈ ids -> (forall r, f_id (set r) = f_id r) ->
  w' = with_feeds (Store.update_feed set fid (feeds w)) w ->
  prim ids cutoff w w'.
Proof. intros ? ? ->. now apply prim_update. Qed.

Lemma prim_clock_eq ids cutoff w w' :
  w' = with_clock_reads (S (clock_reads w)) w -> prim ids cutoff w w'.
Proof. intros ->. apply prim_clock. Qed.

Lemma prims_weaken ids ids' cutoff w w' :
  ids ⊆ ids' -> prims ids cutoff w w' -> prims ids' cutoff w w'.
Proof.
  intros Hsub. apply rtc_subrel. intros x y Hp.
  destruct Hp; try (constructor; auto; fail).
Qed.

Lemma clock_only_prims ids cutoff w w' :
  clock_only w w' -> prims ids cutoff w w'.
Proof.
  intros [E L]. rewrite E. clear E.
  induction L as [|n L IH].
  - replace (with_clock_reads (clock_reads w) w) with w by now destruct w.
    apply rtc_refl.
  - eapply rtc_r; [exact IH|].
    apply (prim_clock ids cutoff (with_clock_reads n w)).
Qed.

Lemma loop_frame_refl w : loop_frame w w.
Proof. repeat split. Qed.

Lemma loop_frame_trans w1 w2 w3 :
  loop_frame w1 w2 -> loop_frame w2 w3 -> loop_frame w1 w3.
Proof.
  unfold loop_frame. intros (?&?&?&?&?&?) (?&?&?&?&?&?).
  repeat split; congruence.
Qed.

Lemma clock_only_loop_frame w w' : clock_only w w' -> loop_frame w w'.
Proof. intros [E _]. rewrite E. repeat split. Qed.

(** The outcome of one poll of the cancellation event. *)
Lemma cancelled_cases ids cutoff cancel_event w :
  (cancelled cancel_event w = (Ok true, w)
   /\ cancel_event = true /\ cancel_after w = Some O)
  \/ (exists w', cancelled cancel_event w = (Ok false, w')
                 /\ prims ids cutoff w w'
                 /\ w' = with_cancel_after (cancel_after w') w
                 /\ (cancel_event = false \/ cancel_after w <> Some O)).
Proof.
  assert (Hid : w = with_cancel_after (cancel_after w) w) by now destruct w.
  unfold cancelled, is_set, ret.
  destruct cancel_event.
  - destruct (cancel_after w) as [[|n]|] eqn:E.
    + left. auto.
    + right. eexists; split; [reflexivity|].
      split; [apply rtc_once; now apply prim_poll|].
      split; [reflexivity | right; congruence].
    + right. eexists; split; [reflexivity|].
      split; [apply rtc_refl|]. split; [congruence | right; congruence].
  - right. eexists; split; [reflexivity|].
    split; [apply rtc_refl|]. split; [exact Hid | now left].
Qed.

Lemma poll_loop_frame w w' :
  w' = with_cancel_after (cancel_after w') w -> loop_frame w w'.
Proof. intros ->. repeat split. Qed.

Section LoopFacts.

Variable P : Platform.

(** The body of the inner [try] never raises: it skips the entry, or
    inserts-or-ignores it. *)
Lemma insert_entry_run fid cutoff e a w :
  exists w1,
    clock_only w w1 /\
    insert_entry P fid cutoff e a w
    = if published_at P (clock_reads w) e <? cutoff
      then (Ok a, w1)
      else
        let r := Store.insert_or_ignore_entry fid (stable_guid P e)
                   (strip P (or_empty (pe_title e))) (pe_link e)
                   (published_at P (clock_reads w) e)
                   (entry_content_html e) (clock P (clock_reads w1))
                   (entries w) in
        (Ok (if snd r =? 0 then a else true),
         with_entries (fst r) (with_clock_reads (S (clock_reads w1)) w1)).
Proof.
  destruct (entry_published_ts_run P e w) as (w1 & Hrun & Hco).
  exists w1. split; [exact Hco|].
  unfold insert_entry. rewrite (bind_ok _ _ _ _ _ Hrun).
  destruct (published_at P (clock_reads w) e <? cutoff); [reflexivity|].
  destruct Hco as [E _].
  assert (Hent : entries w1 = entries w) by (rewrite E; reflexivity).
  cbv [bind now_ts read_clock INSERT_OR_IGNORE_entry ret]. cbn.
  rewrite Hent.
  destruct (Store.insert_or_ignore_entry _ _ _ _ _ _ _ _) as [es rc].
  reflexivity.
Qed.

Lemma insert_entry_prims fid cutoff e a w :
  exists a' w',
    insert_entry P fid cutoff e a w = (Ok a', w')
    /\ prims [fid] cutoff w w' /\ loop_frame w w'.
Proof.
  destruct (insert_entry_run fid cutoff e a w) as (w1 & Hco & ->).
  destruct (published_at P (clock_reads w) e <? cutoff) eqn:Hlt.
  - do 2 eexists. split; [reflexivity|].
    split; [now apply clock_only_prims | now apply clock_only_loop_frame].
  - do 2 eexists. split; [reflexivity|]. split.
    + eapply rtc_trans; [apply clock_only_prims; exact Hco|].
      eapply rtc_l; [apply prim_clock|].
      apply rtc_once.
      assert (Hent : entries w
                     = entries (with_clock_reads (S (clock_reads w1)) w1)).
      { destruct Hco as [E _]. rewrite E. reflexivity. }
      rewrite Hent.
      apply (prim_insert [fid] cutoff
               (with_clock_reads (S (clock_reads w1)) w1));
        [apply list_elem_of_here | lia].
    + apply (loop_frame_trans _ w1); [now apply clock_only_loop_frame|].
      repeat split.
Qed.

Lemma insert_entries_prims cancel_event fid cutoff es a w :
  exists a' w',
    insert_entries P cancel_event fid cutoff es a w = (Ok a', w')
    /\ prims [fid] cutoff w w' /\ loop_frame w w'.
Proof.
  revert a w. induction es as [|e es IH]; intros a w.
  - do 2 eexists. split; [reflexivity|].
    split; [apply rtc_refl | apply loop_frame_refl].
  - cbn [insert_entries].
    destruct (cancelled_cases [fid] cutoff cancel_event w)
      as [(Hc & _) | (w0 & Hc & Hp0 & Hf0 & _)];
      rewrite (bind_ok _ _ _ _ _ Hc).
    + do 2 eexists. split; [reflexivity|].
      split; [apply rtc_refl | apply loop_frame_refl].
    + destruct (insert_entry_prims fid cutoff e a w0)
        as (a1 & w1 & Hrun & Hp1 & Hf1).
      rewrite (bind_ok _ _ _ _ _ (try_except_ok _ _ _ _ _ Hrun)).
      destruct (IH a1 w1) as (a' & w' & Hrest & Hp2 & Hf2).
      exists a', w'. split; [exact Hrest|]. split.
      * eapply rtc_trans; [exact Hp0|].
        eapply rtc_trans; [exact Hp1 | exact Hp2].
      * apply (loop_frame_trans _ w0); [now apply poll_loop_frame|].
        apply (loop_frame_trans _ w1); assumption.
Qed.

End LoopFacts.

(** ** One reconciliation *)

Section ReconcileFacts.

Variable P : Platform.

Lemma reconcile_not_modified_run fid w :
  reconcile_not_modified P fid w
  = (Ok tt,
     with_feeds
       (Store.update_feed
          (set_not_modified
             (clock P (clock_reads w))
             (clock P (S (clock_reads w))
              + choose_interval P
                  (match Store.feed_by_id fid (feeds w) with
                   | Some r => int_or_0 (f_month_count r)
                   | None => 0
                   end)))
          fid (feeds w))
       (with_clock_reads (S (S (clock_reads w))) w)).
Proof. reflexivity. Qed.

Lemma reconcile_error_run fid w row :
  Store.feed_by_id fid (feeds w) = Some row ->
  reconcile_error P fid w
  = (Ok tt,
     with_feeds
       (Store.update_feed
          (set_failed
             (clock P (clock_reads w))
             (int_or_0 (f_fail_count row) + 1)
             (clock P (S (clock_reads w))
              + backoff (int_or_0 (f_fail_count row) + 1)))
          fid (feeds w))
       (with_clock_reads (S (S (clock_reads w)))
          (with_counters (checked w) (updated w) (errors w + 1) w))).
Proof.
  intros Hrow. unfold reconcile_error.
  cbv [bind incr_errors modify SELECT_feed gets].
  cbn [feeds with_counters]. rewrite Hrow. reflexivity.
Qed.

Lemma reconcile_error_missing fid w :
  Store.feed_by_id fid (feeds w) = None ->
  reconcile_error P fid w
  = (Raise TypeError,
     with_counters (checked w) (updated w) (errors w + 1) w).
Proof.
  intros Hrow. unfold reconcile_error.
  cbv [bind incr_errors modify SELECT_feed gets].
  cbn [feeds with_counters]. rewrite Hrow. reflexivity.
Qed.

Lemma prims_fetched cutoff fid payload etag last_mod w :
  prims [fid] cutoff w (fetched P fid payload etag last_mod w).
Proof.
  eapply rtc_l; [apply prim_clock|]. eapply rtc_l; [apply prim_clock|].
  apply rtc_once.
  eapply (prim_update_eq _ _ _ _ fid (set_fetched _ _ _ _ _));
    [apply list_elem_of_here | reflexivity | reflexivity].
Qed.

Lemma prims_bumped ids cutoff added w :
  prims ids cutoff w (bumped added w).
Proof.
  unfold bumped. destruct added;
    [apply rtc_once, prim_counters | apply rtc_refl].
Qed.

Lemma prims_rescheduled cutoff fid w :
  prims [fid] cutoff w (rescheduled P cutoff fid w).
Proof.
  eapply rtc_l;
    [eapply (prim_update_eq _ _ _ _ fid (set_month_count _));
     [apply list_elem_of_here | reflexivity | reflexivity]|].
  eapply rtc_l; [eapply prim_clock_eq; reflexivity|].
  apply rtc_once.
  eapply (prim_update_eq _ _ _ _ fid (set_next_fetch _));
    [apply list_elem_of_here | reflexivity | reflexivity].
Qed.

(** The ok branch never raises: the row is stamped, the entries are
    looped over, the feed is rescheduled. *)
Lemma reconcile_ok_run cancel_event cutoff fid payload etag last_mod w :
  exists added w1,
    insert_entries P cancel_event fid cutoff
      (p_entries (feedparser_parse P payload)) false
      (fetched P fid payload etag last_mod w) = (Ok added, w1)
    /\ prims [fid] cutoff (fetched P fid payload etag last_mod w) w1
    /\ loop_frame (fetched P fid payload etag last_mod w) w1
    /\ reconcile_ok P cancel_event cutoff fid payload etag last_mod w
       = (Ok tt, rescheduled P cutoff fid (bumped added w1)).
Proof.
  destruct (insert_entries_prims P cancel_event fid cutoff
              (p_entries (feedparser_parse P payload)) false
              (fetched P fid payload etag last_mod w))
    as (added & w1 & Hloop & Hp & Hf).
  exists added, w1. split; [exact Hloop|]. split; [exact Hp|].
  split; [exact Hf|].
  unfold reconcile_ok. fold (learned_title P payload).
  erewrite bind_ok by reflexivity. cbv beta.
  erewrite bind_ok by reflexivity. cbv beta.
  erewrite bind_ok by reflexivity. cbv beta.
  match goal with
  | |- ?m ?w0 = _ => change w0 with (fetched P fid payload etag last_mod w)
  end.
  rewrite (bind_ok _ _ _ _ _ Hloop).
  destruct added; reflexivity.
Qed.

Lemma reconcile_of_kind_ok cancel_event progress_cb cutoff total r w w1 :
  reconcile_kind P cancel_event cutoff r (counted w) = (Ok tt, w1) ->
  reconcile P cancel_event progress_cb cutoff total r w
  = (Ok tt, reported progress_cb total (cur_url_of r w) w1).
Proof.
  intros Hk. unfold reconcile.
  erewrite bind_ok by reflexivity. cbv beta.
  erewrite bind_ok by reflexivity. cbv beta.
  erewrite bind_ok by (apply try_except_ok; exact Hk). cbv beta.
  erewrite bind_ok by reflexivity. cbv beta.
  unfold report, reported. destruct progress_cb; reflexivity.
Qed.

Lemma reconcile_of_kind_raise cancel_event progress_cb cutoff total r w
    e w1 :
  reconcile_kind P cancel_event cutoff r (counted w) = (Raise e, w1) ->
  reconcile P cancel_event progress_cb cutoff total r w
  = (Ok tt,
     reported progress_cb total (cur_url_of r w)
       (with_counters (checked w1) (updated w1) (errors w1 + 1) w1)).
Proof.
  intros Hk. unfold reconcile.
  erewrite bind_ok by reflexivity. cbv beta.
  erewrite bind_ok by reflexivity. cbv beta.
  erewrite bind_ok by (erewrite try_except_raise by exact Hk; reflexivity).
  cbv beta.
  erewrite bind_ok by reflexivity. cbv beta.
  unfold report, reported. destruct progress_cb; reflexivity.
Qed.

Lemma feeds_reported progress_cb total url w :
  feeds (reported progress_cb total url w) = feeds w.
Proof. unfold reported. now destruct progress_cb. Qed.

Lemma entries_reported progress_cb total url w :
  entries (reported progress_cb total url w) = entries w.
Proof. unfold reported. now destruct progress_cb. Qed.

(** The row of the feed after an ok result: the three UPDATEs of the
    branch, applied in turn to the row it had. *)
Lemma reconcile_ok_row cancel_event progress_cb cutoff total fid payload
    etag last_mod w :
  exists w' added w1 last_fetch last_ok next_fetch,
    insert_entries P cancel_event fid cutoff
      (p_entries (feedparser_parse P payload)) false
      (fetched P fid payload etag last_mod (counted w)) = (Ok added, w1)
    /\ reconcile P cancel_event progress_cb cutoff total
                 (ok fid payload etag last_mod) w = (Ok tt, w')
    /\ entries w' = entries w1
    /\ (clock_reads w1 <= clock_reads w')%nat
    /\ Store.feed_by_id fid (feeds w')
       = option_map
           (fun r =>
              set_next_fetch next_fetch
                (set_month_count
                   (Store.count_recent fid cutoff (entries w1))
                   (set_fetched (learned_title P payload) etag last_mod
                                last_fetch last_ok r)))
           (Store.feed_by_id fid (feeds w)).
Proof.
  destruct (reconcile_ok_run cancel_event cutoff fid payload etag last_mod
              (counted w))
    as (added & w1 & Hloop & _ & (Hfeeds & _) & Hok).
  assert (Hb : feeds (bumped added w1) = feeds w1
               /\ entries (bumped added w1) = entries w1
               /\ clock_reads (bumped added w1) = clock_reads w1)
    by (unfold bumped; destruct added; repeat split).
  destruct Hb as (Hbf & Hbe & Hbc).
  set (recounted :=
         Store.update_feed
           (set_month_count (Store.count_recent fid cutoff (entries w1)))
           fid (feeds w1)).
  set (nf := clock P (clock_reads w1)
             + choose_interval P
                 (match Store.feed_by_id fid recounted with
                  | Some r => int_or_0 (f_month_count r)
                  | None => 0
                  end)).
  assert (Hres : feeds (rescheduled P cutoff fid (bumped added w1))
                 = Store.update_feed (set_next_fetch nf) fid recounted).
  { unfold rescheduled. cbn [feeds with_feeds].
    now rewrite Hbf, Hbe, Hbc. }
  eexists. exists added, w1.
  exists (clock P (clock_reads w)), (clock P (S (clock_reads w))), nf.
  split; [exact Hloop|].
  rewrite (reconcile_of_kind_ok cancel_event progress_cb cutoff total
             (ok fid payload etag last_mod) w _ Hok).
  split; [reflexivity|].
  rewrite entries_reported, feeds_reported.
  split; [|split].
  - unfold rescheduled. cbn [entries with_feeds with_clock_reads].
    exact Hbe.
  - unfold reported, rescheduled. destruct progress_cb; cbn; lia.
  - rewrite Hres. clearbody nf. unfold recounted. rewrite Hfeeds.
    rewrite !feed_by_id_update_same by reflexivity.
    cbn [feeds fetched with_feeds].
    rewrite feed_by_id_update_same by reflexivity.
    cbn [feeds with_clock_reads counted with_counters clock_reads].
    destruct (Store.feed_by_id fid (feeds w)); reflexivity.
Qed.

Lemma prims_counted ids cutoff w : prims ids cutoff w (counted w).
Proof. apply rtc_once, prim_counters. Qed.

Lemma prims_reported ids cutoff progress_cb total url w :
  prims ids cutoff w (reported progress_cb total url w).
Proof.
  unfold reported. destruct progress_cb;
    [apply rtc_once, prim_progress | apply rtc_refl].
Qed.

Lemma prims_errors ids cutoff w :
  prims ids cutoff w
        (with_counters (checked w) (updated w) (errors w + 1) w).
Proof. apply rtc_once, prim_counters. Qed.

(** The error branch completes, or raises [TypeError] when the feed has no
    row. *)
Lemma reconcile_error_prims cutoff fid w :
  exists res w',
    reconcile_error P fid w = (res, w')
    /\ prims [fid] cutoff w w'
    /\ checked w' = checked w /\ sql_log w' = sql_log w.
Proof.
  destruct (Store.feed_by_id fid (feeds w)) as [row|] eqn:Hrow.
  - rewrite (reconcile_error_run fid w row Hrow). do 2 eexists.
    split; [reflexivity|]. split; [|split; reflexivity].
    eapply rtc_trans; [apply prims_errors|].
    eapply rtc_l; [eapply prim_clock_eq; reflexivity|].
    eapply rtc_l; [eapply prim_clock_eq; reflexivity|].
    apply rtc_once.
    eapply (prim_update_eq _ _ _ _ fid (set_failed _ _ _));
      [apply list_elem_of_here | reflexivity | reflexivity].
  - rewrite (reconcile_error_missing fid w Hrow). do 2 eexists.
    split; [reflexivity|]. split; [|split; reflexivity].
    apply prims_errors.
Qed.

(** The branch on [kind] either completes or raises [TypeError]; the
    latter only for an error result whose feed has no row. *)
Lemma reconcile_kind_run cancel_event cutoff r w :
  exists res w',
    reconcile_kind P cancel_event cutoff r w = (res, w')
    /\ prims [result_feed_id r] cutoff w w'
    /\ checked w' = checked w /\ sql_log w' = sql_log w.
Proof.
  destruct r as [fid | fid status | fid payload etag last_mod | fid msg];
    cbn [reconcile_kind result_feed_id].
  - rewrite reconcile_not_modified_run. do 2 eexists.
    split; [reflexivity|]. split; [|split; reflexivity].
    eapply rtc_l; [eapply prim_clock_eq; reflexivity|].
    eapply rtc_l; [eapply prim_clock_eq; reflexivity|].
    apply rtc_once.
    eapply (prim_update_eq _ _ _ _ fid (set_not_modified _ _));
      [apply list_elem_of_here | reflexivity | reflexivity].
  - apply reconcile_error_prims.
  - destruct (reconcile_ok_run cancel_event cutoff fid payload etag
                last_mod w)
      as (added & w1 & _ & Hp & (_ & Hch & _ & _ & Hsql & _) & ->).
    do 2 eexists. split; [reflexivity|]. split; [|split].
    + eapply rtc_trans; [apply prims_fetched|].
      eapply rtc_trans; [exact Hp|].
      eapply rtc_trans; [apply prims_bumped | apply prims_rescheduled].
    + unfold bumped. destruct added; exact Hch.
    + unfold bumped. destruct added; exact Hsql.
  - apply reconcile_error_prims.
Qed.

(** One iteration always completes: a raised exception is caught and
    counted. *)
Lemma reconcile_run cancel_event progress_cb cutoff total r w :
  exists w',
    reconcile P cancel_event progress_cb cutoff total r w = (Ok tt, w')
    /\ prims [result_feed_id r] cutoff w w'
    /\ checked w' = checked w + 1 /\ sql_log w' = sql_log w.
Proof.
  destruct (reconcile_kind_run cancel_event cutoff r (counted w))
    as (res & w1 & Hk & Hp & Hch & Hsql).
  destruct res as [[]|e].
  - rewrite (reconcile_of_kind_ok _ progress_cb _ total _ _ _ Hk).
    eexists. split; [reflexivity|]. split; [|split].
    + eapply rtc_trans; [apply prims_counted|].
      eapply rtc_trans; [exact Hp | apply prims_reported].
    + unfold reported. destruct progress_cb; cbn; rewrite Hch; reflexivity.
    + unfold reported. destruct progress_cb; cbn; rewrite Hsql; reflexivity.
  - rewrite (reconcile_of_kind_raise _ progress_cb _ total _ _ _ _ Hk).
    eexists. split; [reflexivity|]. split; [|split].
    + eapply rtc_trans; [apply prims_counted|].
      eapply rtc_trans; [exact Hp|].
      eapply rtc_trans; [apply prims_errors | apply prims_reported].
    + unfold reported. destruct progress_cb; cbn; rewrite Hch; reflexivity.
    + unfold reported. destruct progress_cb; cbn; rewrite Hsql; reflexivity.
Qed.

End ReconcileFacts.

(** ** What the steps preserve *)

Section InsertFacts.

Lemma entry_exists_iff fid guid es :
  Store.entry_exists fid guid es = true
  <-> In (fid, guid) (List.map entry_key es).
Proof.
  unfold Store.entry_exists. rewrite List.existsb_exists, List.in_map_iff.
  split.
  - intros (e & Hin & He). exists e. split; [|exact Hin].
    apply andb_true_iff in He as [H1 H2].
    apply Z.eqb_eq in H1. apply String.eqb_eq in H2.
    unfold entry_key. congruence.
  - intros (e & Hk & Hin). exists e. split; [exact Hin|].
    unfold entry_key in Hk. inversion Hk; subst.
    now rewrite Z.eqb_refl, String.eqb_refl.
Qed.

(** An insert either leaves the table alone or appends one row. *)
Lemma insert_or_ignore_cases fid guid title link pub html created es :
  (Store.entry_exists fid guid es = true
   /\ Store.insert_or_ignore_entry fid guid title link pub html created es
      = (es, 0))
  \/ (Store.entry_exists fid guid es = false
      /\ Store.insert_or_ignore_entry fid guid title link pub html
                                      created es
         = (es ++ [mkEntry (Store.next_rowid es) fid guid (Some title)
                           link (Some pub) (Some html) None (Some 0)
                           created], 1)).
Proof.
  unfold Store.insert_or_ignore_entry.
  destruct (Store.entry_exists fid guid es); [left | right]; auto.
Qed.

Lemma insert_keeps_unique fid guid title link pub html created es :
  unique_keys es ->
  unique_keys
    (fst (Store.insert_or_ignore_entry fid guid title link pub html
                                       created es)).
Proof.
  intros Hu.
  destruct (insert_or_ignore_cases fid guid title link pub html created es)
    as [[_ ->] | [Hex ->]]; [exact Hu|].
  cbn [fst]. unfold unique_keys. rewrite List.map_app.
  apply List.NoDup_app; [exact Hu | |].
  - cbn. constructor; [intros [] | constructor].
  - intros k Hk [<- | []].
    apply (proj2 (entry_exists_iff fid guid es)) in Hk. congruence.
Qed.

Lemma insert_exists_mono fid guid title link pub html created es f g :
  Store.entry_exists f g es = true ->
  Store.entry_exists f g
    (fst (Store.insert_or_ignore_entry fid guid title link pub html
                                       created es)) = true.
Proof.
  intros H.
  destruct (insert_or_ignore_cases fid guid title link pub html created es)
    as [[_ ->] | [_ ->]]; [exact H|].
  cbn [fst]. unfold Store.entry_exists in *.
  rewrite List.existsb_app, H. reflexivity.
Qed.


End InsertFacts.

Section PrimFacts.

Variables (ids : list Z) (cutoff : Z).

Lemma prims_sql_log w w' : prims ids cutoff w w' -> sql_log w' = sql_log w.
Proof.
  induction 1 as [|x y z Hxy _ IH]; [reflexivity|].
  rewrite IH. destruct Hxy; reflexivity.
Qed.

Lemma prims_clock_reads w w' :
  prims ids cutoff w w' -> (clock_reads w <= clock_reads w')%nat.
Proof.
  induction 1 as [|x y z Hxy _ IH]; [lia|].
  etransitivity; [|exact IH]. destruct Hxy; cbn; lia.
Qed.

(** Once seen set, the cancellation event stays seen set. *)
Lemma prims_cancel_sticky w w' :
  prims ids cutoff w w' ->
  cancel_after w = Some O -> cancel_after w' = Some O.
Proof.
  induction 1 as [|x y z Hxy _ IH]; [auto|].
  intros H0. apply IH. destruct Hxy; cbn; congruence.
Qed.

Lemma prims_cancel_never w w' :
  prims ids cutoff w w' ->
  cancel_after w = None -> cancel_after w' = None.
Proof.
  induction 1 as [|x y z Hxy _ IH]; [auto|].
  intros H0. apply IH. destruct Hxy; cbn; congruence.
Qed.

(** The rows of the feeds outside [ids] are left as they are. *)
Lemma prims_other_feeds w w' j :
  prims ids cutoff w w' -> j ∉ ids ->
  Store.feed_by_id j (feeds w') = Store.feed_by_id j (feeds w).
Proof.
  induction 1 as [|x y z Hxy _ IH]; [reflexivity|].
  intros Hj. rewrite (IH Hj). destruct Hxy; try reflexivity.
  cbn [feeds with_feeds]. apply feed_by_id_update_other; [assumption|].
  intros ->. contradiction.
Qed.

(** No entry is removed; every new one belongs to a feed of [ids], is not
    older than the cutoff, and is not bookmarked. *)
Lemma prims_entries w w' :
  prims ids cutoff w w' ->
  exists new,
    entries w' = entries w ++ new
    /\ List.Forall
         (fun e => e_feed_id e ∈ ids
                   /\ Store.published_ge cutoff e = true
                   /\ e_bookmarked e = Some 0) new.
Proof.
  induction 1 as [w|x y z Hxy _ IH].
  - exists []. split; [now rewrite List.app_nil_r | constructor].
  - destruct IH as (new & Hnew & Hall).
    assert (Hstep : exists new0, entries y = entries x ++ new0
      /\ List.Forall
           (fun e => e_feed_id e ∈ ids
                     /\ Store.published_ge cutoff e = true
                     /\ e_bookmarked e = Some 0) new0).
    { destruct Hxy as [w n _|w|w fid guid title link pub html created Hin Hpub
                       |w fid set _ _|w c u e|w p];
        try (exists []; split; [now rewrite List.app_nil_r | constructor]).
      cbn [entries with_entries].
      destruct (insert_or_ignore_cases fid guid title link pub html created
                  (entries w)) as [[_ ->] | [_ ->]]; cbn [fst].
      - exists []. split; [now rewrite List.app_nil_r | constructor].
      - eexists. split; [reflexivity|].
        constructor; [|constructor]. cbn. unfold Store.published_ge. cbn.
        repeat split; [assumption | lia]. }
    destruct Hstep as (new0 & Hnew0 & Hall0).
    exists (new0 ++ new). split.
    + rewrite Hnew, Hnew0. now rewrite List.app_assoc.
    + apply List.Forall_app. auto.
Qed.

Lemma prims_unique_keys w w' :
  prims ids cutoff w w' ->
  unique_keys (entries w) -> unique_keys (entries w').
Proof.
  induction 1 as [|x y z Hxy _ IH]; [auto|].
  intros Hu. apply IH. destruct Hxy; try exact Hu.
  cbn [entries with_entries]. now apply insert_keeps_unique.
Qed.

End PrimFacts.

(** ** The reconciler: scheduling fields *)

Section SchedulingFacts.

Variable P : Platform.

Lemma reconcile_failure_run cancel_event progress_cb cutoff total r w row :
  is_failure r = true ->
  Store.feed_by_id (result_feed_id r) (feeds w) = Some row ->
  reconcile P cancel_event progress_cb cutoff total r w
  = (Ok tt,
     reported progress_cb total (cur_url_of r w)
       (with_feeds
          (Store.update_feed
             (set_failed
                (clock P (clock_reads w))
                (int_or_0 (f_fail_count row) + 1)
                (clock P (S (clock_reads w))
                 + backoff (int_or_0 (f_fail_count row) + 1)))
             (result_feed_id r) (feeds w))
          (with_clock_reads (S (S (clock_reads w)))
             (with_counters (checked w + 1) (updated w) (errors w + 1)
                            w)))).
Proof.
  intros Hr Hrow.
  apply reconcile_of_kind_ok.
  destruct r; try discriminate Hr; cbn [reconcile_kind result_feed_id] in *;
    now rewrite (reconcile_error_run P _ (counted w) row Hrow).
Qed.

End SchedulingFacts.

(** C1 (as amended). A feed that receives an http-error or
    transport-exception result with prior failure streak [f] gets
    [next_fetch = now + backoff (f + 1)], [now] being the clock reading
    taken for that column, where
    [backoff n = min (6 h, 60 s * 2 ^ min (n, 8))]; [backoff 1 = 120],
    [backoff 3 = 480], [backoff] is monotonically non-decreasing, and
    [backoff n = 15360] seconds for every [n >= 8]: the doubling stops
    below the 6-hour ceiling, which is never reached. *)
Theorem error_backoff_schedule
    (P : Platform) (cancel_event progress_cb : bool) (cutoff total : Z)
    (r : FetchResult) (w : World) (row : FeedRow) :
  is_failure r = true ->
  Store.feed_by_id (result_feed_id r) (feeds w) = Some row ->
  0 <= int_or_0 (f_fail_count row) ->
  (exists w',
     reconcile P cancel_event progress_cb cutoff total r w = (Ok tt, w')
     /\ option_map f_next_fetch
          (Store.feed_by_id (result_feed_id r) (feeds w'))
        = Some (Some (clock P (S (clock_reads w))
                      + backoff (int_or_0 (f_fail_count row) + 1))))
  /\ (forall n, backoff n = Z.min (6 * 3600) (60 * 2 ^ Z.min n 8))
  /\ backoff 1 = 120
  /\ backoff 3 = 480
  /\ (forall n m, n <= m -> backoff n <= backoff m)
  /\ (forall n, 8 <= n -> backoff n = 15360)
  /\ (forall n, backoff n < 6 * 3600).
Proof.
  intros Hr Hrow _. split; [|split; [|split; [|split; [|split; [|split]]]]].
  - rewrite (reconcile_failure_run P _ _ _ _ _ _ _ Hr Hrow).
    eexists. split; [reflexivity|].
    rewrite feeds_reported. cbn [feeds with_feeds].
    rewrite feed_by_id_update_same by reflexivity.
    rewrite Hrow. reflexivity.
  - apply backoff_unfold.
  - reflexivity.
  - reflexivity.
  - apply backoff_mono.
  - apply backoff_flat.
  - intros n. destruct (Z.le_gt_cases 8 n) as [H|H].
    + rewrite (backoff_flat n H). lia.
    + pose proof (backoff_mono n 8 ltac:(lia)) as Hm.
      rewrite (backoff_flat 8) in Hm by lia. lia.
Qed.

Lemma error_backoff_schedule_witness :
  exists w',
    reconcile demo true true 0 2 (http_error 1 500) (demo_world None)
    = (Ok tt, w')
    /\ option_map f_next_fetch (Store.feed_by_id 1 (feeds w'))
       = Some (Some (1700000001 + 480)).
Proof.
  exact (proj1 (error_backoff_schedule demo true true 0 2 (http_error 1 500)
                  (demo_world None) demo_feed1 eq_refl eq_refl
                  ltac:(discriminate))).
Defined.

(** C1 as stated fails: the claimed plateau of 21600 s is not reached at
    [n = 8] (nor anywhere else). *)
Lemma backoff_plateau_counterexample :
  backoff 8 = 15360 /\ ~ (forall n, 8 <= n -> backoff n = 21600).
Proof.
  split; [reflexivity|].
  intros H. specialize (H 8 ltac:(lia)). discriminate H.
Qed.

(** C6. After the reconciler processes an ok or not-modified result the
    feed's [fail_count] is 0; after an http-error or transport-exception
    result it is the value the row held before plus 1, and 1 when the row
    held NULL; the rows of all other feeds are left as they were. *)
Theorem fail_count_after_reconcile
    (P : Platform) (cancel_event progress_cb : bool) (cutoff total : Z)
    (r : FetchResult) (w : World) (row : FeedRow) :
  Store.feed_by_id (result_feed_id r) (feeds w) = Some row ->
  exists w',
    reconcile P cancel_event progress_cb cutoff total r w = (Ok tt, w')
    /\ option_map f_fail_count
         (Store.feed_by_id (result_feed_id r) (feeds w'))
       = Some (Some (match r with
                     | ok _ _ _ _ | not_modified _ => 0
                     | http_error _ _ | exception _ _ =>
                         match f_fail_count row with
                         | Some prior => prior + 1
                         | None => 1
                         end
                     end))
    /\ (forall j, j <> result_feed_id r ->
          Store.feed_by_id j (feeds w') = Store.feed_by_id j (feeds w)).
Proof.
  intros Hrow.
  destruct (reconcile_run P cancel_event progress_cb cutoff total r w)
    as (w' & Hrun & Hp & _).
  exists w'. split; [exact Hrun|]. split.
  - destruct (is_failure r) eqn:Hr.
    + rewrite (reconcile_failure_run P _ _ _ _ _ _ _ Hr Hrow) in Hrun.
      injection Hrun as <-.
      rewrite feeds_reported. cbn [feeds with_feeds].
      rewrite feed_by_id_update_same by reflexivity.
      rewrite Hrow. cbn [option_map set_failed f_fail_count].
      destruct r; try discriminate Hr;
        now destruct (f_fail_count row).
    + destruct r as [fid | | fid payload etag last_mod | ];
        try discriminate Hr; cbn [result_feed_id] in *.
      * rewrite (reconcile_of_kind_ok P cancel_event progress_cb cutoff
                   total (not_modified fid) w _
                   (reconcile_not_modified_run P fid (counted w))) in Hrun.
        injection Hrun as <-.
        rewrite feeds_reported. cbn [feeds with_feeds counted with_counters].
        rewrite feed_by_id_update_same by reflexivity.
        rewrite Hrow. reflexivity.
      * destruct (reconcile_ok_row P cancel_event progress_cb cutoff total
                    fid payload etag last_mod w)
          as (w2 & added & w1 & lf & lo & nf & _ & Hok & _ & _ & Hnew).
        rewrite Hok in Hrun. injection Hrun as <-.
        rewrite Hnew, Hrow. reflexivity.
  - intros j Hj. apply (prims_other_feeds _ _ _ _ _ Hp).
    now rewrite list_elem_of_singleton.
Qed.

Lemma fail_count_after_reconcile_witness :
  (exists w',
     reconcile demo true true 0 2 (http_error 1 500) (demo_world None)
     = (Ok tt, w')
     /\ option_map f_fail_count (Store.feed_by_id 1 (feeds w'))
        = Some (Some 3)
     /\ (forall j, j <> 1 ->
           Store.feed_by_id j (feeds w')
           = Store.feed_by_id j (feeds (demo_world None))))
  /\ (exists w',
        reconcile demo true true 0 2 (ok 1 "<rss/>" None None)
                  (demo_world None) = (Ok tt, w')
        /\ option_map f_fail_count (Store.feed_by_id 1 (feeds w'))
           = Some (Some 0)
        /\ (forall j, j <> 1 ->
              Store.feed_by_id j (feeds w')
              = Store.feed_by_id j (feeds (demo_world None)))).
Proof.
  split.
  - exact (fail_count_after_reconcile demo true true 0 2 (http_error 1 500)
             (demo_world None) demo_feed1 eq_refl).
  - exact (fail_count_after_reconcile demo true true 0 2
             (ok 1 "<rss/>" None None) (demo_world None) demo_feed1
             eq_refl).
Defined.

(** ** The reconciler: the feed title *)

(** The title the ok branch leaves in the row: the learned one whenever
    the body has one, whatever the row held. *)
Lemma reconcile_ok_title
    (P : Platform) (cancel_event progress_cb : bool) (cutoff total : Z)
    (fid : Z) (payload : string) (etag last_mod : option string)
    (w : World) (row : FeedRow) :
  Store.feed_by_id fid (feeds w) = Some row ->
  exists w',
    reconcile P cancel_event progress_cb cutoff total
              (ok fid payload etag last_mod) w = (Ok tt, w')
    /\ option_map f_title (Store.feed_by_id fid (feeds w'))
       = Some (COALESCE (learned_title P payload) (f_title row)).
Proof.
  intros Hrow.
  destruct (reconcile_ok_row P cancel_event progress_cb cutoff total
              fid payload etag last_mod w)
    as (w' & added & w1 & lf & lo & nf & _ & Hok & _ & _ & Hnew).
  exists w'. split; [exact Hok|].
  rewrite Hnew, Hrow. reflexivity.
Qed.

(** The sibling path keeps a title the row already has. *)
Lemma feed_create_keeps_title title existing fs :
  Py.truthy (f_title existing) = true ->
  Api.learn_title title existing fs = fs.
Proof.
  intros H. unfold Api.learn_title. rewrite H.
  now rewrite andb_false_r.
Qed.

(** C5 fails on the code. Feed 1 carries the title "My title"; reconciling
    an ok result whose body is titled "Feed title" overwrites it, because
    the UPDATE evaluates [COALESCE(?, title)] with the learned title
    first. *)
Theorem learned_title_overwrites_stored_title :
  option_map f_title (Store.feed_by_id 1 (feeds (demo_world None)))
  = Some (Some "My title")
  /\ exists w',
       reconcile demo true true 0 2 (ok 1 "<rss/>" None None)
                 (demo_world None) = (Ok tt, w')
       /\ option_map f_title (Store.feed_by_id 1 (feeds w'))
          = Some (Some "Feed title").
Proof.
  split; [reflexivity|].
  destruct (reconcile_ok_title demo true true 0 2 1 "<rss/>" None None
              (demo_world None) demo_feed1 eq_refl) as (w' & Hrun & Ht).
  exists w'. split; [exact Hrun | exact Ht].
Qed.

(** ** The reconciler: date safety *)

(** C9. The timestamp conversion never raises: for every input it returns
    the value of the fallback ladder [toTimestamp] and only reads the
    clock. A year outside [1971, currentYear + 5] gives the current time;
    otherwise the UTC conversion is used, the local-time conversion only
    when the UTC one fails, and the current time when both fail. *)
Theorem safe_struct_time_to_ts_total
    (P : Platform) (st : time_like) (w : World) :
  exists w',
    safe_struct_time_to_ts P st w
    = (Ok (toTimestamp P (clock_reads w) st), w')
    /\ clock_only w w'.
Proof. apply safe_struct_time_to_ts_run. Qed.

(** The scenario of the year 9999: the stored timestamp is the current
    time. *)
Example year_9999_is_now :
  fst (safe_struct_time_to_ts demo
         (StructTime (mkTime 9999 12 31 23 59 59)) (demo_world None))
  = Ok 1700000001.
Proof. reflexivity. Qed.

(** ** The sweep *)

Lemma with_cancel_after_same w :
  with_cancel_after (cancel_after w) w = w.
Proof. now destruct w. Qed.

Lemma prims_polled ids cutoff cancel_event n w :
  prims ids cutoff w
    (with_cancel_after (polled cancel_event (cancel_after w) n) w).
Proof.
  unfold polled.
  destruct cancel_event; [|rewrite with_cancel_after_same; apply rtc_refl].
  destruct (cancel_after w) as [k|] eqn:E;
    [|rewrite <- E, with_cancel_after_same; apply rtc_refl].
  revert w k E. induction n as [|n IH]; intros w k E.
  - rewrite Nat.sub_0_r, <- E, with_cancel_after_same. apply rtc_refl.
  - destruct k as [|k].
    + cbn [Nat.sub]. rewrite <- E, with_cancel_after_same. apply rtc_refl.
    + eapply rtc_l; [apply (prim_poll _ _ w k E)|].
      exact (IH (with_cancel_after (Some k) w) k eq_refl).
Qed.

Section SweepFacts.

Variable P : Platform.

Lemma dispatch_run cancel_event fs w :
  dispatch cancel_event fs w
  = (Ok (dispatched cancel_event (cancel_after w) fs),
     with_cancel_after
       (polled cancel_event (cancel_after w) (List.length fs)) w).
Proof.
  revert w. induction fs as [|f fs IH]; intros w.
  - unfold dispatch, dispatched, polled, ret.
    destruct cancel_event, (cancel_after w) as [k|] eqn:E;
      rewrite ?firstn_nil, ?Nat.sub_0_r, <- ?E, ?with_cancel_after_same.
    all: reflexivity.
  - cbn [dispatch]. unfold dispatched, polled, cancelled, is_set.
    destruct cancel_event; cbv [bind ret].
    + destruct (cancel_after w) as [[|k]|] eqn:E.
      * cbn [firstn Nat.sub List.length].
        now rewrite <- E, with_cancel_after_same.
      * rewrite IH. cbn. reflexivity.
      * rewrite IH. cbn. rewrite E. reflexivity.
    + rewrite IH. reflexivity.
Qed.

(** Once the event is seen set, the loop over the completed tasks
    reconciles nothing more. *)
Lemma consume_cancelled progress_cb cutoff total rs w :
  cancel_after w = Some O ->
  consume P true progress_cb cutoff total rs w = (Ok tt, w).
Proof.
  intros H. destruct rs as [|r rs]; [reflexivity|].
  cbn [consume]. unfold cancelled, is_set, bind. rewrite H. reflexivity.
Qed.

(** The loop over the completed tasks reconciles a prefix of them, and
    stops short only when it sees the event set. *)
Lemma consume_run cancel_event progress_cb cutoff total rs w :
  exists j w',
    consume P cancel_event progress_cb cutoff total rs w = (Ok tt, w')
    /\ (j <= List.length rs)%nat
    /\ prims (List.map result_feed_id (firstn j rs)) cutoff w w'
    /\ checked w' = checked w + Z.of_nat j
    /\ ((j < List.length rs)%nat ->
        cancel_event = true /\ cancel_after w' = Some O).
Proof.
  revert w. induction rs as [|r rs IH]; intros w.
  - exists O, w. cbn. repeat split; try lia. apply rtc_refl.
  - cbn [consume].
    destruct (cancelled_cases [result_feed_id r] cutoff cancel_event w)
      as [(Hc & Hce & Hca) | (w0 & Hc & Hp0 & _ & _)];
      rewrite (bind_ok _ _ _ _ _ Hc).
    + exists O, w. cbn. repeat split; try lia; auto. apply rtc_refl.
    + destruct (reconcile_run P cancel_event progress_cb cutoff total r w0)
        as (w1 & Hrun & Hp1 & Hch1 & _).
      rewrite (bind_ok _ _ _ _ _ Hrun).
      destruct (IH w1) as (j & w' & Hrest & Hj & Hp2 & Hch2 & Hstop).
      exists (S j), w'. split; [exact Hrest|].
      split; [cbn; lia|]. split; [|split].
      * cbn [firstn List.map].
        eapply rtc_trans;
          [eapply prims_weaken; [|exact Hp0]; apply list_subseteq_skip,
             list_subseteq_nil|].
        eapply rtc_trans;
          [eapply prims_weaken; [|exact Hp1]; apply list_subseteq_skip,
             list_subseteq_nil|].
        eapply prims_weaken; [|exact Hp2].
        now apply list_subseteq_cons.
      * rewrite Hch2, Hch1.
        assert (checked w0 = checked w) as ->.
        { clear -Hc. unfold cancelled, is_set, ret in Hc.
          destruct cancel_event; [|now inversion Hc].
          destruct (cancel_after w) as [[|n]|]; inversion Hc; reflexivity. }
        lia.
      * intros Hlt. apply Hstop. cbn in Hlt. lia.
Qed.

Lemma select_feeds_run feed_ids only_due w :
  select_feeds P feed_ids only_due
               (with_clock_reads (S (clock_reads w)) w)
  = (Ok (selected P feed_ids only_due w),
     with_clock_reads
       (match feed_ids with
        | _ :: _ => S (clock_reads w)
        | [] => if only_due then S (S (clock_reads w))
                else S (clock_reads w)
        end) w).
Proof.
  unfold select_feeds, selected.
  destruct feed_ids; [destruct only_due|]; reflexivity.
Qed.

(** A sweep over an empty selection returns right after its first
    progress report. *)
Lemma sweep_empty feed_ids only_due progress_cb cancel_event w :
  selected P feed_ids only_due w = [] ->
  update_feeds_async P feed_ids only_due progress_cb cancel_event w
  = (Ok (mkStats 0 0 0 0), started P feed_ids only_due progress_cb w).
Proof.
  intros Hsel. unfold update_feeds_async.
  erewrite bind_ok by reflexivity. cbv beta.
  erewrite bind_ok by apply select_feeds_run. cbv beta.
  rewrite Hsel.
  erewrite bind_ok by reflexivity. cbv beta.
  unfold started. rewrite Hsel.
  destruct progress_cb; reflexivity.
Qed.

Lemma cancel_after_started feed_ids only_due progress_cb w :
  cancel_after (started P feed_ids only_due progress_cb w)
  = cancel_after w.
Proof. unfold started. destruct progress_cb; reflexivity. Qed.

(** A sweep over a non-empty selection: BEGIN, the two loops, then one
    DELETE and the COMMIT. *)
Lemma sweep_via_consume feed_ids only_due progress_cb cancel_event w w1 :
  selected P feed_ids only_due w <> [] ->
  consume P cancel_event progress_cb (sweep_cutoff P w)
    (Z.of_nat (List.length (selected P feed_ids only_due w)))
    (completed P feed_ids only_due cancel_event w)
    (began P feed_ids only_due progress_cb cancel_event w) = (Ok tt, w1) ->
  update_feeds_async P feed_ids only_due progress_cb cancel_event w
  = (Ok (mkStats (checked w1) (updated w1) (errors w1)
                 (Z.of_nat (List.length
                              (selected P feed_ids only_due w)))),
     committed (sweep_cutoff P w) w1).
Proof.
  intros Hsel Hcons.
  set (fs := selected P feed_ids only_due w) in *.
  set (cutoff := sweep_cutoff P w) in *.
  set (w0 := started P feed_ids only_due progress_cb w).
  unfold update_feeds_async.
  erewrite bind_ok by reflexivity. cbv beta.
  erewrite bind_ok by apply select_feeds_run. cbv beta.
  fold fs. fold cutoff.
  erewrite bind_ok by reflexivity. cbv beta.
  assert (Hrep :
    report progress_cb
      (mkProgress (Z.of_nat (List.length fs)) 0 0 0 "running" None)
      (with_counters 0 0 0
         (with_clock_reads
            (match feed_ids with
             | _ :: _ => S (clock_reads w)
             | [] => if only_due then S (S (clock_reads w))
                     else S (clock_reads w)
             end) w))
    = (Ok tt, w0)).
  { unfold w0, started, report. fold fs.
    destruct progress_cb; reflexivity. }
  rewrite (bind_ok _ _ _ _ _ Hrep).
  assert (Hz : (Z.of_nat (List.length fs) =? 0) = false).
  { apply Z.eqb_neq. intros H0.
    apply Hsel, List.length_zero_iff_nil. lia. }
  rewrite Hz.
  erewrite bind_ok by reflexivity. cbv beta.
  erewrite bind_ok by reflexivity. cbv beta.
  assert (Hbody :
    (let* tasks := dispatch cancel_event fs in
     (consume P cancel_event progress_cb cutoff
              (Z.of_nat (List.length fs))
              (as_completed P (List.map (fetch_one P) tasks));;
      modify (fun w =>
                with_entries (Store.delete_old cutoff (entries w)) w);;
      log_sql (DELETE_old cutoff);;
      log_sql COMMIT))
      (with_sql_log (sql_log w0 ++ [BEGIN]) w0)
    = (Ok tt, committed cutoff w1)).
  { erewrite bind_ok by apply dispatch_run. cbv beta.
    cbn [cancel_after with_sql_log].
    unfold w0 at 1 2. rewrite cancel_after_started. fold w0.
    unfold completed, began in Hcons. fold fs w0 in Hcons.
    rewrite (bind_ok _ _ _ _ _ Hcons).
    cbv [bind modify log_sql]. unfold committed. cbn.
    rewrite <- List.app_assoc. reflexivity. }
  rewrite (bind_ok _ _ _ _ _ (try_except_ok _ _ _ _ _ Hbody)).
  reflexivity.
Qed.

Lemma began_frame feed_ids only_due progress_cb cancel_event w :
  let wb := began P feed_ids only_due progress_cb cancel_event w in
  feeds wb = feeds w /\ entries wb = entries w
  /\ sql_log wb = sql_log w ++ [BEGIN] /\ checked wb = 0
  /\ cancel_after wb
     = polled cancel_event (cancel_after w)
              (List.length (selected P feed_ids only_due w)).
Proof.
  unfold began, started. destruct progress_cb; repeat split.
Qed.

Lemma started_frame feed_ids only_due progress_cb w :
  let w0 := started P feed_ids only_due progress_cb w in
  feeds w0 = feeds w /\ entries w0 = entries w
  /\ sql_log w0 = sql_log w.
Proof. unfold started. destruct progress_cb; repeat split. Qed.

Lemma old_unbookmarked_iff cutoff e :
  Store.old_unbookmarked cutoff e = true
  <-> exists p, e_published e = Some p /\ p < cutoff
                /\ e_bookmarked e = Some 0.
Proof.
  unfold Store.old_unbookmarked.
  destruct (e_published e) as [p|], (e_bookmarked e) as [b|]; split;
    try discriminate; try (intros (q & Hq & _); discriminate);
    try (intros (q & _ & _ & Hq); discriminate).
  - intros H. apply andb_true_iff in H as [H1 H2].
    exists p. repeat split; [lia | f_equal; lia].
  - intros (q & Hq & Hlt & Hb). inversion Hq; inversion Hb; subst.
    apply andb_true_iff. split; lia.
Qed.

Lemma delete_old_keeps_unique cutoff es :
  unique_keys es -> unique_keys (Store.delete_old cutoff es).
Proof.
  unfold unique_keys, Store.delete_old.
  induction es as [|e es IH]; [auto|]. cbn [List.map List.filter].
  intros Hu. inversion Hu as [|? ? Hnin Hrest]; subst.
  assert (Hsub : forall k,
            In k (List.map entry_key
                    (List.filter
                       (fun e => negb (Store.old_unbookmarked cutoff e)) es))
            -> In k (List.map entry_key es)).
  { intros k Hk. apply List.in_map_iff in Hk as (x & <- & Hx).
    apply List.filter_In in Hx as [Hx _]. now apply List.in_map. }
  destruct (negb (Store.old_unbookmarked cutoff e)); [|now apply IH].
  cbn [List.map]. constructor; [|now apply IH].
  intros Hk. apply Hnin, Hsub, Hk.
Qed.

Lemma delete_old_In cutoff es e :
  In e (Store.delete_old cutoff es)
  <-> In e es /\ Store.old_unbookmarked cutoff e = false.
Proof.
  unfold Store.delete_old. rewrite List.filter_In.
  now rewrite negb_true_iff.
Qed.

End SweepFacts.

(** C10. A sweep whose selection of feeds is empty returns the counts
    total = 0, checked = 0, updated = 0, errors = 0 and mutates nothing in
    the store: both tables are as they were and no statement of a
    transaction (BEGIN, the retention DELETE, COMMIT) is executed. *)
Theorem empty_sweep_touches_nothing
    (P : Platform) (feed_ids : list Z)
    (only_due progress_cb cancel_event : bool) (w : World) :
  selected P feed_ids only_due w = [] ->
  exists w',
    update_feeds_async P feed_ids only_due progress_cb cancel_event w
    = (Ok (mkStats 0 0 0 0), w')
    /\ feeds w' = feeds w
    /\ entries w' = entries w
    /\ sql_log w' = sql_log w.
Proof.
  intros Hsel. rewrite (sweep_empty P _ _ _ _ _ Hsel).
  eexists. split; [reflexivity|].
  apply started_frame.
Qed.

Lemma empty_sweep_touches_nothing_witness :
  exists w',
    update_feeds_async demo [99] false true true (demo_world None)
    = (Ok (mkStats 0 0 0 0), w')
    /\ feeds w' = feeds (demo_world None)
    /\ entries w' = entries (demo_world None)
    /\ sql_log w' = sql_log (demo_world None).
Proof.
  exact (empty_sweep_touches_nothing demo [99] false true true
           (demo_world None) eq_refl).
Defined.

(** ** Retention *)

Lemma reconcile_only_appends
    (P : Platform) (cancel_event progress_cb : bool) (cutoff total : Z)
    (r : FetchResult) (w : World) :
  exists w' new,
    reconcile P cancel_event progress_cb cutoff total r w = (Ok tt, w')
    /\ entries w' = entries w ++ new
    /\ List.Forall (fun e => Store.published_ge cutoff e = true) new.
Proof.
  destruct (reconcile_run P cancel_event progress_cb cutoff total r w)
    as (w' & Hrun & Hp & _).
  destruct (prims_entries _ _ _ _ Hp) as (new & Hnew & Hall).
  exists w', new. split; [exact Hrun|]. split; [exact Hnew|].
  eapply List.Forall_impl; [|exact Hall]. now intros e (_ & H & _).
Qed.

(** The outcome of a sweep over a non-empty selection, in terms of the
    prefix of the completed tasks that was reconciled. *)
Lemma sweep_nonempty
    (P : Platform) (feed_ids : list Z)
    (only_due progress_cb cancel_event : bool) (w : World) :
  selected P feed_ids only_due w <> [] ->
  exists j w1,
    consume P cancel_event progress_cb (sweep_cutoff P w)
      (Z.of_nat (List.length (selected P feed_ids only_due w)))
      (completed P feed_ids only_due cancel_event w)
      (began P feed_ids only_due progress_cb cancel_event w) = (Ok tt, w1)
    /\ update_feeds_async P feed_ids only_due progress_cb cancel_event w
       = (Ok (mkStats (checked w1) (updated w1) (errors w1)
                      (Z.of_nat (List.length
                                   (selected P feed_ids only_due w)))),
          committed (sweep_cutoff P w) w1)
    /\ (j <= List.length (completed P feed_ids only_due cancel_event w))%nat
    /\ prims (List.map result_feed_id
                (firstn j (completed P feed_ids only_due cancel_event w)))
             (sweep_cutoff P w)
             (began P feed_ids only_due progress_cb cancel_event w) w1
    /\ checked w1 = Z.of_nat j
    /\ ((j < List.length (completed P feed_ids only_due cancel_event w))%nat
        -> cancel_event = true /\ cancel_after w1 = Some O).
Proof.
  intros Hsel.
  destruct (consume_run P cancel_event progress_cb (sweep_cutoff P w)
              (Z.of_nat (List.length (selected P feed_ids only_due w)))
              (completed P feed_ids only_due cancel_event w)
              (began P feed_ids only_due progress_cb cancel_event w))
    as (j & w1 & Hcons & Hj & Hp & Hch & Hstop).
  exists j, w1. split; [exact Hcons|].
  split; [now apply sweep_via_consume|].
  split; [exact Hj|]. split; [exact Hp|]. split; [|exact Hstop].
  rewrite Hch.
  destruct (began_frame P feed_ids only_due progress_cb cancel_event w)
    as (_ & _ & _ & -> & _). lia.
Qed.

(** C8. Retention. The reconciler never inserts an entry whose
    [published] is below the cutoff, and removes none; the DELETE that
    ends a sweep removes exactly the entries that are not bookmarked
    ([bookmarked = 0]) and have [published] below the cutoff, so no
    bookmarked entry; and a sweep over a non-empty selection runs that
    DELETE once, after all its reconciliations and before its COMMIT:
    pruning is a side effect of the sweep, not of the reconciliation of a
    feed. *)
Theorem retention_policy (P : Platform) :
  (forall cancel_event progress_cb cutoff total r w,
     exists w' new,
       reconcile P cancel_event progress_cb cutoff total r w = (Ok tt, w')
       /\ entries w' = entries w ++ new
       /\ List.Forall (fun e => Store.published_ge cutoff e = true) new)
  /\ (forall cutoff es e,
        In e (Store.delete_old cutoff es)
        <-> In e es
            /\ ~ (exists p, e_published e = Some p /\ p < cutoff
                            /\ e_bookmarked e = Some 0))
  /\ (forall feed_ids only_due progress_cb cancel_event w,
        selected P feed_ids only_due w <> [] ->
        exists stats w' new,
          update_feeds_async P feed_ids only_due progress_cb cancel_event w
          = (Ok stats, w')
          /\ sql_log w'
             = sql_log w ++ [BEGIN; DELETE_old (sweep_cutoff P w); COMMIT]
          /\ entries w'
             = Store.delete_old (sweep_cutoff P w) (entries w ++ new)
          /\ List.Forall
               (fun e => Store.published_ge (sweep_cutoff P w) e = true)
               new).
Proof.
  split; [|split].
  - intros. apply reconcile_only_appends.
  - intros cutoff es e. rewrite delete_old_In, <- old_unbookmarked_iff.
    now rewrite not_true_iff_false.
  - intros feed_ids only_due progress_cb cancel_event w Hsel.
    destruct (sweep_nonempty P feed_ids only_due progress_cb cancel_event w
                Hsel) as (j & w1 & _ & Hrun & _ & Hp & _).
    destruct (prims_entries _ _ _ _ Hp) as (new & Hnew & Hall).
    destruct (began_frame P feed_ids only_due progress_cb cancel_event w)
      as (_ & Hent & Hsql & _).
    do 2 eexists. exists new. split; [exact Hrun|].
    unfold committed. cbn [sql_log entries with_sql_log with_entries].
    rewrite (prims_sql_log _ _ _ _ Hp), Hsql, Hnew, Hent.
    split; [now rewrite <- List.app_assoc|]. split; [reflexivity|].
    eapply List.Forall_impl; [|exact Hall]. now intros e (_ & H & _).
Qed.

Lemma retention_policy_witness :
  exists stats w' new,
    update_feeds_async demo [1] false true true (demo_world None)
    = (Ok stats, w')
    /\ sql_log w'
       = sql_log (demo_world None)
         ++ [BEGIN; DELETE_old (sweep_cutoff demo (demo_world None)); COMMIT]
    /\ entries w'
       = Store.delete_old (sweep_cutoff demo (demo_world None))
           (entries (demo_world None) ++ new)
    /\ List.Forall
         (fun e => Store.published_ge (sweep_cutoff demo (demo_world None)) e
                   = true) new.
Proof.
  exact (proj2 (proj2 (retention_policy demo)) [1] false true true
           (demo_world None) ltac:(discriminate)).
Defined.

(** On the concrete store, a sweep of feed 1 keeps the old bookmarked
    entry, drops the old one that is not bookmarked, and adds the two
    entries of the body. *)
Example sweep_prunes_demo :
  List.map e_guid
    (entries (snd (update_feeds_async demo [1] false true true
                     (demo_world None))))
  = ["old-kept"; "a1";
     sha256_hexdigest demo
       ("http://a/2" +:+ newline +:+ "Second" +:+ newline)].
Proof. reflexivity. Qed.

(** ** Cancellation *)

Lemma polled_within k n :
  (k <= n)%nat -> polled true (Some k) n = Some O.
Proof. intros H. unfold polled. f_equal. lia. Qed.

Lemma committed_frame cutoff w :
  feeds (committed cutoff w) = feeds w
  /\ cancel_after (committed cutoff w) = cancel_after w
  /\ forall e, In e (entries (committed cutoff w)) -> In e (entries w).
Proof.
  unfold committed. repeat split.
  intros e He. cbn in He. now apply delete_old_In in He.
Qed.

(** The loop over the completed tasks, result by result: it reconciles a
    prefix of the results, each after a check that answered false, and it
    stops short of the last result only at a check that answers true. *)
Lemma consume_trace (P : Platform) cancel_event progress_cb cutoff total
    rs w :
  exists j w',
    consume P cancel_event progress_cb cutoff total rs w = (Ok tt, w')
    /\ (j <= List.length rs)%nat
    /\ reconciled_all P cancel_event progress_cb cutoff total
                      (firstn j rs) w w'
    /\ checked w' = checked w + Z.of_nat j
    /\ ((j < List.length rs)%nat ->
        cancelled cancel_event w' = (Ok true, w')).
Proof.
  revert w. induction rs as [|r rs IH]; intros w.
  - exists O, w. cbn. repeat split; try lia. constructor.
  - cbn [consume].
    destruct (cancelled_cases [] cutoff cancel_event w)
      as [(Hc & Hce & Hca) | (w0 & Hc & _ & Hw0 & _)];
      rewrite (bind_ok _ _ _ _ _ Hc).
    + exists O, w. cbn. repeat split; try lia; auto. constructor.
    + destruct (reconcile_run P cancel_event progress_cb cutoff total r w0)
        as (w1 & Hrun & _ & Hch1 & _).
      rewrite (bind_ok _ _ _ _ _ Hrun).
      destruct (IH w1) as (j & w' & Hrest & Hj & Htrace & Hch2 & Hstop).
      exists (S j), w'. split; [exact Hrest|].
      split; [cbn; lia|]. split; [|split].
      * cbn [firstn]. econstructor; eassumption.
      * rewrite Hch2, Hch1.
        assert (checked w0 = checked w) as -> by (rewrite Hw0; reflexivity).
        lia.
      * intros Hlt. apply Hstop. cbn in Hlt. lia.
Qed.

(** The loop cannot go past a check that sees the signal: two runs of it
    over prefixes of the same results from the same state, the shorter
    ending at a check that answers true, have the same length. *)
Lemma reconciled_all_stops (P : Platform) cancel_event progress_cb cutoff
    total rs :
  forall (i j : nat) w wi wj,
    reconciled_all P cancel_event progress_cb cutoff total
                   (firstn i rs) w wi ->
    reconciled_all P cancel_event progress_cb cutoff total
                   (firstn j rs) w wj ->
    (i <= j)%nat -> (j <= List.length rs)%nat ->
    cancelled cancel_event wi = (Ok true, wi) ->
    i = j.
Proof.
  induction rs as [|r rs IH]; intros i j w wi wj Hi Hj Hij Hlen Hset.
  - cbn in Hlen. lia.
  - destruct i as [|i].
    + cbn [firstn] in Hi. inversion Hi; subst.
      destruct j as [|j]; [reflexivity|].
      cbn [firstn] in Hj. inversion Hj; subst. congruence.
    + destruct j as [|j]; [lia|].
      cbn [firstn] in Hi, Hj. inversion Hi; subst. inversion Hj; subst.
      match goal with
      | H1 : cancelled cancel_event w = (Ok false, ?a),
        H2 : cancelled cancel_event w = (Ok false, ?b) |- _ =>
          rewrite H1 in H2; injection H2 as <-
      end.
      match goal with
      | H1 : reconcile P _ _ _ _ r ?a = (Ok tt, ?b),
        H2 : reconcile P _ _ _ _ r ?a = (Ok tt, ?c) |- _ =>
          rewrite H1 in H2; injection H2 as <-
      end.
      f_equal. cbn in Hlen. eapply IH; eauto; lia.
Qed.

Lemma dispatched_prefix cancel_event c fs :
  exists n,
    dispatched cancel_event c fs = firstn n fs
    /\ ((List.length (dispatched cancel_event c fs) < List.length fs)%nat ->
        cancel_event = true
        /\ exists k, c = Some k /\ (k < List.length fs)%nat).
Proof.
  unfold dispatched. destruct cancel_event.
  - destruct c as [k|].
    + exists k. split; [reflexivity|]. intros Hlt. split; [reflexivity|].
      exists k. split; [reflexivity|].
      rewrite List.length_firstn in Hlt. lia.
    + exists (List.length fs). split; [now rewrite List.firstn_all|]. lia.
  - exists (List.length fs). split; [now rewrite List.firstn_all|]. lia.
Qed.

(** C3 (as amended). A sweep over a non-empty selection, loop by loop.
    The first loop dispatches the fetches of a prefix of the selected
    feeds: once a check sees the cancellation signal, the feed at hand and
    every feed after it are skipped, and the loop stops short only for
    that reason. The second loop takes the results in completion order and
    reconciles the first [j] of them, each after a check that did not see
    the signal; it stops short of the last result only at a check that
    sees the signal, and the first check that sees the signal ends it -
    whatever the number [i] of results reconciled when a check answers
    true, [j] is [i] - so that nothing more is reconciled: the results of the
    fetches that were dispatched but not yet reconciled are dropped, and
    the feeds outside the reconciled prefix keep their rows and gain no
    entry. When the signal is already seen while the fetches are being
    dispatched, no result at all is reconciled; without a signal every
    feed is dispatched and every result is reconciled. What was reconciled
    is kept: the sweep ends with the tables as the last reconciliation
    left them, pruned by the retention DELETE, and commits; the returned
    counters are those of the reconciled prefix. *)
Theorem cancellation_stops_reconciling
    (P : Platform) (feed_ids : list Z)
    (only_due progress_cb cancel_event : bool) (w : World) :
  selected P feed_ids only_due w <> [] ->
  let fs := selected P feed_ids only_due w in
  let cutoff := sweep_cutoff P w in
  let total := Z.of_nat (List.length fs) in
  exists tasks wb j w1 w',
    let results := as_completed P (List.map (fetch_one P) tasks) in
    dispatch cancel_event fs (opened P feed_ids only_due progress_cb w)
    = (Ok tasks, wb)
    /\ (exists n, tasks = firstn n fs)
    /\ ((List.length tasks < List.length fs)%nat ->
        cancel_event = true /\ cancelled cancel_event wb = (Ok true, wb)
        /\ j = O)
    /\ (cancel_event = true ->
        forall k, cancel_after w = Some k -> (k <= List.length fs)%nat ->
                  tasks = firstn k fs /\ j = O)
    /\ (cancel_event = false \/ cancel_after w = None ->
        tasks = fs /\ j = List.length fs)
    /\ (j <= List.length results)%nat
    /\ reconciled_all P cancel_event progress_cb cutoff total
                      (firstn j results) wb w1
    /\ ((j < List.length results)%nat ->
        cancelled cancel_event w1 = (Ok true, w1))
    /\ (forall i wi,
          (i <= List.length results)%nat ->
          reconciled_all P cancel_event progress_cb cutoff total
                         (firstn i results) wb wi ->
          cancelled cancel_event wi = (Ok true, wi) ->
          j = i)
    /\ update_feeds_async P feed_ids only_due progress_cb cancel_event w
       = (Ok (mkStats (Z.of_nat j) (updated w1) (errors w1) total), w')
    /\ feeds w' = feeds w1
    /\ entries w' = Store.delete_old cutoff (entries w1)
    /\ sql_log w' = sql_log w ++ [BEGIN; DELETE_old cutoff; COMMIT]
    /\ (forall fid,
          ~ In fid (List.map result_feed_id (firstn j results)) ->
          Store.feed_by_id fid (feeds w') = Store.feed_by_id fid (feeds w))
    /\ (forall e,
          In e (entries w') ->
          In e (entries w)
          \/ In (e_feed_id e) (List.map result_feed_id (firstn j results))).
Proof.
  intros Hsel fs cutoff total.
  set (wo := opened P feed_ids only_due progress_cb w).
  set (wb := began P feed_ids only_due progress_cb cancel_event w).
  set (tasks := dispatched cancel_event (cancel_after w) fs).
  set (results := as_completed P (List.map (fetch_one P) tasks)).
  assert (Hca : cancel_after wo = cancel_after w).
  { unfold wo, opened. cbn [cancel_after with_sql_log].
    apply cancel_after_started. }
  assert (Hdisp : dispatch cancel_event fs wo = (Ok tasks, wb)).
  { rewrite dispatch_run, Hca. reflexivity. }
  destruct (consume_trace P cancel_event progress_cb cutoff total results wb)
    as (j & w1 & Hcons & Hj & Htrace & Hch & Hstop).
  destruct (consume_run P cancel_event progress_cb cutoff total results wb)
    as (j' & w1' & Hcons' & _ & Hp & Hch' & _).
  rewrite Hcons in Hcons'. injection Hcons' as <-.
  assert (j' = j) by lia. subst j'.
  pose proof (sweep_via_consume P feed_ids only_due progress_cb
                cancel_event w w1 Hsel Hcons) as Hrun.
  destruct (began_frame P feed_ids only_due progress_cb cancel_event w)
    as (Hfeeds & Hent & Hlog & Hch0 & Hcancel).
  fold wb in Hfeeds, Hent, Hlog, Hch0, Hcancel. fold fs in Hcancel.
  destruct (committed_frame cutoff w1) as (Hcf & Hcc & Hce).
  assert (Hzero : cancel_event = true -> cancel_after wb = Some O ->
                  j = O).
  { intros -> Hset.
    rewrite (consume_cancelled P _ _ _ _ _ Hset) in Hcons.
    injection Hcons as <-. lia. }
  exists tasks, wb, j, w1, (committed cutoff w1). cbv zeta. fold results.
  split; [exact Hdisp|].
  split.
  { destruct (dispatched_prefix cancel_event (cancel_after w) fs)
      as (n & Hn & _). now exists n. }
  split.
  { intros Hlt.
    destruct (dispatched_prefix cancel_event (cancel_after w) fs)
      as (_ & _ & Hshort).
    destruct (Hshort Hlt) as (-> & k & Hk & Hklt).
    assert (Hset : cancel_after wb = Some O).
    { rewrite Hcancel, Hk. apply polled_within. lia. }
    split; [reflexivity|]. split; [|now apply Hzero].
    unfold cancelled, is_set. now rewrite Hset. }
  split.
  { intros -> k Hk Hle.
    split; [unfold tasks, dispatched; now rewrite Hk|].
    apply Hzero; [reflexivity|].
    rewrite Hcancel, Hk. now apply polled_within. }
  split.
  { intros Hnone.
    assert (Htasks : tasks = fs).
    { unfold tasks, dispatched. destruct Hnone as [-> | ->]; [reflexivity|].
      now destruct cancel_event. }
    split; [exact Htasks|].
    assert (Hlen : List.length results = List.length fs).
    { unfold results.
      rewrite (Permutation_length (as_completed_once P _)).
      now rewrite List.length_map, Htasks. }
    rewrite <- Hlen.
    destruct (Nat.eq_dec j (List.length results)) as [|Hne]; [assumption|].
    specialize (Hstop ltac:(lia)).
    assert (Hb : cancel_event = false \/ cancel_after wb = None).
    { destruct Hnone as [Hf | Hn]; [now left | right].
      rewrite Hcancel, Hn. unfold polled. now destruct cancel_event. }
    exfalso. unfold cancelled, is_set, ret in Hstop.
    destruct Hb as [-> | Hb]; [discriminate|].
    pose proof (prims_cancel_never _ _ _ _ Hp Hb) as Hnever.
    destruct cancel_event; [|discriminate].
    rewrite Hnever in Hstop. discriminate. }
  split; [exact Hj|]. split; [exact Htrace|]. split; [exact Hstop|].
  split.
  { intros i wi Hi Hti Hset.
    destruct (Nat.le_gt_cases i j) as [Hle | Hgt].
    - symmetry.
      exact (reconciled_all_stops P cancel_event progress_cb cutoff total
               results i j wb wi w1 Hti Htrace Hle Hj Hset).
    - exact (reconciled_all_stops P cancel_event progress_cb cutoff total
               results j i wb w1 wi Htrace Hti ltac:(lia) Hi
               (Hstop ltac:(lia))). }
  split.
  { rewrite Hrun. do 3 f_equal. rewrite Hch, Hch0. lia. }
  split; [reflexivity|]. split; [reflexivity|].
  split.
  { unfold committed. cbn [sql_log with_sql_log with_entries].
    rewrite (prims_sql_log _ _ _ _ Hp), Hlog, <- List.app_assoc.
    reflexivity. }
  split.
  - intros fid Hfid. rewrite Hcf.
    rewrite (prims_other_feeds _ _ _ _ fid Hp), Hfeeds; [reflexivity|].
    now rewrite list_elem_of_In.
  - intros e He. apply Hce in He.
    destruct (prims_entries _ _ _ _ Hp) as (new & Hnew & Hall).
    rewrite Hnew, Hent in He. apply List.in_app_iff in He as [He|He];
      [now left | right].
    rewrite List.Forall_forall in Hall.
    destruct (Hall e He) as (Hin & _). now apply list_elem_of_In.
Qed.

Lemma cancellation_stops_reconciling_witness :
  exists tasks j w1 w',
    tasks = [demo_feed1; demo_feed2]
    /\ j = 1%nat
    /\ reconciled_all demo true true
         (sweep_cutoff demo (demo_world (Some 5%nat))) 2
         (firstn j (List.map (fetch_one demo) tasks))
         (began demo [] false true true (demo_world (Some 5%nat))) w1
    /\ cancelled true w1 = (Ok true, w1)
    /\ update_feeds_async demo [] false true true
         (demo_world (Some 5%nat))
       = (Ok (mkStats 1 (updated w1) (errors w1) 2), w')
    /\ Store.feed_by_id 2 (feeds w') = Some demo_feed2.
Proof.
  destruct (cancellation_stops_reconciling demo [] false true true
              (demo_world (Some 5%nat)) ltac:(discriminate))
    as (tasks & wb & j & w1 & w' & Hdisp & _ & _ & _ & _ & Hj & Htrace
        & Hstop & _ & Hrun & _ & _ & _ & Hframe & _).
  assert (Htasks : tasks = [demo_feed1; demo_feed2]).
  { vm_compute in Hdisp. now injection Hdisp as <- _. }
  assert (Hwb : wb = began demo [] false true true
                       (demo_world (Some 5%nat))).
  { vm_compute in Hdisp. vm_compute. now injection Hdisp as _ <-. }
  subst tasks wb.
  assert (Hj1 : j = 1%nat).
  { assert (Hc : fst (update_feeds_async demo [] false true true
                        (demo_world (Some 5%nat)))
                 = Ok (mkStats 1 1 0 2)) by (vm_compute; reflexivity).
    rewrite Hrun in Hc. cbn [fst] in Hc. injection Hc as Hc _ _. lia. }
  subst j.
  exists [demo_feed1; demo_feed2], 1%nat, w1, w'.
  split; [reflexivity|]. split; [reflexivity|].
  split; [exact Htrace|].
  split; [apply Hstop; vm_compute; lia|].
  split; [exact Hrun|].
  rewrite (Hframe 2); [reflexivity|].
  vm_compute. intros [H|[]]. discriminate H.
Defined.

(** C3 as stated fails. Both fetches are dispatched; the first result is
    reconciled; the event is then seen set at the second check of the
    result loop, and the result of the second fetch is never delivered to
    the reconciler: the sweep ends with [checked = 1] and the row of feed 2
    as it was. (The five polls that come back false are the two of the
    dispatch loop, the first of the result loop and the two of the entries
    of the first body.) *)
Lemma dispatched_results_dropped_counterexample :
  fst (dispatch true [demo_feed1; demo_feed2] (demo_world (Some 5%nat)))
  = Ok [demo_feed1; demo_feed2]
  /\ exists w',
       update_feeds_async demo [] false true true (demo_world (Some 5%nat))
       = (Ok (mkStats 1 1 0 2), w')
       /\ Store.feed_by_id 2 (feeds w') = Some demo_feed2
       /\ List.map pr_current_url (progress_log w')
          = [None; Some "http://a/feed"].
Proof.
  split; [reflexivity|].
  exists (snd (update_feeds_async demo [] false true true
                 (demo_world (Some 5%nat)))).
  split; [|split]; vm_compute; reflexivity.
Qed.

(** ** Idempotent insertion *)

Section IdempotenceFacts.

Variable P : Platform.
Variable cutoff : Z.
Variable n0 : nat.

(** The clock is not behind the retention cutoff, and the calendar year
    does not go backwards. *)
Hypothesis Hnow : forall n, (n0 <= n)%nat -> cutoff <= clock P n.
Hypothesis Hyear :
  forall n m, (n <= m)%nat ->
              utc_year P (clock P n) <= utc_year P (clock P m).






End IdempotenceFacts.








(** A whole sweep keeps the keys distinct as well. *)
Lemma sweep_keeps_unique_keys
    (P : Platform) (feed_ids : list Z)
    (only_due progress_cb cancel_event : bool) (w : World) :
  unique_keys (entries w) ->
  unique_keys
    (entries (snd (update_feeds_async P feed_ids only_due progress_cb
                                      cancel_event w))).
Proof.
  intros Hu.
  destruct (selected P feed_ids only_due w) as [|f fs] eqn:Hsel.
  - rewrite (sweep_empty P _ _ _ _ _ Hsel). cbn [snd].
    destruct (started_frame P feed_ids only_due progress_cb w)
      as (_ & -> & _). exact Hu.
  - destruct (sweep_nonempty P feed_ids only_due progress_cb cancel_event w)
      as (j & w1 & _ & -> & _ & Hp & _); [now rewrite Hsel|].
    cbn [snd]. unfold committed. cbn [entries with_sql_log with_entries].
    apply delete_old_keeps_unique.
    apply (prims_unique_keys _ _ _ _ Hp).
    destruct (began_frame P feed_ids only_due progress_cb cancel_event w)
      as (_ & -> & _). exact Hu.
Qed.

(** ** The job manager *)

Section JobFacts.

Lemma new_job_id_truthy now pid :
  truthy (Some (_new_job_id now pid)) = true.
Proof. reflexivity. Qed.

(** The active job id, once set, is an id made by [_new_job_id]. *)
Lemma active_id_truthy m :
  reachable m ->
  forall id, _active_job_id m = Some id -> truthy (Some id) = true.
Proof.
  induction 1 as [|m m' _ IH Hstep]; [discriminate|].
  destruct Hstep as [fs t1 t2 t3 pid m | job_id now m | r p now m _ _
                     | r stats now m _ | r msg now m _].
  - unfold start_update_job. destruct (active_running m); [exact IH|].
    cbn. intros id [= <-]. reflexivity.
  - unfold cancel_update_job.
    destruct (_jobs m !! job_id) as [job|]; [|exact IH].
    destruct (_cancel_event job); exact IH.
  - unfold _progress_updater.
    destruct (_jobs m !! r_job_id r); exact IH.
  - unfold runner_done. destruct (_jobs m !! r_job_id r); exact IH.
  - unfold runner_failed. destruct (_jobs m !! r_job_id r); exact IH.
Qed.

(** Every job dict carries a cancellation event. *)
Lemma jobs_have_event m :
  reachable m ->
  forall id job, _jobs m !! id = Some job ->
                 exists ev, _cancel_event job = Some ev.
Proof.
  induction 1 as [|m m' _ IH Hstep]; [intros id job H; discriminate H|].
  destruct Hstep as [fs t1 t2 t3 pid m | job_id now m | r p now m _ _
                     | r stats now m _ | r msg now m _].
  - unfold start_update_job. destruct (active_running m); [exact IH|].
    cbn [snd _jobs]. intros id job Hl.
    destruct (decide (_new_job_id t1 pid = id)) as [<-|Hne].
    + rewrite lookup_insert_eq in Hl. injection Hl as <-. cbn. eauto.
    + rewrite lookup_insert_ne in Hl by exact Hne. eauto.
  - unfold cancel_update_job.
    destruct (_jobs m !! job_id) as [job0|] eqn:E0; [|exact IH].
    destruct (IH _ _ E0) as (ev & Hev). rewrite Hev. cbn [snd _jobs].
    intros id job Hl.
    destruct (decide (job_id = id)) as [<-|Hne].
    + rewrite lookup_insert_eq in Hl. injection Hl as <-. cbn. eauto.
    + rewrite lookup_insert_ne in Hl by exact Hne. eauto.
  - unfold _progress_updater.
    destruct (_jobs m !! r_job_id r) as [job0|] eqn:E0; [|exact IH].
    cbn [snd _jobs]. intros id job Hl.
    destruct (decide (r_job_id r = id)) as [<-|Hne].
    + rewrite lookup_insert_eq in Hl. injection Hl as <-. cbn. eauto.
    + rewrite lookup_insert_ne in Hl by exact Hne. eauto.
  - unfold runner_done.
    destruct (_jobs m !! r_job_id r) as [job0|] eqn:E0; [|exact IH].
    cbn [snd _jobs]. intros id job Hl.
    destruct (decide (r_job_id r = id)) as [<-|Hne].
    + rewrite lookup_insert_eq in Hl. injection Hl as <-. cbn. eauto.
    + rewrite lookup_insert_ne in Hl by exact Hne. eauto.
  - unfold runner_failed.
    destruct (_jobs m !! r_job_id r) as [job0|] eqn:E0; [|exact IH].
    cbn [snd _jobs]. intros id job Hl.
    destruct (decide (r_job_id r = id)) as [<-|Hne].
    + rewrite lookup_insert_eq in Hl. injection Hl as <-. cbn. eauto.
    + rewrite lookup_insert_ne in Hl by exact Hne. eauto.
Qed.

(** [cancel_update_job] never looks at the state of the job: on every
    known job it sets the event, stores the state ["cancelling"] and
    returns [True]. *)
Lemma cancel_known_job m id job now :
  reachable m -> _jobs m !! id = Some job ->
  fst (cancel_update_job id now m) = true
  /\ state <$> (_jobs (snd (cancel_update_job id now m)) !! id)
     = Some "cancelling".
Proof.
  intros Hr Hl. destruct (jobs_have_event m Hr id job Hl) as (ev & Hev).
  unfold cancel_update_job. rewrite Hl, Hev. cbn.
  split; [reflexivity|]. now rewrite lookup_insert_eq.
Qed.

Lemma cancel_unknown_job m id now :
  _jobs m !! id = None -> cancel_update_job id now m = (false, m).
Proof. intros Hl. unfold cancel_update_job. now rewrite Hl. Qed.

End JobFacts.

Lemma reachable_jobs_started : reachable jobs_started.
Proof.
  exact (reach_step _ _ reach_initial
           (step_start true 100 100 100 7 initial)).
Qed.

Lemma reachable_jobs_cancelled : reachable jobs_cancelled.
Proof.
  exact (reach_step _ _ reachable_jobs_started
           (step_cancel "job_100_7" 101 jobs_started)).
Qed.

Lemma reachable_jobs_restarted : reachable jobs_restarted.
Proof.
  exact (reach_step _ _ reachable_jobs_cancelled
           (step_start true 102 102 102 7 jobs_cancelled)).
Qed.

Lemma reachable_jobs_finished : reachable jobs_finished.
Proof.
  refine (reach_step _ _ reachable_jobs_started
            (step_done (mkRunner "job_100_7" 0) (mkStats 2 1 0 2) 105
                       jobs_started _)).
  vm_compute. apply list_elem_of_here.
Qed.

(** C2 (as amended). In every reachable state of the job manager, a
    [start_update_job] call made while the active job (the one started
    last) is in state "running" returns that job's id and leaves the
    manager as it is: no second job dict, no second runner thread. When
    the active job is not in state "running" - there is none, or it is
    finished, or it is "cancelling" - the call creates a job in state
    "running", makes it the active one and starts a runner thread for
    it. *)
Theorem start_is_idempotent_while_running
    (m : Manager) (full_sweep : bool) (t1 t2 t3 pid : Z) :
  reachable m ->
  (forall id job,
     _active_job_id m = Some id -> _jobs m !! id = Some job ->
     state job = "running" ->
     start_update_job full_sweep t1 t2 t3 pid m = (id, m))
  /\ ((forall id job,
         _active_job_id m = Some id -> _jobs m !! id = Some job ->
         state job <> "running") ->
      let m' := snd (start_update_job full_sweep t1 t2 t3 pid m) in
      fst (start_update_job full_sweep t1 t2 t3 pid m)
      = _new_job_id t1 pid
      /\ _active_job_id m' = Some (_new_job_id t1 pid)
      /\ state <$> (_jobs m' !! _new_job_id t1 pid) = Some "running"
      /\ threads m'
         = threads m ++ [mkRunner (_new_job_id t1 pid)
                                  (List.length (events m))]).
Proof.
  intros Hr. split.
  - intros id job Hid Hjob Hstate.
    unfold start_update_job, active_running.
    rewrite Hid, (active_id_truthy m Hr id Hid), Hjob, Hstate.
    reflexivity.
  - intros Hnot.
    assert (Hnone : active_running m = None).
    { unfold active_running.
      destruct (_active_job_id m) as [id|] eqn:Hid; [|reflexivity].
      destruct (truthy (Some id)); [|reflexivity].
      destruct (_jobs m !! id) as [job|] eqn:Hjob; [|reflexivity].
      destruct (String.eqb (state job) "running") eqn:E; [|reflexivity].
      apply String.eqb_eq in E. now destruct (Hnot id job eq_refl Hjob). }
    unfold start_update_job. rewrite Hnone. cbn.
    repeat split. now rewrite lookup_insert_eq.
Qed.

Lemma start_is_idempotent_while_running_witness :
  start_update_job true 102 102 102 7 jobs_started
  = ("job_100_7", jobs_started).
Proof.
  refine (proj1 (start_is_idempotent_while_running jobs_started true
                   102 102 102 7 _) "job_100_7" _ eq_refl eq_refl eq_refl).
  exact (reach_step _ _ reach_initial
           (step_start true 100 100 100 7 initial)).
Defined.

(** C2 as stated fails: after start, cancel, start the manager holds a
    job in state "cancelling" and another in state "running". *)
Lemma two_active_jobs_counterexample :
  reachable jobs_restarted
  /\ state <$> (_jobs jobs_restarted !! "job_100_7") = Some "cancelling"
  /\ state <$> (_jobs jobs_restarted !! "job_102_7") = Some "running"
  /\ ~ at_most_one_active jobs_restarted.
Proof.
  split; [|split; [|split]].
  - exact reachable_jobs_restarted.
  - vm_compute. reflexivity.
  - vm_compute. reflexivity.
  - intros H.
    assert (Hx : "job_100_7" = "job_102_7").
    { eapply (H "job_100_7" "job_102_7");
        [vm_compute; reflexivity | vm_compute; reflexivity
         | reflexivity | reflexivity]. }
    discriminate Hx.
Qed.

(** C4 fails on the code. A job that ran to its end is in state "done";
    [cancel_update_job] on it returns [True] and moves it to
    "cancelling", where it stays: its runner has already finished. *)
Theorem cancel_moves_finished_job :
  reachable jobs_finished
  /\ state <$> (_jobs jobs_finished !! "job_100_7") = Some "done"
  /\ fst (cancel_update_job "job_100_7" 106 jobs_finished) = true
  /\ state <$> (_jobs (snd (cancel_update_job "job_100_7" 106
                              jobs_finished)) !! "job_100_7")
     = Some "cancelling".
Proof.
  split; [exact reachable_jobs_finished|].
  split; [vm_compute; reflexivity|].
  split; vm_compute; reflexivity.
Qed.

(** * Further properties of the update core *)

(** ** Polling intervals *)

(** X1. When the three polling tiers are configured in increasing order,
    a feed with more entries in the retention window is never polled more
    often than one with fewer, and every interval lies between the lowest
    and the highest tier. *)
Theorem choose_interval_monotone (P : Platform) (a b : Z) :
  INTERVAL_LOW P <= INTERVAL_MED P ->
  INTERVAL_MED P <= INTERVAL_HIGH P ->
  a <= b ->
  choose_interval P a <= choose_interval P b
  /\ INTERVAL_LOW P <= choose_interval P a <= INTERVAL_HIGH P.
Proof.
  intros H1 H2 Hab. unfold choose_interval.
  destruct (a <=? 10) eqn:Ea, (b <=? 10) eqn:Eb,
           (a <=? 200) eqn:Ea', (b <=? 200) eqn:Eb'; lia.
Qed.

Lemma choose_interval_monotone_witness :
  choose_interval demo 5 <= choose_interval demo 300
  /\ INTERVAL_LOW demo <= choose_interval demo 5 <= INTERVAL_HIGH demo.
Proof.
  apply (choose_interval_monotone demo 5 300); cbn; lia.
Defined.

(** ** Counters and progress reports *)

Section CounterFacts.

Variable P : Platform.

Lemma reported_fields progress_cb total url w :
  let w' := reported progress_cb total url w in
  checked w' = checked w /\ updated w' = updated w /\ errors w' = errors w
  /\ progress_log w'
     = progress_log w
       ++ (if progress_cb then [progress_of total url w] else []).
Proof.
  unfold reported, progress_of. destruct progress_cb; cbn.
  - repeat split; reflexivity.
  - repeat split; try reflexivity. now rewrite List.app_nil_r.
Qed.

(** What the reconciliation of one result does to the counters, before
    its progress report. *)
Lemma reconcile_counters cancel_event progress_cb cutoff total r w :
  exists w1,
    reconcile P cancel_event progress_cb cutoff total r w
    = (Ok tt, reported progress_cb total (cur_url_of r w) w1)
    /\ checked w1 = checked w + 1
    /\ updated w <= updated w1 <= updated w + 1
    /\ errors w <= errors w1 <= errors w + 2
    /\ progress_log w1 = progress_log w.
Proof.
  destruct r as [fid | fid status | fid payload etag last_mod | fid msg].
  - eexists. split.
    + apply (reconcile_of_kind_ok P). cbn [reconcile_kind].
      apply (reconcile_not_modified_run P).
    + cbn. repeat split; lia.
  - destruct (Store.feed_by_id fid (feeds w)) as [row|] eqn:Hrow.
    + eexists. split.
      * apply reconcile_of_kind_ok. cbn [reconcile_kind].
        apply (reconcile_error_run P fid (counted w) row). exact Hrow.
      * cbn. repeat split; lia.
    + eexists. split.
      * eapply reconcile_of_kind_raise. cbn [reconcile_kind].
        apply (reconcile_error_missing P fid (counted w)). exact Hrow.
      * cbn. repeat split; lia.
  - destruct (reconcile_ok_run P cancel_event cutoff fid payload etag
                last_mod (counted w))
      as (added & wl & _ & _ & Hframe & Hrun).
    eexists. split.
    + apply (reconcile_of_kind_ok P). cbn [reconcile_kind]. exact Hrun.
    + destruct Hframe as (_ & Hc & Hu & He & _ & Hl).
      cbn in Hc, Hu, He, Hl.
      unfold rescheduled, bumped. destruct added; cbn; rewrite ?Hc, ?Hu, ?He, ?Hl;
        repeat split; lia.
  - destruct (Store.feed_by_id fid (feeds w)) as [row|] eqn:Hrow.
    + eexists. split.
      * apply reconcile_of_kind_ok. cbn [reconcile_kind].
        apply (reconcile_error_run P fid (counted w) row). exact Hrow.
      * cbn. repeat split; lia.
    + eexists. split.
      * eapply reconcile_of_kind_raise. cbn [reconcile_kind].
        apply (reconcile_error_missing P fid (counted w)). exact Hrow.
      * cbn. repeat split; lia.
Qed.

(** The loop over the completed tasks: [j] results are reconciled, each
    one moves [checked] by one and [updated] by at most one, and each one
    ends with one progress report that carries the new [checked]. *)
Lemma consume_counters cancel_event progress_cb cutoff total rs w :
  exists (j : nat) w' reports,
    consume P cancel_event progress_cb cutoff total rs w = (Ok tt, w')
    /\ (j <= List.length rs)%nat
    /\ checked w' = checked w + Z.of_nat j
    /\ updated w <= updated w' <= updated w + Z.of_nat j
    /\ errors w <= errors w'
    /\ progress_log w' = progress_log w ++ reports
    /\ (progress_cb = false -> reports = [])
    /\ (progress_cb = true ->
        List.map pr_checked reports
        = List.map (fun i => checked w + Z.of_nat i) (List.seq 1 j))
    /\ List.Forall
         (fun p => pr_total p = total /\ pr_state p = "running"
                   /\ pr_updated p <= updated w') reports.
Proof.
  revert w. induction rs as [|r rest IH]; intros w.
  - exists O, w, []. cbn. rewrite List.app_nil_r.
    repeat split; try reflexivity; try lia; try constructor.
  - cbn [consume].
    destruct (cancelled_cases [] cutoff cancel_event w)
      as [(Hc & _ & _) | (wp & Hc & _ & Hwp & _)].
    + exists O, w, []. erewrite bind_ok by exact Hc. cbn.
      rewrite List.app_nil_r.
      repeat split; try reflexivity; try lia; try constructor.
    + erewrite bind_ok by exact Hc. cbv beta iota.
      destruct (reconcile_counters cancel_event progress_cb cutoff total r wp)
        as (w1 & Hrec & Hch & Hup & Her & Hlog).
      erewrite bind_ok by exact Hrec. cbv beta.
      destruct (reported_fields progress_cb total (cur_url_of r wp) w1)
        as (Rc & Ru & Re & Rl).
      set (w2 := reported progress_cb total (cur_url_of r wp) w1) in *.
      destruct (IH w2)
        as (j & w' & reports & Hrun & Hj & Hch' & Hup' & Her' & Hlog'
            & Hoff & Hon & Hall).
      assert (Ec : checked wp = checked w) by (rewrite Hwp; reflexivity).
      assert (Eu : updated wp = updated w) by (rewrite Hwp; reflexivity).
      assert (Ee : errors wp = errors w) by (rewrite Hwp; reflexivity).
      assert (El : progress_log wp = progress_log w)
        by (rewrite Hwp; reflexivity).
      exists (S j), w',
        ((if progress_cb
          then [progress_of total (cur_url_of r wp) w1] else [])
         ++ reports).
      split; [exact Hrun|]. split; [cbn; lia|].
      split; [lia|]. split; [lia|]. split; [lia|].
      split; [rewrite Hlog', Rl, Hlog, El; now rewrite List.app_assoc|].
      split; [intros ->; cbn; now apply Hoff|].
      split.
      * intros ->. cbn [List.app List.map List.seq].
        rewrite (Hon eq_refl). f_equal.
        -- cbn. lia.
        -- rewrite <- (List.seq_shift j 1), List.map_map.
           apply List.map_ext. intros i. lia.
      * apply List.Forall_app. split.
        -- destruct progress_cb; constructor; [|constructor].
           cbn. repeat split; try reflexivity. lia.
        -- exact Hall.
Qed.

End CounterFacts.

Section SweepCounterFacts.

Variable P : Platform.

Lemma dispatched_incl cancel_event c fs f :
  In f (dispatched cancel_event c fs) -> In f fs.
Proof.
  unfold dispatched. destruct cancel_event; [|trivial].
  destruct c as [k|]; [|trivial]. intros H.
  rewrite <- (List.firstn_skipn k fs). apply List.in_or_app. now left.
Qed.

Lemma dispatched_length cancel_event c fs :
  (List.length (dispatched cancel_event c fs) <= List.length fs)%nat.
Proof.
  unfold dispatched. destruct cancel_event; [|lia].
  destruct c as [k|]; [|lia]. rewrite List.length_firstn. lia.
Qed.

Lemma completed_length feed_ids only_due cancel_event w :
  (List.length (completed P feed_ids only_due cancel_event w)
   <= List.length (selected P feed_ids only_due w))%nat.
Proof.
  unfold completed.
  rewrite (Permutation_length (as_completed_once P _)), List.length_map.
  apply dispatched_length.
Qed.

Lemma fetch_one_feed_id f : result_feed_id (fetch_one P f) = f_id f.
Proof.
  unfold fetch_one.
  destruct (session_get P _ _) as [status text etag last_mod | msg];
    [|reflexivity].
  destruct (status =? 304); [reflexivity|].
  now destruct (negb (status =? 200)).
Qed.

(** Every result the second loop sees belongs to a selected feed. *)
Lemma completed_ids feed_ids only_due cancel_event w j fid :
  In fid (List.map result_feed_id
            (firstn j (completed P feed_ids only_due cancel_event w))) ->
  In fid (List.map f_id (selected P feed_ids only_due w)).
Proof.
  intros H. apply List.in_map_iff in H as (r & <- & Hr).
  assert (Hr' : In r (completed P feed_ids only_due cancel_event w)).
  { rewrite <- (List.firstn_skipn j (completed _ _ _ _ _)).
    apply List.in_or_app. now left. }
  unfold completed in Hr'.
  apply (Permutation_in _ (as_completed_once P _)) in Hr'.
  apply List.in_map_iff in Hr' as (f & <- & Hf).
  rewrite fetch_one_feed_id. apply List.in_map.
  eapply dispatched_incl. exact Hf.
Qed.

Lemma started_fields feed_ids only_due progress_cb w :
  let w0 := started P feed_ids only_due progress_cb w in
  checked w0 = 0 /\ updated w0 = 0 /\ errors w0 = 0
  /\ progress_log w0
     = progress_log w
       ++ (if progress_cb
           then [mkProgress
                   (Z.of_nat (List.length (selected P feed_ids only_due w)))
                   0 0 0 "running" None]
           else []).
Proof.
  unfold started. destruct progress_cb; cbn.
  - repeat split; reflexivity.
  - repeat split; try reflexivity. now rewrite List.app_nil_r.
Qed.

(** A sweep as a whole: its returned counters and the reports it made. *)
Lemma sweep_counters feed_ids only_due progress_cb cancel_event w :
  let total := Z.of_nat (List.length (selected P feed_ids only_due w)) in
  exists (j : nat) u e w' reports,
    update_feeds_async P feed_ids only_due progress_cb cancel_event w
    = (Ok (mkStats (Z.of_nat j) u e
                   (if total =? 0 then 0 else total)), w')
    /\ (j <= List.length (selected P feed_ids only_due w))%nat
    /\ 0 <= u <= Z.of_nat j
    /\ 0 <= e
    /\ progress_log w'
       = progress_log w
         ++ (if progress_cb
             then mkProgress total 0 0 0 "running" None :: reports
             else [])
    /\ List.map pr_checked reports
       = List.map Z.of_nat (List.seq 1 (if progress_cb then j else O))
    /\ List.Forall
         (fun p => pr_total p = total /\ pr_state p = "running"
                   /\ pr_updated p <= u) reports.
Proof.
  intros total.
  destruct (started_fields feed_ids only_due progress_cb w)
    as (Sc & Su & Se & Sl).
  assert (Hcase : selected P feed_ids only_due w = []
                  \/ selected P feed_ids only_due w <> []).
  { destruct (selected P feed_ids only_due w); [now left | now right]. }
  destruct Hcase as [Hsel | Hne].
  - exists O, 0, 0, (started P feed_ids only_due progress_cb w), [].
    split.
    { rewrite (sweep_empty P _ _ _ _ _ Hsel). unfold total.
      now rewrite Hsel. }
    split; [cbn; lia|]. split; [lia|]. split; [lia|].
    split; [rewrite Sl; reflexivity|].
    split; [now destruct progress_cb | constructor].
  - assert (Hpos : (total =? 0) = false).
    { unfold total. destruct (selected P feed_ids only_due w);
        [now elim Hne | reflexivity]. }
    destruct (sweep_nonempty P feed_ids only_due progress_cb cancel_event w
                Hne) as (j & w1 & Hcons & Hrun & Hj & _ & Hch & _).
    destruct (consume_counters P cancel_event progress_cb (sweep_cutoff P w)
                (Z.of_nat (List.length (selected P feed_ids only_due w)))
                (completed P feed_ids only_due cancel_event w)
                (began P feed_ids only_due progress_cb cancel_event w))
      as (j' & w1' & reports & Hcons' & _ & Hch' & Hup & Her & Hlog & Hoff
          & Hon & Hall).
    rewrite Hcons in Hcons'. injection Hcons' as <-.
    change (checked (began P feed_ids only_due progress_cb cancel_event w))
      with (checked (started P feed_ids only_due progress_cb w)) in Hch'.
    change (updated (began P feed_ids only_due progress_cb cancel_event w))
      with (updated (started P feed_ids only_due progress_cb w)) in Hup.
    change (errors (began P feed_ids only_due progress_cb cancel_event w))
      with (errors (started P feed_ids only_due progress_cb w)) in Her.
    change (progress_log
              (began P feed_ids only_due progress_cb cancel_event w))
      with (progress_log (started P feed_ids only_due progress_cb w))
      in Hlog.
    rewrite Sc in Hch'. rewrite Su in Hup. rewrite Se in Her.
    rewrite Sl in Hlog.
    assert (j' = j) by lia. subst j'.
    pose proof (completed_length feed_ids only_due cancel_event w) as Hlen.
    exists j, (updated w1), (errors w1), (committed (sweep_cutoff P w) w1),
      reports.
    split.
    { rewrite Hrun, Hch, Hpos. reflexivity. }
    split; [lia|]. split; [lia|]. split; [lia|].
    split.
    { change (progress_log (committed (sweep_cutoff P w) w1))
        with (progress_log w1).
      rewrite Hlog. destruct progress_cb.
      - now rewrite <- List.app_assoc.
      - rewrite (Hoff eq_refl). now rewrite !List.app_nil_r. }
    split.
    { destruct progress_cb.
      - rewrite (Hon eq_refl). apply List.map_ext. intros i.
        change (checked (began P feed_ids only_due true cancel_event w))
          with (checked (started P feed_ids only_due true w)).
        rewrite Sc. reflexivity.
      - now rewrite (Hoff eq_refl). }
    exact Hall.
Qed.

End SweepCounterFacts.

(** X2. The counters a sweep returns are ordered: it reconciles no more
    feeds than it selected, and counts a feed as updated at most once, so
    [0 <= updated <= checked <= total]; [total] is the number of selected
    feeds and [errors] is not negative. *)
Theorem sweep_counters_are_ordered
    (P : Platform) (feed_ids : list Z)
    (only_due progress_cb cancel_event : bool) (w : World) :
  exists stats w',
    update_feeds_async P feed_ids only_due progress_cb cancel_event w
    = (Ok stats, w')
    /\ 0 <= st_updated stats <= st_checked stats
    /\ st_checked stats <= st_total stats
    /\ st_total stats
       = Z.of_nat (List.length (selected P feed_ids only_due w))
    /\ 0 <= st_errors stats.
Proof.
  destruct (sweep_counters P feed_ids only_due progress_cb cancel_event w)
    as (j & u & e & w' & reports & Hrun & Hj & Hu & He & _).
  do 2 eexists. split; [exact Hrun|]. cbn.
  split; [lia|]. 
  destruct (Z.of_nat (List.length (selected P feed_ids only_due w)) =? 0)
    eqn:E; lia.
Qed.

(** X3. The progress reports of a sweep that was given a callback: one
    report with [checked = 0] before anything is fetched, then exactly one
    report per reconciled feed, with [checked] going 1, 2, ... up to the
    returned [checked]; every report carries the same [total], the state
    ["running"], and an [updated] that is at most the returned one. A
    sweep without a callback reports nothing. *)
Theorem sweep_progress_reports
    (P : Platform) (feed_ids : list Z)
    (only_due progress_cb cancel_event : bool) (w : World) :
  exists stats w' reports,
    update_feeds_async P feed_ids only_due progress_cb cancel_event w
    = (Ok stats, w')
    /\ progress_log w'
       = progress_log w
         ++ (if progress_cb
             then mkProgress
                    (Z.of_nat (List.length
                                 (selected P feed_ids only_due w)))
                    0 0 0 "running" None :: reports
             else [])
    /\ (progress_cb = true ->
        List.map pr_checked reports
        = List.map Z.of_nat
            (List.seq 1 (Z.to_nat (st_checked stats))))
    /\ List.Forall
         (fun p =>
            pr_total p
            = Z.of_nat (List.length (selected P feed_ids only_due w))
            /\ pr_state p = "running"
            /\ pr_updated p <= st_updated stats) reports.
Proof.
  destruct (sweep_counters P feed_ids only_due progress_cb cancel_event w)
    as (j & u & e & w' & reports & Hrun & _ & _ & _ & Hlog & Hmap & Hall).
  do 2 eexists. exists reports. split; [exact Hrun|].
  split; [exact Hlog|]. split; [|exact Hall].
  intros ->. cbn [st_checked]. now rewrite Nat2Z.id.
Qed.

(** ** Results that change no entry *)

(** X4. A 304 answer touches nothing but the schedule of its feed: no
    entry is added or removed, no counter but [checked] moves, and the
    feed's row keeps its title, validators, month count and [last_ok];
    [last_fetch] is the time of the reconciliation, the failure streak is
    0 and [next_fetch] is one polling interval (chosen from the stored
    month count) after the second clock reading. *)
Theorem not_modified_reschedules_only
    (P : Platform) (cancel_event progress_cb : bool) (cutoff total : Z)
    (fid : Z) (w : World) (row : FeedRow) :
  Store.feed_by_id fid (feeds w) = Some row ->
  exists w',
    reconcile P cancel_event progress_cb cutoff total (not_modified fid) w
    = (Ok tt, w')
    /\ entries w' = entries w
    /\ checked w' = checked w + 1
    /\ updated w' = updated w
    /\ errors w' = errors w
    /\ Store.feed_by_id fid (feeds w')
       = Some (mkFeed (f_id row) (f_url row) (f_title row) (f_etag row)
                      (f_last_modified row)
                      (Some (clock P (clock_reads w)))
                      (Some 0)
                      (Some (clock P (S (clock_reads w))
                             + choose_interval P
                                 (int_or_0 (f_month_count row))))
                      (f_month_count row) (f_last_ok row)).
Proof.
  intros Hrow. eexists. split.
  - apply reconcile_of_kind_ok. cbn [reconcile_kind].
    apply reconcile_not_modified_run.
  - destruct (reported_fields progress_cb total
                (cur_url_of (not_modified fid) w)
                (with_feeds
                   (Store.update_feed
                      (set_not_modified (clock P (clock_reads (counted w)))
                         (clock P (S (clock_reads (counted w)))
                          + choose_interval P
                              match
                                Store.feed_by_id fid (feeds (counted w))
                              with
                              | Some r => int_or_0 (f_month_count r)
                              | None => 0
                              end)) fid (feeds (counted w)))
                   (with_clock_reads (S (S (clock_reads (counted w))))
                      (counted w))))
      as (Rc & Ru & Re & _).
    rewrite Rc, Ru, Re, entries_reported, feeds_reported.
    cbn [entries feeds checked updated errors with_feeds with_clock_reads
         counted with_counters clock_reads].
    repeat split; try reflexivity.
    rewrite feed_by_id_update_same by reflexivity.
    rewrite Hrow. reflexivity.
Qed.

Lemma not_modified_reschedules_only_witness :
  exists w',
    reconcile demo true true 0 2 (not_modified 1) (demo_world None)
    = (Ok tt, w')
    /\ entries w' = entries (demo_world None)
    /\ Store.feed_by_id 1 (feeds w')
       = Some (mkFeed 1 "http://a/feed" (Some "My title") None None
                      (Some 1700000000) (Some 0) (Some (1700000001 + 1200))
                      (Some 0) (Some 0)).
Proof.
  destruct (not_modified_reschedules_only demo true true 0 2 1
              (demo_world None) demo_feed1 eq_refl)
    as (w' & Hrun & Hent & _ & _ & _ & Hrow).
  exists w'. split; [exact Hrun|]. split; [exact Hent|]. exact Hrow.
Defined.

(** X5. A failed fetch (an HTTP status other than 200 and 304, or an
    exception) never aborts the sweep and never touches an entry or the
    [updated] counter. It is counted once in [errors] when the feed has a
    row; when the row is gone, reading its [fail_count] raises inside the
    reconciliation, the handler counts the failure again, and the feeds
    table stays as it was: [errors] moves by 2. *)
Theorem failed_fetch_counts
    (P : Platform) (cancel_event progress_cb : bool) (cutoff total : Z)
    (r : FetchResult) (w : World) :
  is_failure r = true ->
  exists w',
    reconcile P cancel_event progress_cb cutoff total r w = (Ok tt, w')
    /\ entries w' = entries w
    /\ checked w' = checked w + 1
    /\ updated w' = updated w
    /\ errors w'
       = errors w
         + match Store.feed_by_id (result_feed_id r) (feeds w) with
           | Some _ => 1
           | None => 2
           end
    /\ (Store.feed_by_id (result_feed_id r) (feeds w) = None ->
        feeds w' = feeds w).
Proof.
  intros Hfail.
  destruct (Store.feed_by_id (result_feed_id r) (feeds w)) as [row|] eqn:Hrow.
  - eexists. split.
    + now apply (reconcile_failure_run P _ _ _ _ r w row).
    + rewrite entries_reported.
      match goal with
      | |- context [reported ?a ?b ?c ?d] =>
          destruct (reported_fields a b c d) as (-> & -> & -> & _)
      end.
      cbn. repeat split; try reflexivity. discriminate.
  - assert (Hk : reconcile_kind P cancel_event cutoff r (counted w)
                 = (Raise TypeError,
                    with_counters (checked (counted w))
                      (updated (counted w)) (errors (counted w) + 1)
                      (counted w))).
    { destruct r; try discriminate; cbn [reconcile_kind];
        apply reconcile_error_missing; exact Hrow. }
    eexists. split.
    + eapply reconcile_of_kind_raise. exact Hk.
    + rewrite entries_reported, feeds_reported.
      match goal with
      | |- context [reported ?a ?b ?c ?d] =>
          destruct (reported_fields a b c d) as (-> & -> & -> & _)
      end.
      cbn. repeat split; try reflexivity. lia.
Qed.

Lemma failed_fetch_counts_witness :
  exists w',
    reconcile demo true true 0 2 (http_error 99 500) (demo_world None)
    = (Ok tt, w')
    /\ errors w' = 2
    /\ feeds w' = feeds (demo_world None).
Proof.
  destruct (failed_fetch_counts demo true true 0 2 (http_error 99 500)
              (demo_world None) eq_refl)
    as (w' & Hrun & _ & _ & _ & Herr & Hfeeds).
  exists w'. split; [exact Hrun|]. split; [exact Herr|].
  apply Hfeeds. reflexivity.
Defined.

(** ** Scheduling and selection together *)

Lemma backoff_at_least n : 1 <= n -> 120 <= backoff n.
Proof.
  intros H. pose proof (backoff_mono 1 n H) as Hm.
  change (backoff 1) with 120 in Hm. exact Hm.
Qed.

Lemma backoff_at_most n : backoff n <= 15360.
Proof.
  destruct (Z_le_gt_dec 8 n) as [H|H].
  - rewrite (backoff_flat n H). lia.
  - pose proof (backoff_mono n 8 ltac:(lia)) as Hm.
    rewrite (backoff_flat 8) in Hm; lia.
Qed.

Lemma In_update_feed set fid fs f :
  In f (Store.update_feed set fid fs) ->
  exists r, In r fs
            /\ ((f_id r = fid /\ f = set r) \/ (f_id r <> fid /\ f = r)).
Proof.
  unfold Store.update_feed. intros H.
  apply List.in_map_iff in H as (r & <- & Hr). exists r.
  split; [exact Hr|]. destruct (f_id r =? fid) eqn:E.
  - left. split; [lia | reflexivity].
  - right. split; [lia | reflexivity].
Qed.

(** X6. After a failed fetch the due-only selection leaves the feed alone
    for at least two minutes and picks it up again after 4 h 16 min at the
    latest: a query made at a time below [t + 120] returns no row of the
    feed, and one made at a time from [t + 15360] on returns its row,
    where [t] is the time the failure was recorded. *)
Theorem failed_feed_waits_for_backoff
    (P : Platform) (cancel_event progress_cb : bool) (cutoff total : Z)
    (r : FetchResult) (w : World) (row : FeedRow) :
  is_failure r = true ->
  Store.feed_by_id (result_feed_id r) (feeds w) = Some row ->
  0 <= int_or_0 (f_fail_count row) ->
  exists w' row',
    reconcile P cancel_event progress_cb cutoff total r w = (Ok tt, w')
    /\ Store.feed_by_id (result_feed_id r) (feeds w') = Some row'
    /\ (forall now f,
          now < clock P (S (clock_reads w)) + 120 ->
          In f (Store.feeds_due now (feeds w')) ->
          f_id f <> result_feed_id r)
    /\ (forall now,
          clock P (S (clock_reads w)) + 15360 <= now ->
          In row' (Store.feeds_due now (feeds w'))).
Proof.
  intros Hfail Hrow Hnn.
  set (fail := int_or_0 (f_fail_count row) + 1).
  set (t := clock P (S (clock_reads w))).
  set (upd := set_failed (clock P (clock_reads w)) fail (t + backoff fail)).
  exists (reported progress_cb total (cur_url_of r w)
            (with_feeds
               (Store.update_feed upd (result_feed_id r) (feeds w))
               (with_clock_reads (S (S (clock_reads w)))
                  (with_counters (checked w + 1) (updated w)
                                 (errors w + 1) w)))),
         (upd row).
  split; [now apply (reconcile_failure_run P _ _ _ _ r w row)|].
  rewrite feeds_reported. cbn [feeds with_feeds].
  assert (Hrow' : Store.feed_by_id (result_feed_id r)
                    (Store.update_feed upd (result_feed_id r) (feeds w))
                  = Some (upd row)).
  { rewrite feed_by_id_update_same by reflexivity. now rewrite Hrow. }
  split; [exact Hrow'|]. split.
  - intros now f Hnow Hf Hid.
    unfold Store.feeds_due in Hf. apply List.filter_In in Hf as (Hin & Hdue).
    apply In_update_feed in Hin as (r0 & _ & [(_ & ->) | (Hne & ->)]).
    + cbn in Hdue. pose proof (backoff_at_least fail ltac:(unfold fail; lia)).
      fold t in Hnow. lia.
    + contradiction.
  - intros now Hnow. unfold Store.feeds_due. apply List.filter_In. split.
    + unfold Store.feed_by_id in Hrow'.
      apply List.find_some in Hrow'. tauto.
    + cbn. pose proof (backoff_at_most fail). fold t in Hnow. lia.
Qed.

Lemma failed_feed_waits_for_backoff_witness :
  exists w' row',
    reconcile demo true true 0 2 (http_error 1 500) (demo_world None)
    = (Ok tt, w')
    /\ Store.feed_by_id 1 (feeds w') = Some row'
    /\ (forall f, In f (Store.feeds_due 1700000100 (feeds w')) ->
                  f_id f <> 1)
    /\ In row' (Store.feeds_due 1700020000 (feeds w')).
Proof.
  destruct (failed_feed_waits_for_backoff demo true true 0 2
              (http_error 1 500) (demo_world None) demo_feed1
              eq_refl eq_refl ltac:(cbn; lia))
    as (w' & row' & Hrun & Hrow & Hearly & Hlate).
  exists w', row'. split; [exact Hrun|]. split; [exact Hrow|]. split.
  - intros f. apply Hearly. cbn. lia.
  - apply Hlate. cbn. lia.
Defined.

(** X7. The validators of a 200 answer come back in the next request for
    the feed: after the reconciliation of the answer, [fetch_one] on the
    stored row asks for the feed's (unchanged) URL with [If-None-Match]
    and [If-Modified-Since] set to the ETag and Last-Modified the answer
    carried, and without the header when the answer had none or an empty
    one: the validators stored before are forgotten. *)
Theorem validators_round_trip
    (P : Platform) (cancel_event progress_cb : bool) (cutoff total : Z)
    (fid : Z) (payload : string) (etag last_mod : option string)
    (w : World) (row : FeedRow) :
  Store.feed_by_id fid (feeds w) = Some row ->
  exists w' row',
    reconcile P cancel_event progress_cb cutoff total
              (ok fid payload etag last_mod) w = (Ok tt, w')
    /\ Store.feed_by_id fid (feeds w') = Some row'
    /\ f_etag row' = etag
    /\ f_last_modified row' = last_mod
    /\ fetch_one P row'
       = classify fid
           (session_get P (f_url row)
              (mkHeaders (validator etag) (validator last_mod))).
Proof.
  intros Hrow.
  destruct (reconcile_ok_row P cancel_event progress_cb cutoff total fid
              payload etag last_mod w)
    as (w' & added & w1 & lf & lo & nf & _ & Hrun & _ & _ & Hrow').
  rewrite Hrow in Hrow'. cbn [option_map] in Hrow'.
  eexists w', _. split; [exact Hrun|]. split; [exact Hrow'|].
  split; [reflexivity|]. split; [reflexivity|].
  unfold fetch_one, classify, validator. cbn.
  assert (Hid : f_id row = fid).
  { unfold Store.feed_by_id in Hrow. apply List.find_some in Hrow.
    destruct Hrow as (_ & E). lia. }
  now rewrite Hid.
Qed.

Lemma validators_round_trip_witness :
  exists w' row',
    reconcile demo true true 0 2
              (ok 1 "<rss/>" (Some "v2") (Some EmptyString))
              (demo_world None) = (Ok tt, w')
    /\ Store.feed_by_id 1 (feeds w') = Some row'
    /\ fetch_one demo row'
       = classify 1
           (session_get demo "http://a/feed" (mkHeaders (Some "v2") None)).
Proof.
  destruct (validators_round_trip demo true true 0 2 1 "<rss/>"
              (Some "v2") (Some EmptyString) (demo_world None) demo_feed1
              eq_refl)
    as (w' & row' & Hrun & Hrow & _ & _ & Hfetch).
  exists w', row'. split; [exact Hrun|]. split; [exact Hrow|]. exact Hfetch.
Defined.

(** ** What a sweep leaves alone *)

Section SweepFrame.

Variable P : Platform.

(** A sweep changes the row and adds entries only of feeds it selected. *)
Lemma sweep_frame feed_ids only_due progress_cb cancel_event w fid :
  ~ In fid (List.map f_id (selected P feed_ids only_due w)) ->
  let w' := snd (update_feeds_async P feed_ids only_due progress_cb
                                    cancel_event w) in
  Store.feed_by_id fid (feeds w') = Store.feed_by_id fid (feeds w)
  /\ (forall e, In e (entries w') -> e_feed_id e = fid ->
                In e (entries w)).
Proof.
  intros Hfid w'.
  assert (Hcase : selected P feed_ids only_due w = []
                  \/ selected P feed_ids only_due w <> []).
  { destruct (selected P feed_ids only_due w); [now left | now right]. }
  destruct Hcase as [Hsel | Hne].
  - subst w'. rewrite (sweep_empty P _ _ _ _ _ Hsel). cbn [snd].
    destruct (started_frame P feed_ids only_due progress_cb w)
      as (-> & -> & _). now split.
  - destruct (sweep_nonempty P feed_ids only_due progress_cb cancel_event w
                Hne) as (j & w1 & _ & Hrun & _ & Hp & _ & _).
    subst w'. rewrite Hrun. cbn [snd].
    destruct (began_frame P feed_ids only_due progress_cb cancel_event w)
      as (Hfeeds & Hent & _).
    destruct (committed_frame (sweep_cutoff P w) w1) as (Hcf & _ & Hce).
    assert (Hout : fid ∉ List.map result_feed_id
                     (firstn j (completed P feed_ids only_due
                                          cancel_event w))).
    { rewrite list_elem_of_In. intros H. apply Hfid.
      eapply completed_ids. exact H. }
    split.
    + rewrite Hcf, (prims_other_feeds _ _ _ _ fid Hp Hout), Hfeeds.
      reflexivity.
    + intros e He Hid. apply Hce in He.
      destruct (prims_entries _ _ _ _ Hp) as (new & Hnew & Hall).
      rewrite Hnew, Hent in He. apply List.in_app_iff in He as [He|He];
        [exact He|].
      rewrite List.Forall_forall in Hall.
      destruct (Hall e He) as (Hin & _). rewrite Hid in Hin.
      contradiction.
Qed.

(** A sweep that was given no cancellation event reconciles every feed it
    selected, prunes, and commits. *)
Lemma sweep_uncancelled feed_ids only_due progress_cb w :
  selected P feed_ids only_due w <> [] ->
  exists stats w',
    update_feeds_async P feed_ids only_due progress_cb false w
    = (Ok stats, w')
    /\ checked w'
       = Z.of_nat (List.length (selected P feed_ids only_due w))
    /\ sql_log w'
       = sql_log w ++ [BEGIN; DELETE_old (sweep_cutoff P w); COMMIT]
    /\ (forall e, In e (entries w') ->
                  Store.old_unbookmarked (sweep_cutoff P w) e = false).
Proof.
  intros Hne.
  destruct (sweep_nonempty P feed_ids only_due progress_cb false w Hne)
    as (j & w1 & _ & Hrun & Hj & Hp & Hch & Hstop).
  destruct (began_frame P feed_ids only_due progress_cb false w)
    as (_ & _ & Hlog & _).
  do 2 eexists. split; [exact Hrun|].
  split; [|split].
  - change (checked (committed (sweep_cutoff P w) w1)) with (checked w1).
    rewrite Hch.
    assert (Hlen : List.length (completed P feed_ids only_due false w)
                   = List.length (selected P feed_ids only_due w)).
    { unfold completed.
      rewrite (Permutation_length (as_completed_once P _)).
      now rewrite List.length_map. }
    destruct (Nat.eq_dec j (List.length
                              (completed P feed_ids only_due false w)))
      as [->|Hlt]; [now rewrite Hlen|].
    destruct (Hstop ltac:(lia)) as (Habs & _). discriminate.
  - unfold committed. cbn [sql_log with_sql_log].
    rewrite (prims_sql_log _ _ _ _ Hp), Hlog, <- List.app_assoc.
    reflexivity.
  - intros e He. unfold committed in He. cbn [entries with_sql_log
      with_entries] in He.
    now apply delete_old_In in He.
Qed.

End SweepFrame.

(** * Properties of the routes *)

(** ** Reading and bookmarking an entry *)

Section EntryFacts.

Lemma entry_by_id_update_same set id es :
  (forall e, e_id (set e) = e_id e) ->
  Tables.entry_by_id id (Tables.update_entry set id es)
  = option_map set (Tables.entry_by_id id es).
Proof.
  intros Hid. unfold Tables.entry_by_id, Tables.update_entry.
  induction es as [|e es IH]; [reflexivity|]. cbn.
  destruct (e_id e =? id) eqn:E.
  - rewrite Hid, E. reflexivity.
  - rewrite E. exact IH.
Qed.

Lemma entry_by_id_update_other set id j es :
  (forall e, e_id (set e) = e_id e) -> j <> id ->
  Tables.entry_by_id j (Tables.update_entry set id es)
  = Tables.entry_by_id j es.
Proof.
  intros Hid Hj. unfold Tables.entry_by_id, Tables.update_entry.
  induction es as [|e es IH]; [reflexivity|]. cbn.
  destruct (e_id e =? id) eqn:E.
  - rewrite Hid. destruct (e_id e =? j) eqn:E'; [lia | exact IH].
  - destruct (e_id e =? j); [reflexivity | exact IH].
Qed.


Lemma In_update_entry set id es e :
  In e (Tables.update_entry set id es) ->
  exists r, In r es
            /\ ((e_id r = id /\ e = set r) \/ (e_id r <> id /\ e = r)).
Proof.
  unfold Tables.update_entry. intros H.
  apply List.in_map_iff in H as (r & <- & Hr). exists r.
  split; [exact Hr|]. destruct (e_id r =? id) eqn:E.
  - left. split; [lia | reflexivity].
  - right. split; [lia | reflexivity].
Qed.

Lemma entry_by_id_In id es r :
  Tables.entry_by_id id es = Some r -> In r es /\ e_id r = id.
Proof.
  unfold Tables.entry_by_id. intros H. apply List.find_some in H.
  destruct H as (Hin & E). split; [exact Hin | lia].
Qed.

Variable P : Platform.

Lemma api_mark_read_run id w :
  Routes.api_mark_read P id w
  = (Ok tt,
     with_sql_log (sql_log w ++ [COMMIT])
       (with_entries
          (Tables.update_entry
             (Routes.set_read_at (clock P (clock_reads w))) id (entries w))
          (with_clock_reads (S (clock_reads w)) w))).
Proof. reflexivity. Qed.

Lemma api_toggle_bookmark_run id w r :
  Tables.entry_by_id id (entries w) = Some r ->
  Routes.api_toggle_bookmark id w
  = (Ok (if negb (int_or_0 (e_bookmarked r) =? 0) then 0 else 1),
     with_sql_log (sql_log w ++ [COMMIT])
       (with_entries
          (Tables.update_entry
             (Routes.set_bookmarked
                (if negb (int_or_0 (e_bookmarked r) =? 0) then 0 else 1))
             id (entries w)) w)).
Proof.
  intros H. unfold Routes.api_toggle_bookmark.
  unfold bind at 1, gets. rewrite H. reflexivity.
Qed.

End EntryFacts.

(** X10. Toggling a bookmark twice gives the flag back. The first call
    answers 1 for an entry whose flag is 0 or NULL and 0 for any other
    flag, the second call answers the opposite; after both, the entry is
    as it was when its flag was 0 or 1, every other entry is untouched all
    along, and so is the feeds table. *)
Theorem toggle_bookmark_twice
    (id : Z) (w : World) (r : EntryRow) :
  Tables.entry_by_id id (entries w) = Some r ->
  exists b w1 w2,
    Routes.api_toggle_bookmark id w = (Ok b, w1)
    /\ b = (if int_or_0 (e_bookmarked r) =? 0 then 1 else 0)
    /\ Routes.api_toggle_bookmark id w1 = (Ok (1 - b), w2)
    /\ Tables.entry_by_id id (entries w2)
       = Some (Routes.set_bookmarked (1 - b) r)
    /\ (e_bookmarked r = Some 0 \/ e_bookmarked r = Some 1 ->
        Tables.entry_by_id id (entries w2) = Some r)
    /\ (forall j, j <> id ->
          Tables.entry_by_id j (entries w2)
          = Tables.entry_by_id j (entries w))
    /\ feeds w2 = feeds w.
Proof.
  intros Hr.
  set (b := if int_or_0 (e_bookmarked r) =? 0 then 1 else 0).
  assert (Hb : (if negb (int_or_0 (e_bookmarked r) =? 0) then 0 else 1)
               = b).
  { unfold b. now destruct (int_or_0 (e_bookmarked r) =? 0). }
  pose proof (api_toggle_bookmark_run id w r Hr) as Hrun1.
  rewrite Hb in Hrun1.
  set (w1 := with_sql_log (sql_log w ++ [COMMIT])
               (with_entries
                  (Tables.update_entry (Routes.set_bookmarked b) id
                                       (entries w)) w)) in *.
  assert (Hr1 : Tables.entry_by_id id (entries w1)
                = Some (Routes.set_bookmarked b r)).
  { cbn [w1 entries with_sql_log with_entries].
    rewrite entry_by_id_update_same by reflexivity. now rewrite Hr. }
  pose proof (api_toggle_bookmark_run id w1 _ Hr1) as Hrun2.
  assert (Hb2 : (if negb (int_or_0
                            (e_bookmarked (Routes.set_bookmarked b r))
                          =? 0) then 0 else 1) = 1 - b).
  { cbn. unfold b. now destruct (int_or_0 (e_bookmarked r) =? 0). }
  rewrite Hb2 in Hrun2.
  eexists b, w1, _. split; [exact Hrun1|]. split; [reflexivity|].
  split; [exact Hrun2|].
  cbn [entries feeds with_sql_log with_entries].
  assert (Hfin : Tables.entry_by_id id
                   (Tables.update_entry (Routes.set_bookmarked (1 - b)) id
                                        (entries w1))
                 = Some (Routes.set_bookmarked (1 - b) r)).
  { rewrite entry_by_id_update_same by reflexivity. rewrite Hr1.
    reflexivity. }
  split; [exact Hfin|]. split; [|split].
  - intros Hflag. rewrite Hfin. f_equal. unfold b.
    destruct r as [i f g t l p c ra bk ca]. cbn in *.
    destruct Hflag as [-> | ->]; reflexivity.
  - intros j Hj. rewrite entry_by_id_update_other by (auto; reflexivity).
    cbn [w1 entries with_sql_log with_entries].
    now rewrite entry_by_id_update_other by (auto; reflexivity).
  - reflexivity.
Qed.

Lemma toggle_bookmark_twice_witness :
  exists w1 w2,
    Routes.api_toggle_bookmark 2 (demo_world None) = (Ok 1, w1)
    /\ Routes.api_toggle_bookmark 2 w1 = (Ok 0, w2)
    /\ Tables.entry_by_id 2 (entries w2) = Some demo_old_dropped.
Proof.
  destruct (toggle_bookmark_twice 2 (demo_world None) demo_old_dropped
              eq_refl)
    as (b & w1 & w2 & Hrun1 & Hb & Hrun2 & _ & Hsame & _).
  cbn in Hb. subst b.
  exists w1, w2. split; [exact Hrun1|]. split; [exact Hrun2|].
  apply Hsame. now left.
Defined.



(** X12. Bookmarks and retention. After a toggle that answers 1 the
    retention DELETE keeps the entry whatever the cutoff; after one that
    answers 0 the DELETE removes it as soon as the cutoff is above its
    publication time. Marking an entry read changes its [read_at] only,
    so it never changes what the DELETE removes. *)
Theorem bookmark_controls_pruning
    (P : Platform) (id : Z) (w : World) (r : EntryRow) :
  Tables.entry_by_id id (entries w) = Some r ->
  (exists b w1,
     Routes.api_toggle_bookmark id w = (Ok b, w1)
     /\ (b = 1 ->
         forall cutoff,
           In (Routes.set_bookmarked 1 r)
              (Store.delete_old cutoff (entries w1)))
     /\ (b = 0 ->
         forall cutoff p e,
           e_published r = Some p -> p < cutoff ->
           In e (Store.delete_old cutoff (entries w1)) ->
           e <> Routes.set_bookmarked 0 r))
  /\ (exists w2,
        Routes.api_mark_read P id w = (Ok tt, w2)
        /\ forall cutoff,
             List.map e_id (Store.delete_old cutoff (entries w2))
             = List.map e_id (Store.delete_old cutoff (entries w))).
Proof.
  intros Hr. destruct (entry_by_id_In _ _ _ Hr) as (Hin & Hid). split.
  - eexists _, _. split; [apply (api_toggle_bookmark_run id w r Hr)|].
    cbn [entries with_sql_log with_entries]. split.
    + intros Hb cutoff. rewrite Hb. apply delete_old_In. split.
      * unfold Tables.update_entry. apply List.in_map_iff.
        exists r. split; [|exact Hin].
        rewrite Hid, Z.eqb_refl. reflexivity.
      * unfold Store.old_unbookmarked. cbn.
        destruct (e_published r); [apply andb_false_r | reflexivity].
    + intros Hb cutoff p e Hp Hlt He ->.
      apply delete_old_In in He as (_ & Hold).
      unfold Store.old_unbookmarked in Hold. cbn in Hold.
      rewrite Hp in Hold.
      assert ((p <? cutoff) = true) by lia. rewrite H in Hold.
      discriminate.
  - eexists. split; [apply api_mark_read_run|].
    intros cutoff.
    cbn [entries with_sql_log with_entries with_clock_reads].
    unfold Store.delete_old, Tables.update_entry.
    clear Hr Hin. generalize (clock P (clock_reads w)) as t.
    generalize (entries w) as es. intros es t.
    induction es as [|e es IH]; [reflexivity|]. cbn.
    assert (Hsame : Store.old_unbookmarked cutoff
                      (if e_id e =? id then Routes.set_read_at t e else e)
                    = Store.old_unbookmarked cutoff e).
    { now destruct (e_id e =? id). }
    rewrite Hsame. destruct (Store.old_unbookmarked cutoff e); cbn.
    + exact IH.
    + rewrite IH. f_equal. now destruct (e_id e =? id).
Qed.

Lemma bookmark_controls_pruning_witness :
  exists w1,
    Routes.api_toggle_bookmark 2 (demo_world None) = (Ok 1, w1)
    /\ In (Routes.set_bookmarked 1 demo_old_dropped)
          (Store.delete_old 1697408000 (entries w1)).
Proof.
  destruct (bookmark_controls_pruning demo 2 (demo_world None)
              demo_old_dropped eq_refl)
    as ((b & w1 & Hrun & Hkeep & _) & _).
  assert (Hb : b = 1).
  { vm_compute in Hrun. now injection Hrun as <- _. }
  subst b. exists w1. split; [exact Hrun|]. now apply Hkeep.
Defined.

(** ** Which feeds exist *)

Section FeedKeyFacts.

Variable P : Platform.

Lemma update_feed_keys set fid fs :
  (forall r, f_id (set r) = f_id r) ->
  (forall r, f_url (set r) = f_url r) ->
  feed_keys (Store.update_feed set fid fs) = feed_keys fs.
Proof.
  intros Hid Hurl. unfold feed_keys, Store.update_feed.
  rewrite List.map_map. apply List.map_ext. intros r.
  destruct (f_id r =? fid); [now rewrite Hid, Hurl | reflexivity].
Qed.

Lemma reconcile_feed_keys cancel_event progress_cb cutoff total r w w' :
  reconcile P cancel_event progress_cb cutoff total r w = (Ok tt, w') ->
  feed_keys (feeds w') = feed_keys (feeds w).
Proof.
  assert (Hgoal : exists w1,
            reconcile P cancel_event progress_cb cutoff total r w
            = (Ok tt, reported progress_cb total (cur_url_of r w) w1)
            /\ feed_keys (feeds w1) = feed_keys (feeds w)).
  { destruct r as [fid | fid status | fid payload etag last_mod | fid msg].
    - eexists. split.
      + apply reconcile_of_kind_ok. cbn [reconcile_kind].
        apply reconcile_not_modified_run.
      + cbn [feeds with_feeds]. now apply update_feed_keys.
    - destruct (Store.feed_by_id fid (feeds w)) as [row|] eqn:Hrow.
      + eexists. split.
        * apply reconcile_of_kind_ok. cbn [reconcile_kind].
          apply (reconcile_error_run P fid (counted w) row). exact Hrow.
        * cbn [feeds with_feeds]. now apply update_feed_keys.
      + eexists. split.
        * eapply reconcile_of_kind_raise. cbn [reconcile_kind].
          apply (reconcile_error_missing P fid (counted w)). exact Hrow.
        * reflexivity.
    - destruct (reconcile_ok_run P cancel_event cutoff fid payload etag
                  last_mod (counted w))
        as (added & wl & _ & _ & Hframe & Hrun).
      eexists. split.
      + apply (reconcile_of_kind_ok P). cbn [reconcile_kind]. exact Hrun.
      + destruct Hframe as (Hf & _).
        unfold rescheduled. cbn [feeds with_feeds].
        rewrite !update_feed_keys by reflexivity.
        assert (Hb : feeds (bumped added wl) = feeds wl)
          by now destruct added.
        rewrite Hb, Hf. unfold fetched. cbn [feeds with_feeds].
        now apply update_feed_keys.
    - destruct (Store.feed_by_id fid (feeds w)) as [row|] eqn:Hrow.
      + eexists. split.
        * apply reconcile_of_kind_ok. cbn [reconcile_kind].
          apply (reconcile_error_run P fid (counted w) row). exact Hrow.
        * cbn [feeds with_feeds]. now apply update_feed_keys.
      + eexists. split.
        * eapply reconcile_of_kind_raise. cbn [reconcile_kind].
          apply (reconcile_error_missing P fid (counted w)). exact Hrow.
        * reflexivity. }
  destruct Hgoal as (w1 & Hrun & Hkeys). intros H.
  rewrite Hrun in H. injection H as <-.
  now rewrite feeds_reported.
Qed.

Lemma consume_feed_keys cancel_event progress_cb cutoff total rs w w' :
  consume P cancel_event progress_cb cutoff total rs w = (Ok tt, w') ->
  feed_keys (feeds w') = feed_keys (feeds w).
Proof.
  revert w. induction rs as [|r rest IH]; intros w.
  - cbn. intros H. now injection H as <-.
  - cbn [consume].
    destruct (cancelled_cases [] cutoff cancel_event w)
      as [(Hc & _ & _) | (wp & Hc & _ & Hwp & _)].
    + erewrite bind_ok by exact Hc. cbn. intros H. now injection H as <-.
    + erewrite bind_ok by exact Hc. cbv beta iota.
      destruct (reconcile_run P cancel_event progress_cb cutoff total r wp)
        as (w1 & Hrec & _).
      erewrite bind_ok by exact Hrec. cbv beta. intros H.
      rewrite (IH _ H), (reconcile_feed_keys _ _ _ _ _ _ _ Hrec).
      rewrite Hwp. reflexivity.
Qed.

(** A sweep never adds, removes, renumbers or renames a feed. *)
Lemma sweep_feed_keys feed_ids only_due progress_cb cancel_event w :
  feed_keys
    (feeds (snd (update_feeds_async P feed_ids only_due progress_cb
                                    cancel_event w)))
  = feed_keys (feeds w).
Proof.
  assert (Hcase : selected P feed_ids only_due w = []
                  \/ selected P feed_ids only_due w <> []).
  { destruct (selected P feed_ids only_due w); [now left | now right]. }
  destruct Hcase as [Hsel | Hne].
  - rewrite (sweep_empty P _ _ _ _ _ Hsel). cbn [snd].
    now destruct (started_frame P feed_ids only_due progress_cb w)
      as (-> & _).
  - destruct (sweep_nonempty P feed_ids only_due progress_cb cancel_event w
                Hne) as (j & w1 & Hcons & Hrun & _).
    rewrite Hrun. cbn [snd].
    change (feeds (committed (sweep_cutoff P w) w1)) with (feeds w1).
    rewrite (consume_feed_keys _ _ _ _ _ _ _ Hcons).
    now destruct (began_frame P feed_ids only_due progress_cb
                              cancel_event w) as (-> & _).
Qed.

Lemma feed_keys_ids fs : List.map fst (feed_keys fs) = List.map f_id fs.
Proof. unfold feed_keys. rewrite List.map_map. reflexivity. Qed.

Lemma feed_keys_urls fs : List.map snd (feed_keys fs) = List.map f_url fs.
Proof. unfold feed_keys. rewrite List.map_map. reflexivity. Qed.

(** A sweep keeps the foreign key of [entries]. *)
Lemma sweep_no_orphans feed_ids only_due progress_cb cancel_event w :
  no_orphans (feeds w) (entries w) ->
  let w' := snd (update_feeds_async P feed_ids only_due progress_cb
                                    cancel_event w) in
  no_orphans (feeds w') (entries w').
Proof.
  intros Hno w' e He.
  rewrite <- feed_keys_ids. unfold w'. rewrite sweep_feed_keys.
  rewrite feed_keys_ids.
  destruct (List.in_dec Z.eq_dec (e_feed_id e)
              (List.map f_id (selected P feed_ids only_due w)))
    as [Hsel | Hout].
  - apply List.in_map_iff in Hsel as (f & Hid & Hf).
    rewrite <- Hid. apply List.in_map.
    unfold selected in Hf. destruct feed_ids as [|i ids].
    + destruct only_due; [|exact Hf].
      unfold Store.feeds_due in Hf. now apply List.filter_In in Hf.
    + unfold Store.feeds_in in Hf. now apply List.filter_In in Hf.
  - apply Hno.
    destruct (sweep_frame P feed_ids only_due progress_cb cancel_event w
                (e_feed_id e) Hout) as (_ & Hent).
    now apply Hent.
Qed.

End FeedKeyFacts.

(** X13. A sweep never adds, removes, renumbers or renames a feed: the
    ids and urls of the feeds table are the same, in the same order,
    before and after, whatever was fetched and whether or not the sweep
    was cancelled. It also keeps the foreign key of [entries], which
    SQLite is not asked to check: when every entry belonged to a stored
    feed before, every entry does after. *)
Theorem sweep_keeps_the_feed_list
    (P : Platform) (feed_ids : list Z)
    (only_due progress_cb cancel_event : bool) (w : World) :
  let w' := snd (update_feeds_async P feed_ids only_due progress_cb
                                    cancel_event w) in
  feed_keys (feeds w') = feed_keys (feeds w)
  /\ (no_orphans (feeds w) (entries w) ->
      no_orphans (feeds w') (entries w')).
Proof.
  split; [apply sweep_feed_keys | apply sweep_no_orphans].
Qed.

(** ** Rows of the feed table *)

Section FeedTableFacts.

Lemma feed_by_id_In fid fs row :
  Store.feed_by_id fid fs = Some row -> In row fs /\ f_id row = fid.
Proof.
  unfold Store.feed_by_id. intros H. apply List.find_some in H.
  destruct H as (Hin & E). split; [exact Hin | lia].
Qed.

Lemma feed_by_id_None fid fs :
  Store.feed_by_id fid fs = None <-> ~ In fid (List.map f_id fs).
Proof.
  unfold Store.feed_by_id. split.
  - intros H Hin. apply List.in_map_iff in Hin as (r & Hid & Hr).
    pose proof (List.find_none _ _ H r Hr) as E. cbn in E. lia.
  - intros H. destruct (List.find _ fs) as [r|] eqn:E; [|reflexivity].
    apply List.find_some in E as (Hin & Hid). elim H.
    apply List.in_map_iff. exists r. split; [lia | exact Hin].
Qed.

Lemma feed_by_id_delete_same fid fs :
  Store.feed_by_id fid (Tables.delete_feed fid fs) = None.
Proof.
  apply feed_by_id_None. intros Hin.
  apply List.in_map_iff in Hin as (r & Hid & Hr).
  unfold Tables.delete_feed in Hr. apply List.filter_In in Hr as (_ & E).
  rewrite Hid, Z.eqb_refl in E. discriminate.
Qed.

Lemma feed_by_id_delete_other fid j fs :
  j <> fid ->
  Store.feed_by_id j (Tables.delete_feed fid fs) = Store.feed_by_id j fs.
Proof.
  intros Hj. unfold Store.feed_by_id, Tables.delete_feed.
  induction fs as [|r fs IH]; [reflexivity|]. cbn.
  destruct (f_id r =? fid) eqn:E; cbn.
  - destruct (f_id r =? j) eqn:E'; [lia | exact IH].
  - destruct (f_id r =? j); [reflexivity | exact IH].
Qed.

End FeedTableFacts.

(** ** The feeds a sweep reconciles *)

Section SweptFacts.

Variable P : Platform.

Lemma clock_reads_reported progress_cb total url w :
  clock_reads (reported progress_cb total url w) = clock_reads w.
Proof. unfold reported. now destruct progress_cb. Qed.

(** The reconciliation of a result stamps the row of its feed: whatever
    the kind of the result, [last_fetch] becomes the clock reading the
    reconciliation starts with. *)
Lemma reconcile_stamps cancel_event progress_cb cutoff total r w row :
  Store.feed_by_id (result_feed_id r) (feeds w) = Some row ->
  exists w' row',
    reconcile P cancel_event progress_cb cutoff total r w = (Ok tt, w')
    /\ Store.feed_by_id (result_feed_id r) (feeds w') = Some row'
    /\ f_last_fetch row' = Some (clock P (clock_reads w))
    /\ (clock_reads w < clock_reads w')%nat.
Proof.
  intros Hrow.
  destruct (is_failure r) eqn:Hfail.
  { eexists _, _. split.
    - now apply (reconcile_failure_run P _ _ _ _ r w row).
    - rewrite feeds_reported, clock_reads_reported.
      cbn [feeds with_feeds clock_reads with_clock_reads].
      rewrite feed_by_id_update_same by reflexivity. rewrite Hrow.
      split; [reflexivity|]. split; [reflexivity | lia]. }
  destruct r as [fid | fid status | fid payload etag last_mod | fid msg];
    try discriminate Hfail; cbn [result_feed_id] in *.
  - eexists _, _. split.
    + apply (reconcile_of_kind_ok P). cbn [reconcile_kind].
      apply (reconcile_not_modified_run P).
    + rewrite feeds_reported, clock_reads_reported.
      cbn [feeds with_feeds clock_reads with_clock_reads counted
           with_counters].
      rewrite feed_by_id_update_same by reflexivity. rewrite Hrow.
      split; [reflexivity|]. split; [reflexivity | lia].
  - destruct (reconcile_ok_run P cancel_event cutoff fid payload etag
                last_mod (counted w))
      as (added & w1 & _ & Hp & Hframe & Hrun).
    destruct Hframe as (Hf & _).
    pose proof (prims_clock_reads _ _ _ _ Hp) as Hclock.
    assert (Hb : feeds (bumped added w1) = feeds w1) by now destruct added.
    assert (Hbc : clock_reads (bumped added w1) = clock_reads w1)
      by now destruct added.
    eexists _, _. split.
    + apply (reconcile_of_kind_ok P). cbn [reconcile_kind]. exact Hrun.
    + rewrite feeds_reported, clock_reads_reported.
      unfold rescheduled.
      cbn [feeds with_feeds clock_reads with_clock_reads].
      rewrite !feed_by_id_update_same by reflexivity.
      rewrite Hb, Hf, Hbc. unfold fetched in *.
      cbn [feeds with_feeds clock_reads with_clock_reads counted
           with_counters] in *.
      rewrite feed_by_id_update_same by reflexivity. rewrite Hrow.
      split; [reflexivity|]. split; [reflexivity | lia].
Qed.

Lemma feed_keys_known fid fs fs' :
  feed_keys fs' = feed_keys fs ->
  Store.feed_by_id fid fs <> None -> Store.feed_by_id fid fs' <> None.
Proof.
  intros Hkeys Hsome Hnone. apply Hsome.
  apply feed_by_id_None. apply feed_by_id_None in Hnone.
  now rewrite <- feed_keys_ids, <- Hkeys, feed_keys_ids.
Qed.

(** The loop over the completed tasks stamps the feed of every result it
    reconciles with a clock reading taken during the loop, and leaves the
    rows of the other feeds as they are. *)
Lemma consume_stamps cancel_event progress_cb cutoff total rs w :
  (forall r, In r rs ->
             Store.feed_by_id (result_feed_id r) (feeds w) <> None) ->
  exists j w',
    consume P cancel_event progress_cb cutoff total rs w = (Ok tt, w')
    /\ checked w' = checked w + Z.of_nat j
    /\ (clock_reads w <= clock_reads w')%nat
    /\ (forall fid,
          ~ In fid (List.map result_feed_id (firstn j rs)) ->
          Store.feed_by_id fid (feeds w') = Store.feed_by_id fid (feeds w))
    /\ (forall fid,
          In fid (List.map result_feed_id (firstn j rs)) ->
          exists row' n,
            Store.feed_by_id fid (feeds w') = Some row'
            /\ f_last_fetch row' = Some (clock P n)
            /\ (clock_reads w <= n < clock_reads w')%nat).
Proof.
  revert w. induction rs as [|r rs IH]; intros w Hknown.
  - exists O, w. cbn. repeat split; try lia; try (intros ? []).
  - cbn [consume].
    destruct (cancelled_cases [] cutoff cancel_event w)
      as [(Hc & _ & _) | (wp & Hc & _ & Hwp & _)];
      rewrite (bind_ok _ _ _ _ _ Hc).
    + exists O, w. cbn. repeat split; try lia; try (intros ? []).
    + assert (Ef : feeds wp = feeds w) by (rewrite Hwp; reflexivity).
      assert (Ec : clock_reads wp = clock_reads w)
        by (rewrite Hwp; reflexivity).
      assert (Eh : checked wp = checked w) by (rewrite Hwp; reflexivity).
      destruct (Store.feed_by_id (result_feed_id r) (feeds wp))
        as [row|] eqn:Hrow.
      2:{ elim (Hknown r (or_introl eq_refl)). now rewrite <- Ef. }
      destruct (reconcile_stamps cancel_event progress_cb cutoff total r wp
                  row Hrow) as (w1 & row1 & Hrec & Hrow1 & Hstamp & Hlt).
      destruct (reconcile_run P cancel_event progress_cb cutoff total r wp)
        as (w1' & Hrec' & Hp1 & Hch1 & _).
      rewrite Hrec in Hrec'. injection Hrec' as <-.
      rewrite (bind_ok _ _ _ _ _ Hrec).
      pose proof (reconcile_feed_keys P _ _ _ _ _ _ _ Hrec) as Hkeys.
      destruct (IH w1) as (j & w' & Hrest & Hch & Hclock & Hframe & Hst).
      { intros r' Hr'. apply (feed_keys_known _ (feeds wp) _ Hkeys).
        rewrite Ef. apply Hknown. now right. }
      exists (S j), w'. split; [exact Hrest|].
      split; [lia|]. split; [lia|]. split.
      * intros fid Hout. cbn [firstn List.map] in Hout.
        rewrite Hframe by (intros H; apply Hout; now right).
        rewrite (prims_other_feeds _ _ _ _ fid Hp1), Ef; [reflexivity|].
        intros H. apply list_elem_of_In in H. destruct H as [<-|[]].
        apply Hout. now left.
      * intros fid Hin. cbn [firstn List.map] in Hin.
        destruct (List.in_dec Z.eq_dec fid
                    (List.map result_feed_id (firstn j rs))) as [Hi|Ho].
        -- destruct (Hst fid Hi) as (row' & n & Hr' & Hs' & Hn).
           exists row', n. split; [exact Hr'|]. split; [exact Hs'|]. lia.
        -- destruct Hin as [<- | Hin]; [|contradiction].
           exists row1, (clock_reads wp).
           split; [now rewrite (Hframe _ Ho)|].
           split; [exact Hstamp|]. lia.
Qed.

(** A sweep that was given no cancellation event reconciles every feed it
    selected: each of them is stamped with a clock reading taken during
    the sweep. *)
Lemma sweep_stamps feed_ids only_due progress_cb w f :
  In f (selected P feed_ids only_due w) ->
  let w' := snd (update_feeds_async P feed_ids only_due progress_cb false
                                    w) in
  exists row' n,
    Store.feed_by_id (f_id f) (feeds w') = Some row'
    /\ f_last_fetch row' = Some (clock P n)
    /\ (clock_reads w <= n < clock_reads w')%nat.
Proof.
  intros Hf w'.
  assert (Hne : selected P feed_ids only_due w <> [])
    by (intros E; rewrite E in Hf; exact Hf).
  assert (Hsub : forall g, In g (selected P feed_ids only_due w) ->
                           In g (feeds w)).
  { intros g Hg. unfold selected in Hg. destruct feed_ids as [|i ids].
    - destruct only_due; [|exact Hg].
      unfold Store.feeds_due in Hg. now apply List.filter_In in Hg.
    - unfold Store.feeds_in in Hg. now apply List.filter_In in Hg. }
  destruct (began_frame P feed_ids only_due progress_cb false w)
    as (Hfeeds & _ & _ & Hch0 & _).
  set (wb := began P feed_ids only_due progress_cb false w) in *.
  set (results := completed P feed_ids only_due false w).
  assert (Hres : forall r, In r results ->
                   exists g, In g (selected P feed_ids only_due w)
                             /\ result_feed_id r = f_id g).
  { intros r Hr. unfold results, completed in Hr.
    apply (Permutation_in _ (as_completed_once P _)) in Hr.
    apply List.in_map_iff in Hr as (g & <- & Hg).
    exists g. split; [eapply dispatched_incl; exact Hg
                     | apply fetch_one_feed_id]. }
  destruct (consume_stamps false progress_cb (sweep_cutoff P w)
              (Z.of_nat (List.length (selected P feed_ids only_due w)))
              results wb)
    as (j & w1 & Hcons & Hch & Hclock & _ & Hst).
  { intros r Hr. destruct (Hres r Hr) as (g & Hg & ->).
    rewrite Hfeeds. intros Hnone. apply feed_by_id_None in Hnone.
    apply Hnone. apply List.in_map. now apply Hsub. }
  destruct (sweep_nonempty P feed_ids only_due progress_cb false w Hne)
    as (j' & w1' & Hcons' & Hrun & Hj & _ & Hch' & Hstop).
  fold results wb in Hcons', Hj, Hstop.
  rewrite Hcons in Hcons'. injection Hcons' as <-.
  assert (j' = j) by lia. subst j'.
  assert (Hall : j = List.length results).
  { destruct (Nat.eq_dec j (List.length results)) as [|Hn]; [assumption|].
    destruct (Hstop ltac:(lia)) as (Habs & _). discriminate. }
  assert (Hin : In (f_id f) (List.map result_feed_id (firstn j results))).
  { rewrite Hall, List.firstn_all. unfold results, completed.
    apply List.in_map_iff. exists (fetch_one P f).
    split; [apply fetch_one_feed_id|].
    eapply Permutation_in;
      [apply Permutation_sym, (as_completed_once P)|].
    now apply List.in_map. }
  destruct (Hst _ Hin) as (row' & n & Hrow' & Hstamp & Hn).
  assert (Hwb : (clock_reads w <= clock_reads wb)%nat).
  { unfold wb, began, started. cbn -[selected polled].
    destruct progress_cb, feed_ids, only_due; cbn; lia. }
  exists row', n. subst w'. rewrite Hrun.
  change (feeds (snd (Ok (mkStats (checked w1) (updated w1) (errors w1)
                            (Z.of_nat (List.length
                               (selected P feed_ids only_due w)))),
                      committed (sweep_cutoff P w) w1)))
    with (feeds w1).
  change (clock_reads
            (snd (Ok (mkStats (checked w1) (updated w1) (errors w1)
                        (Z.of_nat (List.length
                           (selected P feed_ids only_due w)))),
                  committed (sweep_cutoff P w) w1)))
    with (clock_reads w1).
  split; [exact Hrow'|]. split; [exact Hstamp|]. lia.
Qed.

(** The sweep over one feed: its fetch result is reconciled, then the
    retention DELETE and the COMMIT follow. *)
Lemma sweep_one fid w row :
  Store.feeds_in [fid] (feeds w) = [row] ->
  exists w1,
    reconcile P false false (sweep_cutoff P w) 1 (fetch_one P row)
              (began P [fid] false false false w) = (Ok tt, w1)
    /\ snd (update_feeds_async P [fid] false false false w)
       = committed (sweep_cutoff P w) w1.
Proof.
  intros Hsel.
  assert (Hs : selected P [fid] false w = [row]) by exact Hsel.
  assert (Hne : selected P [fid] false w <> [])
    by (rewrite Hs; discriminate).
  destruct (sweep_nonempty P [fid] false false false w Hne)
    as (j & w1 & Hcons & Hrun & _).
  assert (Hcompleted : completed P [fid] false false w
                       = [fetch_one P row]).
  { unfold completed. rewrite Hs. cbn [dispatched List.map].
    pose proof (as_completed_once P [fetch_one P row]) as Hp.
    apply Permutation_sym in Hp.
    now apply Permutation_length_1_inv in Hp. }
  rewrite Hcompleted, Hs in Hcons. cbn [List.length] in Hcons.
  change (Z.of_nat 1) with 1 in Hcons.
  cbn [consume cancelled] in Hcons.
  unfold bind at 1 in Hcons. unfold ret at 1 in Hcons.
  destruct (reconcile_run P false false (sweep_cutoff P w) 1
              (fetch_one P row) (began P [fid] false false false w))
    as (w1' & Hrec & _).
  erewrite bind_ok in Hcons by exact Hrec. cbn in Hcons.
  injection Hcons as <-.
  exists w1'. split; [exact Hrec|]. rewrite Hrun. reflexivity.
Qed.

End SweptFacts.

(** X8. One iteration of the scheduler never raises. It does nothing at
    all when the scheduler is disabled or the write lock is taken.
    Otherwise it is a sweep, without progress reports and without a
    cancellation event, of the feeds that are due at the time of the
    query: every one of them is reconciled - its row carries a
    [last_fetch] read from the clock during this iteration - and
    [checked] ends as their number; when at least one feed was due the
    iteration is one transaction that ends with the retention DELETE, so
    that no old unbookmarked entry is left. A feed that is not among the
    due ones keeps its row and gains no entry. *)
Theorem scheduler_tick_sweeps_the_due_feeds
    (P : Platform) (enabled lock_free : bool) (w : World) :
  let due := Store.feeds_due (clock P (S (clock_reads w))) (feeds w) in
  exists w',
    Callers.scheduler_tick P enabled lock_free w = (Ok tt, w')
    /\ (enabled = false \/ lock_free = false -> w' = w)
    /\ (enabled = true -> lock_free = true ->
        w' = snd (update_feeds_async P [] true false false w)
        /\ checked w' = Z.of_nat (List.length due)
        /\ (forall f, In f due ->
              exists row' n,
                Store.feed_by_id (f_id f) (feeds w') = Some row'
                /\ f_last_fetch row' = Some (clock P n)
                /\ (clock_reads w <= n < clock_reads w')%nat)
        /\ (due <> [] ->
            sql_log w'
            = sql_log w ++ [BEGIN; DELETE_old (sweep_cutoff P w); COMMIT]
            /\ forall e, In e (entries w') ->
                 Store.old_unbookmarked (sweep_cutoff P w) e = false))
    /\ progress_log w' = progress_log w
    /\ forall fid,
         ~ In fid (List.map f_id due) ->
         Store.feed_by_id fid (feeds w') = Store.feed_by_id fid (feeds w)
         /\ (forall e, In e (entries w') -> e_feed_id e = fid ->
                       In e (entries w)).
Proof.
  intros due. unfold Callers.scheduler_tick.
  destruct enabled; cbn [negb].
  2:{ exists w. split; [reflexivity|]. split; [reflexivity|].
      split; [discriminate|]. split; [reflexivity|]. now split. }
  destruct lock_free; cbn [negb].
  2:{ exists w. split; [reflexivity|]. split; [reflexivity|].
      split; [discriminate|]. split; [reflexivity|]. now split. }
  destruct (sweep_counters P [] true false false w)
    as (j & u & e & w' & reports & Hrun & _ & _ & _ & Hlog & _).
  assert (Hw' : w' = snd (update_feeds_async P [] true false false w))
    by now rewrite Hrun.
  exists w'. split.
  { unfold try_except. erewrite bind_ok by exact Hrun. reflexivity. }
  split; [intros [H|H]; discriminate|].
  split.
  { intros _ _. split; [exact Hw'|]. split; [|split].
    - assert (Hcase : due = [] \/ due <> [])
        by (destruct due; [now left | now right]).
      destruct Hcase as [He | Hne].
      + rewrite Hw', (sweep_empty P [] true false false w He), He.
        reflexivity.
      + destruct (sweep_uncancelled P [] true false w Hne)
          as (stats & w2 & Hrun2 & Hch & _).
        rewrite Hrun in Hrun2. injection Hrun2 as _ <-. exact Hch.
    - intros f Hf. rewrite Hw'.
      apply (sweep_stamps P [] true false w f Hf).
    - intros Hne.
      destruct (sweep_uncancelled P [] true false w Hne)
        as (stats & w2 & Hrun2 & _ & Hsql & Hold).
      rewrite Hrun in Hrun2. injection Hrun2 as _ <-. now split. }
  split; [rewrite Hlog; now rewrite List.app_nil_r|].
  intros fid Hfid.
  pose proof (sweep_frame P [] true false false w fid Hfid) as Hframe.
  rewrite Hrun in Hframe. exact Hframe.
Qed.

(** X9. The refresh of one feed ([_update_one_feed_now]) does not look at
    the feed's schedule: whenever the feed has a row, the feed is fetched
    and the result of that fetch is reconciled, so that its row carries a
    [last_fetch] read from the clock during the refresh; when the id is
    that of one row only, the refresh is exactly the reconciliation of
    [fetch_one] on that row followed by the retention DELETE and the
    COMMIT. The refresh is a full sweep in every other respect: one
    transaction whose DELETE also prunes the old entries of all the other
    feeds, whose rows it leaves unchanged. *)
Theorem refresh_fetches_and_prunes
    (P : Platform) (fid : Z) (w : World) (row : FeedRow) :
  Store.feed_by_id fid (feeds w) = Some row ->
  exists w',
    Callers._update_one_feed_now P fid w = (Ok tt, w')
    /\ (exists row' n,
          Store.feed_by_id fid (feeds w') = Some row'
          /\ f_last_fetch row' = Some (clock P n)
          /\ (clock_reads w <= n < clock_reads w')%nat)
    /\ (Store.feeds_in [fid] (feeds w) = [row] ->
        exists w1,
          reconcile P false false (sweep_cutoff P w) 1 (fetch_one P row)
                    (began P [fid] false false false w) = (Ok tt, w1)
          /\ feeds w' = feeds w1
          /\ entries w'
             = Store.delete_old (sweep_cutoff P w) (entries w1)
          /\ checked w' = 1)
    /\ checked w'
       = Z.of_nat (List.length (Store.feeds_in [fid] (feeds w)))
    /\ sql_log w'
       = sql_log w ++ [BEGIN; DELETE_old (sweep_cutoff P w); COMMIT]
    /\ (forall e, In e (entries w') ->
                  Store.old_unbookmarked (sweep_cutoff P w) e = false)
    /\ (forall j, j <> fid ->
                  Store.feed_by_id j (feeds w')
                  = Store.feed_by_id j (feeds w)).
Proof.
  intros Hrow.
  assert (Hinrow : In row (feeds w) /\ f_id row = fid).
  { unfold Store.feed_by_id in Hrow. apply List.find_some in Hrow.
    destruct Hrow as (Hi & E). split; [exact Hi | lia]. }
  destruct Hinrow as (Hinrow & Hidrow).
  assert (Hin : In row (Store.feeds_in [fid] (feeds w))).
  { unfold Store.feeds_in. apply List.filter_In. split; [exact Hinrow|].
    cbn. rewrite Hidrow, Z.eqb_refl. reflexivity. }
  assert (Hne : selected P [fid] false w <> []).
  { cbn [selected]. intros E. rewrite E in Hin. exact Hin. }
  destruct (sweep_uncancelled P [fid] false false w Hne)
    as (stats & w' & Hrun & Hch & Hlog & Hold).
  assert (Hw' : w' = snd (update_feeds_async P [fid] false false false w))
    by now rewrite Hrun.
  exists w'. split.
  { unfold Callers._update_one_feed_now. erewrite bind_ok by exact Hrun.
    reflexivity. }
  cbn [selected] in Hch.
  split.
  { pose proof (sweep_stamps P [fid] false false w row Hin) as Hst.
    rewrite Hidrow, <- Hw' in Hst. exact Hst. }
  split.
  { intros Hkey. destruct (sweep_one P fid w row Hkey) as (w1 & Hrec & Hc).
    exists w1. split; [exact Hrec|]. rewrite Hw', Hc.
    split; [reflexivity|]. split; [reflexivity|].
    rewrite <- Hc, <- Hw', Hch, Hkey. reflexivity. }
  split; [exact Hch|]. split; [exact Hlog|]. split; [exact Hold|].
  intros j Hj.
  assert (Hout : ~ In j (List.map f_id (selected P [fid] false w))).
  { cbn [selected]. intros H. apply List.in_map_iff in H as (f & <- & Hf).
    unfold Store.feeds_in in Hf. apply List.filter_In in Hf as (_ & Hf).
    cbn in Hf. apply Hj. destruct (f_id f =? fid) eqn:E; [lia|discriminate]. }
  pose proof (sweep_frame P [fid] false false false w j Hout) as Hframe.
  rewrite Hrun in Hframe. apply Hframe.
Qed.

Lemma refresh_fetches_and_prunes_witness :
  exists w' w1,
    Callers._update_one_feed_now demo 2 (demo_world None) = (Ok tt, w')
    /\ reconcile demo false false (sweep_cutoff demo (demo_world None)) 1
                 (fetch_one demo demo_feed2)
                 (began demo [2] false false false (demo_world None))
       = (Ok tt, w1)
    /\ feeds w' = feeds w1
    /\ checked w' = 1
    /\ ~ In demo_old_dropped (entries w')
    /\ Store.feed_by_id 1 (feeds w') = Some demo_feed1.
Proof.
  destruct (refresh_fetches_and_prunes demo 2 (demo_world None) demo_feed2
              eq_refl)
    as (w' & Hrun & _ & Hone & _ & _ & Hold & Hframe).
  destruct (Hone eq_refl) as (w1 & Hrec & Hfeeds & _ & Hch).
  exists w', w1. split; [exact Hrun|]. split; [exact Hrec|].
  split; [exact Hfeeds|]. split; [exact Hch|]. split.
  - intros Hin. specialize (Hold _ Hin). vm_compute in Hold. discriminate.
  - apply (Hframe 1). lia.
Defined.

(** ** Deleting a feed *)

Lemma feed_delete_checked_run fid w :
  Routes.feed_delete_checked fid w
  = if fid =? 0 then (Ok (Refused 400 "id required"), w)
    else if negb (Routes.sqlite_int fid) then (Raise OverflowError, w)
    else match Store.feed_by_id fid (feeds w) with
         | None => (Ok (Refused 404 "Unknown feed"), w)
         | Some _ =>
             (Ok (Json tt),
              with_sql_log (sql_log w ++ [COMMIT])
                (with_feeds (Tables.delete_feed fid (feeds w))
                   (with_entries
                      (Tables.delete_entries_of fid (entries w)) w)))
         end.
Proof.
  unfold Routes.feed_delete_checked, Routes.bind_int.
  destruct (fid =? 0); [reflexivity|].
  destruct (Routes.sqlite_int fid); [|reflexivity]. cbn [negb].
  unfold bind at 1, ret at 1.
  unfold bind at 1, SELECT_feed, gets.
  destruct (Store.feed_by_id fid (feeds w)); reflexivity.
Qed.

Lemma api_feed_delete_run int_of_str m data w :
  Routes.api_feed_delete int_of_str m data w
  = if _any_update_job_running m
    then (Ok (Refused 409
                "Cannot modify feeds while an update is running."), w)
    else match Request.field_int int_of_str data "id" with
         | Ok fid => Routes.feed_delete_checked fid w
         | Raise e => (Raise e, w)
         end.
Proof.
  unfold Routes.api_feed_delete, Routes._require_no_running_update.
  destruct (_any_update_job_running m); [reflexivity|].
  unfold bind, Request.lift.
  destruct (Request.field_int int_of_str data "id"); reflexivity.
Qed.

(** What [int(data.get(k) or 0)] evaluates to, value by value. *)
Lemma field_int_table int_of_str data k :
  Request.field_int int_of_str data k
  = match data with
    | Request.NoJson => Ok 0
    | Request.Other truthy =>
        if truthy then Raise AttributeError else Ok 0
    | Request.Dict d =>
        match d !! k with
        | None => Ok 0
        | Some Request.Null => Ok 0
        | Some (Request.Bool b) => Ok (if b then 1 else 0)
        | Some (Request.Int n) => Ok n
        | Some (Request.Float Request.NaN) => Raise ValueError
        | Some (Request.Float (Request.Infinity _)) => Raise OverflowError
        | Some (Request.Float (Request.Finite num den)) =>
            Ok (Z.quot num (Z.pos den))
        | Some (Request.Str s) =>
            if String.eqb s EmptyString then Ok 0
            else match int_of_str s with
                 | Some n => Ok n
                 | None => Raise ValueError
                 end
        | Some (Request.Array empty) =>
            if empty then Ok 0 else Raise TypeError
        | Some (Request.Object empty) =>
            if empty then Ok 0 else Raise TypeError
        end
    end.
Proof.
  unfold Request.field_int, Request.get.
  destruct data as [|d|[|]]; try reflexivity.
  destruct (d !! k) as [[|[|]|n|[|neg|num den]|s|[|]|[|]]|];
    try reflexivity; cbn.
  - destruct (n =? 0) eqn:E; cbn; [|reflexivity].
    apply Z.eqb_eq in E. now subst.
  - destruct (num =? 0) eqn:E; cbn; [|reflexivity].
    apply Z.eqb_eq in E. subst. now rewrite Z.quot_0_l.
  - now destruct (String.eqb s EmptyString).
Qed.

(** X14. Deleting a feed. While an update job is running the route
    answers 409. Otherwise it first reads the id with
    [int(data.get('id') or 0)], and raises what that raises: AttributeError
    for a body that is a truthy JSON value but no object, ValueError for
    a string that [int] cannot read and for NaN, OverflowError for an
    infinity, TypeError for a non-empty array or object; a missing or
    falsy id reads as 0, a float is truncated. With the id read, the
    route answers 400 for 0, raises OverflowError for an id that does not
    fit an INTEGER of SQLite, and answers 404 when no feed has the id.
    Whenever it does not accept, nothing at all has changed. When it
    accepts, the feed's row and all of its entries are gone, every other
    feed and every entry of another feed is as before, and the foreign
    key of [entries] is kept although SQLite does not enforce it. *)
Theorem feed_delete_cascades
    (int_of_str : string -> option Z) (m : Manager)
    (data : Request.body) (w : World) :
  let id := Request.field_int int_of_str data "id" in
  exists r w',
    Routes.api_feed_delete int_of_str m data w = (r, w')
    /\ r = (if _any_update_job_running m
            then Ok (Refused 409
                       "Cannot modify feeds while an update is running.")
            else match id with
                 | Raise e => Raise e
                 | Ok fid =>
                     if fid =? 0 then Ok (Refused 400 "id required")
                     else if negb (Routes.sqlite_int fid)
                     then Raise OverflowError
                     else match Store.feed_by_id fid (feeds w) with
                          | None => Ok (Refused 404 "Unknown feed")
                          | Some _ => Ok (Json tt)
                          end
                 end)
    /\ id = match data with
            | Request.NoJson => Ok 0
            | Request.Other truthy =>
                if truthy then Raise AttributeError else Ok 0
            | Request.Dict d =>
                match d !! "id" with
                | None => Ok 0
                | Some Request.Null => Ok 0
                | Some (Request.Bool b) => Ok (if b then 1 else 0)
                | Some (Request.Int n) => Ok n
                | Some (Request.Float Request.NaN) => Raise ValueError
                | Some (Request.Float (Request.Infinity _)) =>
                    Raise OverflowError
                | Some (Request.Float (Request.Finite num den)) =>
                    Ok (Z.quot num (Z.pos den))
                | Some (Request.Str s) =>
                    if String.eqb s EmptyString then Ok 0
                    else match int_of_str s with
                         | Some n => Ok n
                         | None => Raise ValueError
                         end
                | Some (Request.Array empty) =>
                    if empty then Ok 0 else Raise TypeError
                | Some (Request.Object empty) =>
                    if empty then Ok 0 else Raise TypeError
                end
            end
    /\ (r <> Ok (Json tt) -> w' = w)
    /\ (r = Ok (Json tt) ->
        exists fid,
          id = Ok fid
          /\ Store.feed_by_id fid (feeds w') = None
          /\ (forall e, In e (entries w') -> e_feed_id e <> fid)
          /\ (forall j, j <> fid ->
                Store.feed_by_id j (feeds w')
                = Store.feed_by_id j (feeds w))
          /\ (forall e, e_feed_id e <> fid ->
                (In e (entries w') <-> In e (entries w)))
          /\ (no_orphans (feeds w) (entries w) ->
              no_orphans (feeds w') (entries w'))).
Proof.
  intros id. rewrite api_feed_delete_run.
  assert (Htable := field_int_table int_of_str data "id"). fold id in Htable.
  fold id.
  destruct (_any_update_job_running m).
  { eexists _, w. split; [reflexivity|]. split; [reflexivity|].
    split; [exact Htable|]. split; [reflexivity | discriminate]. }
  destruct id as [fid|e] eqn:Hid.
  2:{ eexists _, w. split; [reflexivity|]. split; [reflexivity|].
      split; [exact Htable|]. split; [reflexivity | discriminate]. }
  rewrite feed_delete_checked_run.
  destruct (fid =? 0) eqn:E0.
  { eexists _, w. split; [reflexivity|]. split; [reflexivity|].
    split; [exact Htable|]. split; [reflexivity | discriminate]. }
  destruct (Routes.sqlite_int fid) eqn:Hint; cbn [negb].
  2:{ eexists _, w. split; [reflexivity|]. split; [reflexivity|].
      split; [exact Htable|]. split; [reflexivity | discriminate]. }
  destruct (Store.feed_by_id fid (feeds w)) as [row|] eqn:Hrow.
  2:{ eexists _, w. split; [reflexivity|]. split; [reflexivity|].
      split; [exact Htable|]. split; [reflexivity | discriminate]. }
  eexists _, _. split; [reflexivity|]. split; [reflexivity|].
  split; [exact Htable|].
  cbn [feeds entries with_sql_log with_feeds with_entries].
  split; [intros H; now elim H|].
  intros _. exists fid. split; [reflexivity|].
  split; [apply feed_by_id_delete_same|].
  split; [|split; [|split]].
  - intros e He Hfe. unfold Tables.delete_entries_of in He.
    apply List.filter_In in He as (_ & E).
    rewrite Hfe, Z.eqb_refl in E. discriminate.
  - intros j Hj. now apply feed_by_id_delete_other.
  - intros e He. unfold Tables.delete_entries_of.
    rewrite List.filter_In. split; [tauto|].
    intros Hin. split; [exact Hin|].
    destruct (e_feed_id e =? fid) eqn:E; [lia | reflexivity].
  - intros Hno e He. unfold Tables.delete_entries_of in He.
    apply List.filter_In in He as (Hin & E).
    specialize (Hno e Hin).
    apply List.in_map_iff in Hno as (r & Hfr & Hr).
    apply List.in_map_iff. exists r. split; [exact Hfr|].
    unfold Tables.delete_feed. apply List.filter_In.
    split; [exact Hr|]. rewrite Hfr. exact E.
Qed.

Lemma feed_delete_cascades_witness :
  (exists w',
     Routes.api_feed_delete demo_int initial
       (Request.Dict {["id" := Request.Str "abc"]}) (demo_world None)
     = (Raise ValueError, w')
     /\ w' = demo_world None)
  /\ (exists w',
        Routes.api_feed_delete demo_int initial (Request.Other true)
          (demo_world None)
        = (Raise AttributeError, w')
        /\ w' = demo_world None)
  /\ (exists w',
        Routes.api_feed_delete demo_int initial
          (Request.Dict
             {["id" := Request.Float (Request.Finite 17 10)]})
          (demo_world None)
        = (Ok (Json tt), w')
        /\ Store.feed_by_id 1 (feeds w') = None
        /\ (forall e, ~ In e (entries w'))
        /\ Store.feed_by_id 2 (feeds w') = Some demo_feed2).
Proof.
  split; [|split].
  - destruct (feed_delete_cascades demo_int initial
                (Request.Dict {["id" := Request.Str "abc"]})
                (demo_world None))
      as (r & w' & Hrun & Hr & _ & Hsame & _).
    vm_compute in Hr. subst r. exists w'.
    split; [exact Hrun | now apply Hsame].
  - destruct (feed_delete_cascades demo_int initial (Request.Other true)
                (demo_world None))
      as (r & w' & Hrun & Hr & _ & Hsame & _).
    vm_compute in Hr. subst r. exists w'.
    split; [exact Hrun | now apply Hsame].
  - destruct (feed_delete_cascades demo_int initial
                (Request.Dict
                   {["id" := Request.Float (Request.Finite 17 10)]})
                (demo_world None))
      as (r & w' & Hrun & Hr & _ & _ & Hgone).
    vm_compute in Hr. subst r. exists w'. split; [exact Hrun|].
    destruct (Hgone eq_refl)
      as (fid & Hfid & Hnone & Hent & Hother & Hiff & _).
    vm_compute in Hfid. injection Hfid as <-.
    split; [exact Hnone|]. split.
    + intros e He.
      destruct (Z.eq_dec (e_feed_id e) 1) as [E1|E1].
      * exact (Hent e He E1).
      * apply E1. apply (Hiff e E1) in He.
        destruct He as [<-|[<-|[]]]; reflexivity.
    + rewrite (Hother 2) by lia. reflexivity.
Defined.

(** ** Editing a feed *)

Section FeedUpdateFacts.

Variable P : Platform.
Variable http_url : string -> bool.

Lemma refresh_run fid w :
  Callers._update_one_feed_now P fid w
  = (Ok tt, snd (update_feeds_async P [fid] false false false w)).
Proof.
  destruct (sweep_counters P [fid] false false false w)
    as (j & u & e & w' & reports & Hrun & _).
  unfold Callers._update_one_feed_now. erewrite bind_ok by exact Hrun.
  now rewrite Hrun.
Qed.

(** The refresh of a feed leaves the rows of the other feeds alone. *)
Lemma refresh_other_feeds fid w j :
  j <> fid ->
  Store.feed_by_id j
    (feeds (snd (update_feeds_async P [fid] false false false w)))
  = Store.feed_by_id j (feeds w).
Proof.
  intros Hj.
  assert (Hout : ~ In j (List.map f_id (selected P [fid] false w))).
  { cbn [selected]. intros H. apply List.in_map_iff in H as (f & <- & Hf).
    unfold Store.feeds_in in Hf. apply List.filter_In in Hf as (_ & Hf).
    cbn in Hf. apply Hj.
    destruct (f_id f =? fid) eqn:E; [lia | discriminate]. }
  apply (sweep_frame P [fid] false false false w j Hout).
Qed.

Lemma feed_by_id_keys fid fs fs' :
  feed_keys fs = feed_keys fs' ->
  option_map f_url (Store.feed_by_id fid fs)
  = option_map f_url (Store.feed_by_id fid fs').
Proof.
  unfold feed_keys, Store.feed_by_id. revert fs'.
  induction fs as [|r fs IH]; intros [|r' fs'] H; try discriminate;
    [reflexivity|].
  cbn in H. injection H as Hid Hurl Hrest. cbn.
  rewrite <- Hid. destruct (f_id r =? fid).
  - cbn. now rewrite Hurl.
  - now apply IH.
Qed.

Lemma edit_of_id u t row r : f_id (edit_of u t row r) = f_id r.
Proof.
  unfold edit_of. now destruct (negb (String.eqb u (f_url row))).
Qed.

Lemma edit_of_url u t row : f_url (edit_of u t row row) = u.
Proof.
  unfold edit_of. destruct (String.eqb u (f_url row)) eqn:E; cbn.
  - apply String.eqb_eq in E. now rewrite E.
  - reflexivity.
Qed.

(** The route once its inputs are read, case by case. *)
Lemma feed_update_checked_run fid u t w :
  Routes.feed_update_checked P http_url fid u t w
  = if fid =? 0 then (Ok (Refused 400 "id required"), w)
    else if String.eqb u EmptyString
    then (Ok (Refused 400 "url required"), w)
    else if negb (http_url u)
    then (Ok (Refused 400 "URL must start with http:// or https://"), w)
    else if negb (Routes.sqlite_int fid) then (Raise OverflowError, w)
    else match Store.feed_by_id fid (feeds w) with
         | None => (Ok (Refused 404 "Unknown feed"), w)
         | Some row =>
             if negb (String.eqb u (f_url row))
                && Tables.url_taken_by_other u fid (feeds w)
             then (Ok (Refused 409 "A feed with that URL already exists."),
                   w)
             else (Ok (Json (fid, u, t)),
                   snd (update_feeds_async P [fid] false false false
                          (edited fid u t row w)))
         end.
Proof.
  unfold Routes.feed_update_checked, Routes.bind_int.
  destruct (fid =? 0); [reflexivity|].
  destruct (String.eqb u EmptyString); [reflexivity|].
  destruct (http_url u); [|reflexivity]. cbn [negb].
  destruct (Routes.sqlite_int fid); [|reflexivity]. cbn [negb].
  unfold bind at 1, ret at 1.
  unfold bind at 1, SELECT_feed, gets.
  destruct (Store.feed_by_id fid (feeds w)) as [row|] eqn:Hrow;
    [|reflexivity].
  unfold bind at 1.
  destruct (negb (String.eqb u (f_url row))
            && Tables.url_taken_by_other u fid (feeds w)) eqn:Hconf;
    [reflexivity|].
  pose proof (refresh_run fid (edited fid u t row w)) as Hr.
  unfold edited, edit_of in *.
  destruct (negb (String.eqb u (f_url row))).
  - unfold bind at 1. unfold UPDATE_feeds, modify.
    unfold bind at 1. unfold log_sql, modify.
    unfold bind at 1. cbn [feeds sql_log with_feeds with_sql_log].
    rewrite Hr. reflexivity.
  - unfold bind at 1. unfold UPDATE_feeds, modify.
    unfold bind at 1. unfold log_sql, modify.
    unfold bind at 1. cbn [feeds sql_log with_feeds with_sql_log].
    rewrite Hr. reflexivity.
Qed.

(** The route reads its three inputs in turn; the first conversion that
    raises ends it. *)
Lemma api_feed_update_run int_of_str m data w :
  Routes.api_feed_update P http_url int_of_str m data w
  = if _any_update_job_running m
    then (Ok (Refused 409
                "Cannot modify feeds while an update is running."), w)
    else match Request.field_int int_of_str data "id" with
         | Raise e => (Raise e, w)
         | Ok fid =>
             match Request.field_text (strip P) data "url" with
             | Raise e => (Raise e, w)
             | Ok u =>
                 match Request.field_text (strip P) data "title" with
                 | Raise e => (Raise e, w)
                 | Ok t0 =>
                     Routes.feed_update_checked P http_url fid u
                                                (or_none t0) w
                 end
             end
         end.
Proof.
  unfold Routes.api_feed_update, Routes._require_no_running_update.
  destruct (_any_update_job_running m); [reflexivity|].
  unfold bind, Request.lift.
  destruct (Request.field_int int_of_str data "id"); [|reflexivity].
  destruct (Request.field_text (strip P) data "url"); [|reflexivity].
  destruct (Request.field_text (strip P) data "title"); reflexivity.
Qed.

(** The database after an accepted edit. *)
Lemma feed_update_accepted fid u t row w :
  Store.feed_by_id fid (feeds w) = Some row ->
  let w' := snd (update_feeds_async P [fid] false false false
                   (edited fid u t row w)) in
  List.map f_id (feeds w') = List.map f_id (feeds w)
  /\ option_map f_url (Store.feed_by_id fid (feeds w')) = Some u
  /\ (forall j, j <> fid ->
        Store.feed_by_id j (feeds w') = Store.feed_by_id j (feeds w)).
Proof.
  intros Hrow w'. subst w'.
  pose proof (sweep_feed_keys P [fid] false false false
                (edited fid u t row w)) as Hkeys.
  assert (Hedit : Store.feed_by_id fid (feeds (edited fid u t row w))
                  = Some (edit_of u t row row)).
  { unfold edited. cbn [feeds with_sql_log with_feeds].
    rewrite feed_by_id_update_same by apply edit_of_id.
    now rewrite Hrow. }
  split; [|split].
  - rewrite <- feed_keys_ids, Hkeys, feed_keys_ids.
    unfold edited. cbn [feeds with_sql_log with_feeds].
    unfold Store.update_feed. rewrite List.map_map.
    apply List.map_ext. intros r.
    destruct (f_id r =? fid); [apply edit_of_id | reflexivity].
  - rewrite (feed_by_id_keys fid _ _ Hkeys), Hedit. cbn [option_map].
    now rewrite edit_of_url.
  - intros j Hj. rewrite refresh_other_feeds by exact Hj.
    unfold edited. cbn [feeds with_sql_log with_feeds].
    apply feed_by_id_update_other; [apply edit_of_id | exact Hj].
Qed.

(** What [(data.get(k) or '').strip()] evaluates to, value by value. *)
Lemma field_text_table data k :
  Request.field_text (strip P) data k
  = match data with
    | Request.NoJson => Ok (strip P EmptyString)
    | Request.Other truthy =>
        if truthy then Raise AttributeError else Ok (strip P EmptyString)
    | Request.Dict d =>
        match d !! k with
        | None => Ok (strip P EmptyString)
        | Some (Request.Str s) => Ok (strip P s)
        | Some v =>
            if Request.truth v then Raise AttributeError
            else Ok (strip P EmptyString)
        end
    end.
Proof.
  unfold Request.field_text, Request.get.
  destruct data as [|d|[|]]; try reflexivity.
  destruct (d !! k) as [[|[|]|n|[|neg|num den]|s|[|]|[|]]|];
    try reflexivity; cbn.
  - now destruct (n =? 0).
  - now destruct (num =? 0).
  - destruct (String.eqb s EmptyString) eqn:E; cbn; [|reflexivity].
    apply String.eqb_eq in E. now subst.
Qed.

End FeedUpdateFacts.

(** X15. Editing a feed. While an update job is running the route
    answers 409. Otherwise it reads the id, the url and the title, in
    this order, and raises what the first failing conversion raises:
    [int(data.get('id') or 0)] as in the delete route, and
    [(data.get(k) or '').strip()] raises AttributeError for every truthy
    value that is not a string (and for a truthy body that is no object),
    a missing or falsy value reading as the empty string. With the inputs
    read, the route answers 400 for an id of 0, an empty url or a url
    without the http scheme, raises OverflowError for an id that does not
    fit an INTEGER of SQLite, answers 404 for an unknown id, and 409 for
    a url that another feed holds, where the UPDATE fails on the UNIQUE
    constraint before anything is committed. Whenever it does not accept,
    the database is exactly as it was. When the route accepts, it answers
    with the id, the stripped url and the stripped title ([None] when
    empty), the feed carries that url afterwards, no feed was added or
    removed, and the rows of the other feeds are unchanged. *)
Theorem feed_update_refuses_or_renames
    (P : Platform) (http_url : string -> bool)
    (int_of_str : string -> option Z) (m : Manager)
    (data : Request.body) (w : World) :
  let id := Request.field_int int_of_str data "id" in
  let url := Request.field_text (strip P) data "url" in
  let title := Request.field_text (strip P) data "title" in
  exists r w',
    Routes.api_feed_update P http_url int_of_str m data w = (r, w')
    /\ (_any_update_job_running m = true ->
        r = Ok (Refused 409
                  "Cannot modify feeds while an update is running."))
    /\ (_any_update_job_running m = false ->
        match id, url, title with
        | Raise e, _, _ => r = Raise e
        | Ok _, Raise e, _ => r = Raise e
        | Ok _, Ok _, Raise e => r = Raise e
        | Ok fid, Ok u, Ok t0 =>
            if fid =? 0 then r = Ok (Refused 400 "id required")
            else if String.eqb u EmptyString
            then r = Ok (Refused 400 "url required")
            else if negb (http_url u)
            then r = Ok (Refused 400
                           "URL must start with http:// or https://")
            else if negb (Routes.sqlite_int fid)
            then r = Raise OverflowError
            else
              match Store.feed_by_id fid (feeds w) with
              | None => r = Ok (Refused 404 "Unknown feed")
              | Some row =>
                  if negb (String.eqb u (f_url row))
                     && Tables.url_taken_by_other u fid (feeds w)
                  then r = Ok (Refused 409
                                 "A feed with that URL already exists.")
                  else
                    r = Ok (Json (fid, u, or_none t0))
                    /\ List.map f_id (feeds w') = List.map f_id (feeds w)
                    /\ option_map f_url (Store.feed_by_id fid (feeds w'))
                       = Some u
                    /\ (forall j, j <> fid ->
                          Store.feed_by_id j (feeds w')
                          = Store.feed_by_id j (feeds w))
              end
        end)
    /\ ((forall body, r <> Ok (Json body)) -> w' = w)
    /\ (forall k,
          Request.field_text (strip P) data k
          = match data with
            | Request.NoJson => Ok (strip P EmptyString)
            | Request.Other truthy =>
                if truthy then Raise AttributeError
                else Ok (strip P EmptyString)
            | Request.Dict d =>
                match d !! k with
                | None => Ok (strip P EmptyString)
                | Some (Request.Str s) => Ok (strip P s)
                | Some Request.Null => Ok (strip P EmptyString)
                | Some (Request.Bool b) =>
                    if b then Raise AttributeError
                    else Ok (strip P EmptyString)
                | Some (Request.Int n) =>
                    if n =? 0 then Ok (strip P EmptyString)
                    else Raise AttributeError
                | Some (Request.Float (Request.Finite num _)) =>
                    if num =? 0 then Ok (strip P EmptyString)
                    else Raise AttributeError
                | Some (Request.Float _) => Raise AttributeError
                | Some (Request.Array empty) =>
                    if empty then Ok (strip P EmptyString)
                    else Raise AttributeError
                | Some (Request.Object empty) =>
                    if empty then Ok (strip P EmptyString)
                    else Raise AttributeError
                end
            end).
Proof.
  intros id url title.
  assert (Htext : forall k,
            Request.field_text (strip P) data k
            = match data with
              | Request.NoJson => Ok (strip P EmptyString)
              | Request.Other truthy =>
                  if truthy then Raise AttributeError
                  else Ok (strip P EmptyString)
              | Request.Dict d =>
                  match d !! k with
                  | None => Ok (strip P EmptyString)
                  | Some (Request.Str s) => Ok (strip P s)
                  | Some Request.Null => Ok (strip P EmptyString)
                  | Some (Request.Bool b) =>
                      if b then Raise AttributeError
                      else Ok (strip P EmptyString)
                  | Some (Request.Int n) =>
                      if n =? 0 then Ok (strip P EmptyString)
                      else Raise AttributeError
                  | Some (Request.Float (Request.Finite num _)) =>
                      if num =? 0 then Ok (strip P EmptyString)
                      else Raise AttributeError
                  | Some (Request.Float _) => Raise AttributeError
                  | Some (Request.Array empty) =>
                      if empty then Ok (strip P EmptyString)
                      else Raise AttributeError
                  | Some (Request.Object empty) =>
                      if empty then Ok (strip P EmptyString)
                      else Raise AttributeError
                  end
              end).
  { intros k. rewrite field_text_table.
    destruct data as [|d|[|]]; try reflexivity.
    destruct (d !! k) as [[|[|]|n|[|neg|num den]|s|[|]|[|]]|];
      try reflexivity; cbn.
    - now destruct (n =? 0).
    - now destruct (num =? 0). }
  rewrite api_feed_update_run. fold id url title.
  destruct (_any_update_job_running m).
  { eexists _, w. split; [reflexivity|]. split; [reflexivity|].
    split; [discriminate|]. split; [reflexivity | exact Htext]. }
  clearbody id url title.
  destruct id as [fid|e].
  2:{ eexists _, w. split; [reflexivity|]. split; [discriminate|].
      split; [reflexivity|]. split; [reflexivity | exact Htext]. }
  destruct url as [u|e].
  2:{ eexists _, w. split; [reflexivity|]. split; [discriminate|].
      split; [reflexivity|]. split; [reflexivity | exact Htext]. }
  destruct title as [t0|e].
  2:{ eexists _, w. split; [reflexivity|]. split; [discriminate|].
      split; [reflexivity|]. split; [reflexivity | exact Htext]. }
  rewrite feed_update_checked_run.
  destruct (fid =? 0).
  { eexists _, w. split; [reflexivity|]. split; [discriminate|].
    split; [reflexivity|]. split; [reflexivity | exact Htext]. }
  destruct (String.eqb u EmptyString).
  { eexists _, w. split; [reflexivity|]. split; [discriminate|].
    split; [reflexivity|]. split; [reflexivity | exact Htext]. }
  destruct (negb (http_url u)).
  { eexists _, w. split; [reflexivity|]. split; [discriminate|].
    split; [reflexivity|]. split; [reflexivity | exact Htext]. }
  destruct (negb (Routes.sqlite_int fid)).
  { eexists _, w. split; [reflexivity|]. split; [discriminate|].
    split; [reflexivity|]. split; [reflexivity | exact Htext]. }
  destruct (Store.feed_by_id fid (feeds w)) as [row|] eqn:Hrow.
  2:{ eexists _, w. split; [reflexivity|]. split; [discriminate|].
      split; [reflexivity|]. split; [reflexivity | exact Htext]. }
  destruct (negb (String.eqb u (f_url row))
            && Tables.url_taken_by_other u fid (feeds w)).
  { eexists _, w. split; [reflexivity|]. split; [discriminate|].
    split; [reflexivity|]. split; [reflexivity | exact Htext]. }
  eexists _, _. split; [reflexivity|]. split; [discriminate|].
  split.
  { intros _. split; [reflexivity|].
    apply (feed_update_accepted P fid u (or_none t0) row w Hrow). }
  split; [|exact Htext].
  intros H. now elim (H (fid, u, or_none t0)).
Qed.

Lemma feed_update_refuses_or_renames_witness :
  (exists w',
     Routes.api_feed_update demo (fun _ => true) demo_int initial
       (Request.Dict
          (<["id" := Request.Int 2]> {["url" := Request.Int 5]}))
       (demo_world None)
     = (Raise AttributeError, w')
     /\ w' = demo_world None)
  /\ (exists w',
        Routes.api_feed_update demo (fun _ => true) demo_int initial
          (Request.Dict
             (<["id" := Request.Str "x"]>
                {["url" := Request.Str "http://c/feed"]}))
          (demo_world None)
        = (Raise ValueError, w')
        /\ w' = demo_world None)
  /\ (exists w',
        Routes.api_feed_update demo (fun _ => true) demo_int initial
          (Request.Dict
             (<["id" := Request.Int 2]>
                {["url" := Request.Str "http://a/feed"]}))
          (demo_world None)
        = (Ok (Refused 409 "A feed with that URL already exists."), w')
        /\ w' = demo_world None)
  /\ (exists w',
        Routes.api_feed_update demo (fun _ => true) demo_int initial
          (Request.Dict
             (<["id" := Request.Int 2]>
                {["url" := Request.Str "http://c/feed"]}))
          (demo_world None)
        = (Ok (Json (2, "http://c/feed", None)), w')
        /\ option_map f_url (Store.feed_by_id 2 (feeds w'))
           = Some "http://c/feed"
        /\ Store.feed_by_id 1 (feeds w') = Some demo_feed1).
Proof.
  split; [|split; [|split]].
  - destruct (feed_update_refuses_or_renames demo (fun _ => true) demo_int
                initial
                (Request.Dict
                   (<["id" := Request.Int 2]> {["url" := Request.Int 5]}))
                (demo_world None))
      as (r & w' & Hrun & _ & Hr & Hsame & _).
    specialize (Hr eq_refl). vm_compute in Hr. subst r. exists w'.
    split; [exact Hrun | apply Hsame; discriminate].
  - destruct (feed_update_refuses_or_renames demo (fun _ => true) demo_int
                initial
                (Request.Dict
                   (<["id" := Request.Str "x"]>
                      {["url" := Request.Str "http://c/feed"]}))
                (demo_world None))
      as (r & w' & Hrun & _ & Hr & Hsame & _).
    specialize (Hr eq_refl). vm_compute in Hr. subst r. exists w'.
    split; [exact Hrun | apply Hsame; discriminate].
  - destruct (feed_update_refuses_or_renames demo (fun _ => true) demo_int
                initial
                (Request.Dict
                   (<["id" := Request.Int 2]>
                      {["url" := Request.Str "http://a/feed"]}))
                (demo_world None))
      as (r & w' & Hrun & _ & Hr & Hsame & _).
    specialize (Hr eq_refl). vm_compute in Hr. subst r. exists w'.
    split; [exact Hrun | apply Hsame; discriminate].
  - destruct (feed_update_refuses_or_renames demo (fun _ => true) demo_int
                initial
                (Request.Dict
                   (<["id" := Request.Int 2]>
                      {["url" := Request.Str "http://c/feed"]}))
                (demo_world None))
      as (r & w' & Hrun & _ & Hr & _).
    specialize (Hr eq_refl).
    assert (Hid : Request.field_int demo_int
                    (Request.Dict
                       (<["id" := Request.Int 2]>
                          {["url" := Request.Str "http://c/feed"]})) "id"
                  = Ok 2) by (vm_compute; reflexivity).
    assert (Hurl : Request.field_text (strip demo)
                     (Request.Dict
                        (<["id" := Request.Int 2]>
                           {["url" := Request.Str "http://c/feed"]}))
                     "url"
                   = Ok "http://c/feed") by (vm_compute; reflexivity).
    assert (Htitle : Request.field_text (strip demo)
                       (Request.Dict
                          (<["id" := Request.Int 2]>
                             {["url" := Request.Str "http://c/feed"]}))
                       "title"
                     = Ok EmptyString) by (vm_compute; reflexivity).
    rewrite Hid, Hurl, Htitle in Hr.
    change (Store.feed_by_id 2 (feeds (demo_world None)))
      with (Some demo_feed2) in Hr.
    cbv beta iota in Hr.
    assert (E1 : (2 =? 0) = false) by reflexivity.
    assert (E2 : String.eqb "http://c/feed" EmptyString = false)
      by reflexivity.
    assert (E3 : negb (Routes.sqlite_int 2) = false) by reflexivity.
    assert (E4 : negb (String.eqb "http://c/feed" (f_url demo_feed2))
                 && Tables.url_taken_by_other "http://c/feed" 2
                      (feeds (demo_world None)) = false)
      by (vm_compute; reflexivity).
    rewrite E1, E2, E3, E4 in Hr. cbn [negb] in Hr.
    destruct Hr as (-> & _ & Hu & Hother).
    exists w'. split; [exact Hrun|]. split; [exact Hu|].
    rewrite (Hother 1) by lia. reflexivity.
Defined.

Section SingleFeedSweep.

Variable P : Platform.

Lemma feeds_in_update set ids fid fs :
  (forall r, f_id (set r) = f_id r) ->
  Store.feeds_in ids (Store.update_feed set fid fs)
  = Store.update_feed set fid (Store.feeds_in ids fs).
Proof.
  intros Hid. unfold Store.feeds_in, Store.update_feed.
  induction fs as [|r fs IH]; [reflexivity|]. cbn.
  assert (E : List.existsb (Z.eqb (f_id (if f_id r =? fid then set r
                                         else r))) ids
              = List.existsb (Z.eqb (f_id r)) ids).
  { destruct (f_id r =? fid); [now rewrite Hid | reflexivity]. }
  rewrite E. destruct (List.existsb (Z.eqb (f_id r)) ids); cbn;
    now rewrite IH.
Qed.

(** The sweep over one feed whose fetch is answered 200: the feed is
    reconciled once, with the body of the answer. *)
Lemma sweep_one_ok fid w row payload etag last_mod :
  Store.feeds_in [fid] (feeds w) = [row] ->
  f_id row = fid ->
  session_get P (f_url row) (conditional_headers row)
  = HttpResponse 200 payload etag last_mod ->
  exists w1,
    reconcile P false false (sweep_cutoff P w) 1
              (ok fid payload etag last_mod)
              (began P [fid] false false false w) = (Ok tt, w1)
    /\ feeds (snd (update_feeds_async P [fid] false false false w))
       = feeds w1.
Proof.
  intros Hsel Hid Hget.
  assert (Hs : selected P [fid] false w = [row]) by exact Hsel.
  assert (Hne : selected P [fid] false w <> [])
    by (rewrite Hs; discriminate).
  destruct (sweep_nonempty P [fid] false false false w Hne)
    as (j & w1 & Hcons & Hrun & _).
  assert (Hcompleted : completed P [fid] false false w
                       = [ok fid payload etag last_mod]).
  { unfold completed. rewrite Hs. cbn [dispatched List.map].
    assert (Hf : fetch_one P row = ok fid payload etag last_mod).
    { unfold fetch_one. fold (conditional_headers row).
      rewrite Hget, Hid. reflexivity. }
    rewrite Hf.
    pose proof (as_completed_once P [ok fid payload etag last_mod]) as Hp.
    apply Permutation_sym in Hp.
    now apply Permutation_length_1_inv in Hp. }
  rewrite Hcompleted, Hs in Hcons. cbn [List.length] in Hcons.
  change (Z.of_nat 1) with 1 in Hcons.
  cbn [consume cancelled] in Hcons.
  unfold bind at 1 in Hcons. unfold ret at 1 in Hcons.
  destruct (reconcile_run P false false (sweep_cutoff P w) 1
              (ok fid payload etag last_mod)
              (began P [fid] false false false w))
    as (w1' & Hrec & _).
  erewrite bind_ok in Hcons by exact Hrec. cbn in Hcons.
  injection Hcons as <-.
  exists w1'. split; [exact Hrec|]. rewrite Hrun. reflexivity.
Qed.

End SingleFeedSweep.

(** X16. The title given to the edit route does not survive the refresh
    the route ends with. When the url is kept and the feed answers 200
    with a body that carries a title of its own, the route answers with
    the title it was given, but the row holds the feed's own title: the
    UPDATE of the refresh stores the learned title over it. (An id that
    does not fit an INTEGER of SQLite, which no row has in a real table,
    makes the SELECT raise instead.) *)
Theorem feed_update_title_is_relearned
    (P : Platform) (http_url : string -> bool)
    (int_of_str : string -> option Z) (m : Manager)
    (data : Request.body) (w : World)
    (row : FeedRow) (payload : string) (etag last_mod : option string)
    (learned : string) (fid : Z) (u t0 : string) :
  Request.field_int int_of_str data "id" = Ok fid ->
  Request.field_text (strip P) data "url" = Ok u ->
  Request.field_text (strip P) data "title" = Ok t0 ->
  let t := or_none t0 in
  _any_update_job_running m = false ->
  fid <> 0 -> u <> EmptyString -> http_url u = true ->
  Store.feeds_in [fid] (feeds w) = [row] ->
  Store.feed_by_id fid (feeds w) = Some row ->
  u = f_url row ->
  session_get P u (conditional_headers row)
  = HttpResponse 200 payload etag last_mod ->
  learned_title P payload = Some learned ->
  (Routes.sqlite_int fid = true ->
   exists w',
     Routes.api_feed_update P http_url int_of_str m data w
     = (Ok (Json (fid, u, t)), w')
     /\ option_map f_title (Store.feed_by_id fid (feeds w'))
        = Some (Some learned))
  /\ (Routes.sqlite_int fid = false ->
      Routes.api_feed_update P http_url int_of_str m data w
      = (Raise OverflowError, w)).
Proof.
  intros Hfid Hurl Htitle t Hm Hid Hu Hh Hsel Hrow Hsame Hget Hlearn.
  assert (Heq : String.eqb u (f_url row) = true)
    by now apply String.eqb_eq.
  assert (Hrun : Routes.api_feed_update P http_url int_of_str m data w
                 = if negb (Routes.sqlite_int fid)
                   then (Raise OverflowError, w)
                   else (Ok (Json (fid, u, t)),
                         snd (update_feeds_async P [fid] false false false
                                (edited fid u t row w)))).
  { rewrite api_feed_update_run, Hm, Hfid, Hurl, Htitle.
    rewrite feed_update_checked_run.
    assert (E0 : (fid =? 0) = false) by lia. rewrite E0.
    assert (Eu : String.eqb u EmptyString = false)
      by now apply String.eqb_neq.
    rewrite Eu, Hh. cbn [negb].
    destruct (Routes.sqlite_int fid); cbn [negb]; [|reflexivity].
    rewrite Hrow, Heq. reflexivity. }
  split; intros Hint; rewrite Hrun, Hint; cbn [negb]; [|reflexivity].
  eexists. split; [reflexivity|].
  destruct (feed_by_id_In _ _ _ Hrow) as (_ & Hfr).
  assert (Hedit : edit_of u t row = Api.set_title t).
  { unfold edit_of. now rewrite Heq. }
  set (w0 := edited fid u t row w).
  assert (Hsel0 : Store.feeds_in [fid] (feeds w0) = [Api.set_title t row]).
  { unfold w0, edited. cbn [feeds with_sql_log with_feeds].
    rewrite feeds_in_update by apply edit_of_id.
    rewrite Hsel, Hedit. cbn. now rewrite Hfr, Z.eqb_refl. }
  assert (Hget0 : session_get P (f_url (Api.set_title t row))
                    (conditional_headers (Api.set_title t row))
                  = HttpResponse 200 payload etag last_mod).
  { cbn. rewrite <- Hsame. exact Hget. }
  destruct (sweep_one_ok P fid w0 (Api.set_title t row) payload etag
              last_mod Hsel0 Hfr Hget0) as (w1 & Hrec & Hfeeds).
  rewrite Hfeeds.
  assert (Hrow0 : Store.feed_by_id fid
                    (feeds (began P [fid] false false false w0))
                  = Some (Api.set_title t row)).
  { destruct (began_frame P [fid] false false false w0) as (-> & _).
    unfold w0, edited. cbn [feeds with_sql_log with_feeds].
    rewrite feed_by_id_update_same by apply edit_of_id.
    now rewrite Hrow, Hedit. }
  destruct (reconcile_ok_title P false false (sweep_cutoff P w0) 1 fid
              payload etag last_mod _ _ Hrow0) as (w1' & Hrec' & Htit).
  rewrite Hrec in Hrec'. injection Hrec' as <-.
  rewrite Htit, Hlearn. reflexivity.
Qed.

Lemma feed_update_title_is_relearned_witness :
  exists w',
    Routes.api_feed_update demo (fun _ => true) demo_int initial
      (Request.Dict
         (<["id" := Request.Int 1]>
            (<["url" := Request.Str "http://a/feed"]>
               {["title" := Request.Str "Mine"]})))
      (demo_world None)
    = (Ok (Json (1, "http://a/feed", Some "Mine")), w')
    /\ option_map f_title (Store.feed_by_id 1 (feeds w'))
       = Some (Some "Feed title").
Proof.
  refine (proj1 (feed_update_title_is_relearned demo (fun _ => true)
                   demo_int initial
                   (Request.Dict
                      (<["id" := Request.Int 1]>
                         (<["url" := Request.Str "http://a/feed"]>
                            {["title" := Request.Str "Mine"]})))
                   (demo_world None) demo_feed1 "<rss/>" None None
                   "Feed title" 1 "http://a/feed" "Mine"
                   _ _ _ _ _ _ _ _ _ _ _ _) _);
    try discriminate; vm_compute; reflexivity.
Defined.

(** ** Adding a feed *)

Section FeedCreateFacts.

Variable P : Platform.
Variable probe : string -> string + (string * string * option string).

Lemma feed_by_url_keys url fs fs' :
  feed_keys fs = feed_keys fs' ->
  option_map (fun f => (f_id f, f_url f)) (Tables.feed_by_url url fs)
  = option_map (fun f => (f_id f, f_url f)) (Tables.feed_by_url url fs').
Proof.
  unfold feed_keys, Tables.feed_by_url. revert fs'.
  induction fs as [|r fs IH]; intros [|r' fs'] H; try discriminate;
    [reflexivity|].
  cbn in H. injection H as Hid Hurl Hrest. cbn.
  rewrite <- Hurl. destruct (String.eqb (f_url r) url).
  - cbn. now rewrite Hid, Hurl.
  - now apply IH.
Qed.

Lemma feed_by_url_app_new url fs row :
  Tables.feed_by_url url fs = None -> f_url row = url ->
  Tables.feed_by_url url (fs ++ [row]) = Some row.
Proof.
  unfold Tables.feed_by_url. intros Hnone Hurl.
  induction fs as [|r fs IH]; cbn in *.
  - now rewrite Hurl, String.eqb_refl.
  - destruct (String.eqb (f_url r) url); [discriminate | now apply IH].
Qed.

Lemma feed_keys_app fs gs :
  feed_keys (fs ++ gs) = feed_keys fs ++ feed_keys gs.
Proof. unfold feed_keys. apply List.map_app. Qed.

Lemma learn_title_keys title ex fs :
  feed_keys (Api.learn_title title ex fs) = feed_keys fs.
Proof.
  unfold Api.learn_title.
  destruct (truthy title && negb (truthy (f_title ex))); [|reflexivity].
  now apply update_feed_keys.
Qed.

(** The route for a feed that is not stored yet. *)
Lemma api_feed_create_new m url w feed_url kind title :
  _any_update_job_running m = false ->
  strip P (or_empty url) <> EmptyString ->
  probe (strip P (or_empty url)) = inr (feed_url, kind, title) ->
  Tables.feed_by_url feed_url (feeds w) = None ->
  Routes.api_feed_create P probe m url w
  = (Ok (Json (kind, (Tables.next_feed_id (feeds w), feed_url, title),
               false)),
     snd (update_feeds_async P [Tables.next_feed_id (feeds w)] false false
            false
            (with_sql_log (sql_log w ++ [COMMIT])
               (with_feeds
                  (feeds w
                   ++ [Tables.new_feed (Tables.next_feed_id (feeds w))
                                       feed_url title]) w)))).
Proof.
  intros Hm Hu Hprobe Hnone.
  unfold Routes.api_feed_create, Routes._require_no_running_update.
  rewrite Hm.
  assert (Eu : String.eqb (strip P (or_empty url)) EmptyString = false)
    by now apply String.eqb_neq.
  rewrite Eu, Hprobe.
  unfold bind at 1, gets. rewrite Hnone.
  unfold bind at 1. unfold bind at 1. unfold modify.
  unfold bind at 1. unfold log_sql, modify.
  unfold bind at 1. cbn [feeds sql_log with_feeds with_sql_log].
  rewrite refresh_run. reflexivity.
Qed.

(** The route for a feed that is stored. *)
Lemma api_feed_create_existing m url w feed_url kind title ex :
  _any_update_job_running m = false ->
  strip P (or_empty url) <> EmptyString ->
  probe (strip P (or_empty url)) = inr (feed_url, kind, title) ->
  Tables.feed_by_url feed_url (feeds w) = Some ex ->
  exists w',
    Routes.api_feed_create P probe m url w
    = (Ok (Json (kind, (f_id ex, f_url ex, or_ title (f_title ex)), true)),
       w')
    /\ feeds w' = Api.learn_title title ex (feeds w)
    /\ entries w' = entries w.
Proof.
  intros Hm Hu Hprobe Hex.
  unfold Routes.api_feed_create, Routes._require_no_running_update.
  rewrite Hm.
  assert (Eu : String.eqb (strip P (or_empty url)) EmptyString = false)
    by now apply String.eqb_neq.
  rewrite Eu, Hprobe.
  unfold bind at 1, gets. rewrite Hex.
  unfold Api.learn_title.
  destruct (truthy title && negb (truthy (f_title ex))) eqn:E.
  - eexists. split; [reflexivity|]. now split.
  - eexists. split; [reflexivity|]. now split.
Qed.

End FeedCreateFacts.

(** X17. Adding the same feed twice stores it once. The first call, for a
    feed url that is not stored, appends one row with the next free id,
    refreshes it, and answers with that id and [existing = False]; any
    later call whose discovery ends at the same feed url answers with the
    same id and [existing = True], and adds, removes or renames no
    feed and touches no entry. *)
Theorem feed_create_twice_stores_once
    (P : Platform)
    (probe : string -> string + (string * string * option string))
    (m m' : Manager) (url : option string) (w : World)
    (feed_url kind : string) (title : option string) :
  _any_update_job_running m = false ->
  _any_update_job_running m' = false ->
  strip P (or_empty url) <> EmptyString ->
  probe (strip P (or_empty url)) = inr (feed_url, kind, title) ->
  Tables.feed_by_url feed_url (feeds w) = None ->
  let id := Tables.next_feed_id (feeds w) in
  exists w1,
    Routes.api_feed_create P probe m url w
    = (Ok (Json (kind, (id, feed_url, title), false)), w1)
    /\ feed_keys (feeds w1) = feed_keys (feeds w) ++ [(id, feed_url)]
    /\ exists title' w2,
         Routes.api_feed_create P probe m' url w1
         = (Ok (Json (kind, (id, feed_url, title'), true)), w2)
         /\ feed_keys (feeds w2) = feed_keys (feeds w1)
         /\ entries w2 = entries w1.
Proof.
  intros Hm Hm' Hu Hprobe Hnone id.
  eexists. split.
  { now apply (api_feed_create_new P probe m url w feed_url kind title). }
  fold id.
  set (w0 := with_sql_log (sql_log w ++ [COMMIT])
               (with_feeds
                  (feeds w ++ [Tables.new_feed id feed_url title]) w)).
  set (w1 := snd (update_feeds_async P [id] false false false w0)).
  assert (Hkeys : feed_keys (feeds w1)
                  = feed_keys (feeds w) ++ [(id, feed_url)]).
  { unfold w1. rewrite sweep_feed_keys. unfold w0.
    cbn [feeds with_sql_log with_feeds]. now rewrite feed_keys_app. }
  split; [exact Hkeys|].
  assert (Hfind : option_map (fun f => (f_id f, f_url f))
                    (Tables.feed_by_url feed_url (feeds w1))
                  = Some (id, feed_url)).
  { rewrite (feed_by_url_keys feed_url (feeds w1) (feeds w0)).
    - unfold w0. cbn [feeds with_sql_log with_feeds].
      now rewrite (feed_by_url_app_new feed_url (feeds w)
                     (Tables.new_feed id feed_url title) Hnone eq_refl).
    - unfold w1. apply sweep_feed_keys. }
  destruct (Tables.feed_by_url feed_url (feeds w1)) as [ex|] eqn:Hex;
    [|discriminate].
  cbn in Hfind. injection Hfind as Hexid Hexurl.
  destruct (api_feed_create_existing P probe m' url w1 feed_url kind title
              ex Hm' Hu Hprobe Hex) as (w2 & Hrun & Hfeeds & Hent).
  rewrite Hexid, Hexurl in Hrun.
  eexists _, w2. split; [exact Hrun|].
  split; [|exact Hent]. rewrite Hfeeds. apply learn_title_keys.
Qed.

Lemma feed_create_twice_stores_once_witness :
  exists w1,
    Routes.api_feed_create demo
      (fun u => inr (u, "direct", Some "Feed title")) initial
      (Some "http://c/feed") (demo_world None)
    = (Ok (Json ("direct", (3, "http://c/feed", Some "Feed title"), false)),
       w1)
    /\ exists title' w2,
         Routes.api_feed_create demo
           (fun u => inr (u, "direct", Some "Feed title")) initial
           (Some "http://c/feed") w1
         = (Ok (Json ("direct", (3, "http://c/feed", title'), true)), w2)
         /\ feed_keys (feeds w2) = feed_keys (feeds w1).
Proof.
  destruct (feed_create_twice_stores_once demo
              (fun u => inr (u, "direct", Some "Feed title"))
              initial initial (Some "http://c/feed") (demo_world None)
              "http://c/feed" "direct" (Some "Feed title")
              eq_refl eq_refl ltac:(discriminate) eq_refl eq_refl)
    as (w1 & Hrun & _ & title' & w2 & Hrun2 & Hkeys & _).
  exists w1. split; [exact Hrun|].
  exists title', w2. split; [exact Hrun2 | exact Hkeys].
Defined.

(** * Properties of the importers *)

Section ImportFacts.

Lemma with_feeds_same w : with_feeds (feeds w) w = w.
Proof. now destruct w. Qed.

Lemma with_feeds_twice a b w : with_feeds a (with_feeds b w) = with_feeds a w.
Proof. reflexivity. Qed.

Lemma feed_by_url_None url fs :
  Tables.feed_by_url url fs = None <-> ~ In url (List.map f_url fs).
Proof.
  unfold Tables.feed_by_url. split.
  - intros H Hin. apply List.in_map_iff in Hin as (r & Hu & Hr).
    pose proof (List.find_none _ _ H r Hr) as E. cbn in E.
    rewrite Hu, String.eqb_refl in E. discriminate.
  - intros H. destruct (List.find _ fs) as [r|] eqn:E; [|reflexivity].
    apply List.find_some in E as (Hin & Hu).
    apply String.eqb_eq in Hu. elim H.
    apply List.in_map_iff. now exists r.
Qed.

Lemma feed_by_url_Some url fs :
  Tables.feed_by_url url fs <> None <-> In url (List.map f_url fs).
Proof.
  split.
  - intros H. destruct (List.in_dec string_dec url (List.map f_url fs))
      as [Hin|Hout]; [exact Hin|].
    elim H. now apply feed_by_url_None.
  - intros Hin H. now apply feed_by_url_None in H.
Qed.

Lemma insert_feed_cases url title fs :
  (In url (List.map f_url fs)
   /\ Tables.insert_or_ignore_feed url title fs = (fs, 0))
  \/ (~ In url (List.map f_url fs)
      /\ Tables.insert_or_ignore_feed url title fs
         = (fs ++ [Tables.new_feed (Tables.next_feed_id fs) url title], 1)).
Proof.
  unfold Tables.insert_or_ignore_feed.
  destruct (Tables.feed_by_url url fs) as [r|] eqn:E.
  - left. split; [|reflexivity]. apply feed_by_url_Some. now rewrite E.
  - right. split; [|reflexivity]. now apply feed_by_url_None.
Qed.

(** The loop of the OPML route. *)
Lemma insert_pairs_run pairs imported skipped w :
  exists imported' skipped' new,
    Opml.insert_pairs pairs imported skipped w
    = (Ok (imported', skipped'), with_feeds (feeds w ++ new) w)
    /\ imported' = imported + Z.of_nat (List.length new)
    /\ imported' + skipped'
       = imported + skipped + Z.of_nat (List.length pairs)
    /\ skipped <= skipped'
    /\ List.Forall (fun f => fresh_feed f /\ In (feed_pair f) pairs) new
    /\ (forall u, In u (List.map fst pairs) ->
                  In u (List.map f_url (feeds w ++ new)))
    /\ (List.NoDup (List.map fst pairs) ->
        (forall u, In u (List.map fst pairs) ->
                   ~ In u (List.map f_url (feeds w))) ->
        List.map feed_pair new = pairs).
Proof.
  revert imported skipped w.
  induction pairs as [|[u t] rest IH]; intros imported skipped w.
  - exists imported, skipped, []. cbn.
    rewrite List.app_nil_r, with_feeds_same.
    repeat split; try lia; try constructor.
  - cbn [Opml.insert_pairs]. unfold bind at 1.
    destruct (insert_feed_cases u t (feeds w)) as [(Hin & ->) | (Hout & ->)].
    + cbn [Z.eqb]. rewrite with_feeds_same.
      destruct (IH imported (skipped + 1) w)
        as (i' & s' & new & Hrun & Hi & Hsum & Hs & Hall & Hpres & Hfresh).
      exists i', s', new. split; [exact Hrun|].
      split; [exact Hi|]. split; [cbn [List.length]; lia|].
      split; [lia|]. split; [|split].
      * eapply List.Forall_impl; [|exact Hall].
        intros f (Hf & Hp). split; [exact Hf | now right].
      * intros x [<- | Hx]; [|now apply Hpres].
        rewrite List.map_app. apply List.in_or_app. now left.
      * intros _ Habs. elim (Habs u); [now left | exact Hin].
    + cbn [Z.eqb Pos.eqb].
      set (row := Tables.new_feed (Tables.next_feed_id (feeds w)) u t).
      destruct (IH (imported + 1) skipped (with_feeds (feeds w ++ [row]) w))
        as (i' & s' & new & Hrun & Hi & Hsum & Hs & Hall & Hpres & Hfresh).
      cbn [feeds with_feeds] in *. rewrite with_feeds_twice in Hrun.
      exists i', s', (row :: new).
      replace (feeds w ++ row :: new) with ((feeds w ++ [row]) ++ new)
        by now rewrite <- List.app_assoc.
      split; [exact Hrun|].
      split; [cbn [List.length]; lia|].
      split; [cbn [List.length]; lia|]. split; [lia|].
      split; [|split].
      * constructor.
        -- split; [reflexivity | now left].
        -- eapply List.Forall_impl; [|exact Hall].
           intros f (Hf & Hp). split; [exact Hf | now right].
      * intros x [<- | Hx]; [|now apply Hpres].
        rewrite !List.map_app. apply List.in_or_app. left.
        apply List.in_or_app. right. now left.
      * intros Hnd Hnew. cbn [List.map fst] in Hnd.
        apply List.NoDup_cons_iff in Hnd as (Hu & Hnd).
        cbn [List.map]. f_equal.
        apply Hfresh; [exact Hnd|].
        intros x Hx Hin. rewrite List.map_app in Hin.
        apply List.in_app_iff in Hin as [Hin | [<- | []]].
        -- apply (Hnew x); [now right | exact Hin].
        -- contradiction.
Qed.

End ImportFacts.

(** X18. Importing an OPML file into the current database. Every pair of
    the file is counted once, as imported or as skipped, and [imported]
    is the number of rows added. A merge leaves every stored feed as it
    is, title included, and every entry; a replace first empties both
    tables. The rows added come from the file, are due at once
    ([next_fetch = 0]) and carry no fetch history; afterwards every url of
    the file is stored. The transaction is one BEGIN and one COMMIT. *)
Theorem opml_import_counts
    (replace : bool) (pairs : list (string * option string)) (w : World) :
  exists imported skipped new w',
    Opml.opml_import replace pairs w = (Ok (imported, skipped), w')
    /\ imported = Z.of_nat (List.length new)
    /\ 0 <= skipped
    /\ imported + skipped = Z.of_nat (List.length pairs)
    /\ feeds w' = (if replace then [] else feeds w) ++ new
    /\ entries w' = (if replace then [] else entries w)
    /\ sql_log w' = sql_log w ++ [BEGIN; COMMIT]
    /\ List.Forall (fun f => fresh_feed f /\ In (feed_pair f) pairs) new
    /\ (forall u, In u (List.map fst pairs) ->
                  In u (List.map f_url (feeds w'))).
Proof.
  unfold Opml.opml_import.
  set (w0 := if replace
             then with_feeds [] (with_entries []
                                   (with_sql_log (sql_log w ++ [BEGIN]) w))
             else with_sql_log (sql_log w ++ [BEGIN]) w).
  destruct (insert_pairs_run pairs 0 0 w0)
    as (i' & s' & new & Hrun & Hi & Hsum & Hs & Hall & Hpres & _).
  exists i', s', new.
  exists (with_sql_log (sql_log w0 ++ [COMMIT])
            (with_feeds (feeds w0 ++ new) w0)).
  split.
  { unfold bind at 1. unfold log_sql at 1, modify at 1.
    unfold bind at 1.
    assert (Hpre : (if replace
                    then modify (with_entries []);; modify (with_feeds [])
                    else ret tt)
                     (with_sql_log (sql_log w ++ [BEGIN]) w)
                   = (Ok tt, w0)).
    { unfold w0. now destruct replace. }
    rewrite Hpre. unfold bind at 1. rewrite Hrun.
    reflexivity. }
  split; [lia|]. split; [lia|]. split; [lia|].
  cbn [feeds entries sql_log with_sql_log with_feeds].
  split; [unfold w0; now destruct replace|].
  split; [unfold w0; now destruct replace|].
  split.
  { unfold w0. destruct replace; cbn; now rewrite <- List.app_assoc. }
  split; [exact Hall | exact Hpres].
Qed.


Section ParseFacts.

Variable P : Platform.

Lemma or_none_not_empty s : or_none s <> Some EmptyString.
Proof.
  unfold or_none. destruct (String.eqb s EmptyString) eqn:E;
    [discriminate|].
  apply String.eqb_neq in E. congruence.
Qed.

Lemma parse_outline_inv attrib acc :
  parse_inv acc -> parse_inv (Opml.parse_outline P attrib acc).
Proof.
  destruct acc as [pairs seen]. intros Hinv.
  unfold Opml.parse_outline.
  destruct (negb (truthy _)); [exact Hinv|].
  set (url := strip P _).
  destruct (String.eqb url EmptyString) eqn:Eu; cbn [orb];
    [exact Hinv|].
  destruct (bool_decide (url ∈ seen)) eqn:Es; [exact Hinv|].
  apply bool_decide_eq_false in Es. apply String.eqb_neq in Eu.
  destruct Hinv as (Hseen & Hnd & Hall).
  cbn [fst snd] in *.
  assert (Hfresh : ~ In url (List.map fst pairs)).
  { intros Hin. apply Es. now apply Hseen. }
  split; [|split]; cbn [fst snd].
  - intros u. rewrite List.map_app, List.in_app_iff. cbn.
    rewrite elem_of_union, elem_of_singleton, Hseen. intuition.
  - rewrite List.map_app. cbn. apply List.NoDup_app.
    + exact Hnd.
    + constructor; [intros [] | constructor].
    + intros a Ha [<- | []]. contradiction.
  - apply List.Forall_app. split; [exact Hall|].
    constructor; [|constructor]. cbn. split; [exact Eu|].
    apply or_none_not_empty.
Qed.

Lemma parse_opml_inv outlines acc :
  parse_inv acc ->
  parse_inv (List.fold_left (fun acc attrib => Opml.parse_outline P attrib acc)
                            outlines acc).
Proof.
  revert acc. induction outlines as [|a rest IH]; intros acc H;
    [exact H|].
  cbn. apply IH. now apply parse_outline_inv.
Qed.

End ParseFacts.

Lemma parsed_opml_pairs (P : Platform) (outlines : list (gmap string string)) :
  List.NoDup (List.map fst (Opml._parse_opml P outlines))
  /\ List.Forall (fun p => fst p <> EmptyString
                           /\ snd p <> Some EmptyString)
                 (Opml._parse_opml P outlines).
Proof.
  assert (Hinv : parse_inv
                   (List.fold_left
                      (fun acc attrib => Opml.parse_outline P attrib acc)
                      outlines ([], ∅))).
  { apply parse_opml_inv. split; [|split]; cbn.
    - intros u. split; [intros H; now apply not_elem_of_empty in H | tauto].
    - constructor.
    - constructor. }
  destruct Hinv as (_ & Hnd & Hall). now split.
Qed.

Lemma opml_replace_run pairs w imported skipped new :
  Opml.insert_pairs pairs 0 0
    (with_feeds [] (with_entries []
                      (with_sql_log (sql_log w ++ [BEGIN]) w)))
  = (Ok (imported, skipped),
     with_feeds ([] ++ new)
       (with_feeds [] (with_entries []
                         (with_sql_log (sql_log w ++ [BEGIN]) w)))) ->
  Opml.opml_import true pairs w
  = (Ok (imported, skipped),
     with_sql_log (sql_log w ++ [BEGIN; COMMIT])
       (with_feeds new (with_entries [] w))).
Proof.
  intros Hrun. unfold Opml.opml_import.
  unfold bind at 1. unfold log_sql at 1, modify at 1.
  unfold bind at 1. unfold bind at 1. unfold modify at 1 2.
  unfold bind at 1. rewrite Hrun. cbn.
  now rewrite <- List.app_assoc.
Qed.

(** X19. The pairs read from an OPML file: no url occurs twice, no url is
    empty and no title is the empty string, whatever the outlines hold.
    So a replace import of a parsed file skips nothing: it stores exactly
    the pairs of the file, in the order of the file, and no entry. *)
Theorem parsed_opml_imports_without_skips
    (P : Platform) (outlines : list (gmap string string)) (w : World) :
  let pairs := Opml._parse_opml P outlines in
  List.NoDup (List.map fst pairs)
  /\ List.Forall (fun p => fst p <> EmptyString
                           /\ snd p <> Some EmptyString) pairs
  /\ exists w',
       Opml.opml_import true pairs w
       = (Ok (Z.of_nat (List.length pairs), 0), w')
       /\ List.map feed_pair (feeds w') = pairs
       /\ entries w' = [].
Proof.
  intros pairs.
  assert (Hinv : parse_inv
                   (List.fold_left
                      (fun acc attrib => Opml.parse_outline P attrib acc)
                      outlines ([], ∅))).
  { apply parse_opml_inv. split; [|split]; cbn.
    - intros u. split; [intros H; now apply not_elem_of_empty in H | tauto].
    - constructor.
    - constructor. }
  destruct Hinv as (_ & Hnd & Hall). fold (Opml._parse_opml P outlines) in *.
  fold pairs in Hnd, Hall.
  split; [exact Hnd|]. split; [exact Hall|].
  destruct (insert_pairs_run pairs 0 0
              (with_feeds [] (with_entries []
                                (with_sql_log (sql_log w ++ [BEGIN]) w))))
    as (i' & s' & new & Hrun & Hi & Hsum & Hs & _ & _ & Hfresh).
  cbn [feeds with_feeds] in Hrun, Hfresh.
  specialize (Hfresh Hnd (fun u _ H => H)).
  assert (Hlen : List.length new = List.length pairs).
  { rewrite <- (List.length_map feed_pair new). now rewrite Hfresh. }
  assert (Hi' : i' = Z.of_nat (List.length pairs)) by lia.
  assert (Hs' : s' = 0) by lia.
  clear Hi Hsum Hs. subst i' s'.
  eexists. split; [apply (opml_replace_run pairs w _ _ new Hrun)|].
  cbn [feeds entries with_sql_log with_feeds with_entries].
  split; [exact Hfresh | reflexivity].
Qed.

Section FeedsTxtFacts.

Variable P : Platform.

Lemma feed_lines_cons line rest :
  feed_lines P (line :: rest)
  = if String.eqb (strip P line) EmptyString
       || String.prefix "#" (strip P line)
    then feed_lines P rest
    else strip P line :: feed_lines P rest.
Proof.
  unfold feed_lines. cbn [List.map List.filter].
  now destruct (String.eqb (strip P line) EmptyString
                || String.prefix "#" (strip P line)).
Qed.

(** The loop over the lines of feeds.txt. *)
Lemma ensure_lines_run lines n w :
  exists new,
    Opml.ensure_lines P lines n w
    = (Ok (n + Z.of_nat (List.length (feed_lines P lines))),
       with_feeds (feeds w ++ new) w)
    /\ (List.length new <= List.length (feed_lines P lines))%nat
    /\ List.Forall
         (fun f => fresh_feed f /\ f_title f = None
                   /\ In (f_url f) (feed_lines P lines)) new
    /\ (forall u, In u (feed_lines P lines) ->
                  In u (List.map f_url (feeds w ++ new)))
    /\ ((forall u, In u (feed_lines P lines) ->
                   In u (List.map f_url (feeds w))) ->
        new = []).
Proof.
  revert n w. induction lines as [|line rest IH]; intros n w.
  - exists []. cbn. rewrite List.app_nil_r, with_feeds_same, Z.add_0_r.
    repeat split; try constructor. intros u [].
  - cbn [Opml.ensure_lines]. rewrite feed_lines_cons.
    destruct (String.eqb (strip P line) EmptyString
              || String.prefix "#" (strip P line)); [apply IH|].
    unfold bind at 1. unfold Opml.ensure_feed, modify.
    destruct (insert_feed_cases (strip P line) None (feeds w))
      as [(Hin & ->) | (Hout & ->)]; cbn [fst].
    + rewrite with_feeds_same.
      destruct (IH (n + 1) w) as (new & Hrun & Hlen & Hall & Hpres & Hnone).
      exists new. split.
      { rewrite Hrun. cbn [List.length]. do 2 f_equal. lia. }
      split; [cbn [List.length]; lia|]. split; [|split].
      * eapply List.Forall_impl; [|exact Hall].
        intros f (Hf & Ht & Hu). repeat split; try assumption. now right.
      * intros u [<- | Hu]; [|now apply Hpres].
        rewrite List.map_app. apply List.in_or_app. now left.
      * intros H. apply Hnone. intros u Hu. apply H. now right.
    + set (row := Tables.new_feed (Tables.next_feed_id (feeds w))
                                  (strip P line) None).
      destruct (IH (n + 1) (with_feeds (feeds w ++ [row]) w))
        as (new & Hrun & Hlen & Hall & Hpres & Hnone).
      cbn [feeds with_feeds] in *. rewrite with_feeds_twice in Hrun.
      exists (row :: new).
      replace (feeds w ++ row :: new) with ((feeds w ++ [row]) ++ new)
        by now rewrite <- List.app_assoc.
      split.
      { rewrite Hrun. cbn [List.length]. do 2 f_equal. lia. }
      split; [cbn [List.length]; lia|]. split; [|split].
      * constructor.
        -- repeat split. now left.
        -- eapply List.Forall_impl; [|exact Hall].
           intros f (Hf & Ht & Hu). repeat split; try assumption.
           now right.
      * intros u [<- | Hu]; [|now apply Hpres].
        rewrite !List.map_app. apply List.in_or_app. left.
        apply List.in_or_app. right. now left.
      * intros H. elim Hout. apply H. now left.
Qed.

Lemma import_feeds_txt_run lines w new :
  Opml.ensure_lines P lines 0 (with_sql_log (sql_log w ++ [BEGIN]) w)
  = (Ok (0 + Z.of_nat (List.length (feed_lines P lines))),
     with_feeds (feeds w ++ new) (with_sql_log (sql_log w ++ [BEGIN]) w)) ->
  Opml.import_feeds_txt P (Some lines) w
  = (Ok (Z.of_nat (List.length (feed_lines P lines))),
     with_sql_log (sql_log w ++ [BEGIN; COMMIT])
       (with_feeds (feeds w ++ new) w)).
Proof.
  intros Hrun. unfold Opml.import_feeds_txt.
  unfold bind at 1. unfold log_sql at 1, modify at 1.
  unfold bind at 1. rewrite Hrun. cbn.
  now rewrite <- List.app_assoc.
Qed.

End FeedsTxtFacts.

(** X20. Importing feeds.txt. The function returns the number of lines
    that name a feed (lines that are neither blank nor comments after
    stripping), whether or not their feeds were stored already: the count
    can exceed the number of rows added. It only appends rows, each
    without a title or fetch history and due at once, and afterwards every
    named url is stored. A second import of the same file returns the same
    number and adds nothing. A missing file gives 0 and changes
    nothing. *)
Theorem feeds_txt_import_is_repeatable
    (P : Platform) (lines : list string) (w : World) :
  let n := Z.of_nat (List.length (feed_lines P lines)) in
  Opml.import_feeds_txt P None w = (Ok 0, w)
  /\ exists new w1,
       Opml.import_feeds_txt P (Some lines) w = (Ok n, w1)
       /\ feeds w1 = feeds w ++ new
       /\ entries w1 = entries w
       /\ Z.of_nat (List.length new) <= n
       /\ List.Forall
            (fun f => fresh_feed f /\ f_title f = None
                      /\ In (f_url f) (feed_lines P lines)) new
       /\ (forall u, In u (feed_lines P lines) ->
                     In u (List.map f_url (feeds w1)))
       /\ exists w2,
            Opml.import_feeds_txt P (Some lines) w1 = (Ok n, w2)
            /\ feeds w2 = feeds w1
            /\ entries w2 = entries w1.
Proof.
  intros n. split; [reflexivity|].
  destruct (ensure_lines_run P lines 0
              (with_sql_log (sql_log w ++ [BEGIN]) w))
    as (new & Hrun & Hlen & Hall & Hpres & _).
  cbn [feeds with_sql_log] in Hrun, Hpres.
  eexists new, _. split; [apply (import_feeds_txt_run P lines w new Hrun)|].
  cbn [feeds entries with_sql_log with_feeds].
  split; [reflexivity|]. split; [reflexivity|].
  split; [unfold n; lia|]. split; [exact Hall|]. split; [exact Hpres|].
  set (w1 := with_sql_log (sql_log w ++ [BEGIN; COMMIT])
               (with_feeds (feeds w ++ new) w)).
  destruct (ensure_lines_run P lines 0
              (with_sql_log (sql_log w1 ++ [BEGIN]) w1))
    as (new2 & Hrun2 & _ & _ & _ & Hnone).
  cbn [feeds with_sql_log] in Hrun2, Hnone.
  assert (Hnew2 : new2 = []).
  { apply Hnone. unfold w1. cbn [feeds with_sql_log with_feeds].
    exact Hpres. }
  subst new2.
  eexists. split; [apply (import_feeds_txt_run P lines w1 [] Hrun2)|].
  cbn [feeds entries with_sql_log with_feeds].
  split; [now rewrite List.app_nil_r | reflexivity].
Qed.

Section DefaultOpmlFacts.

(** The loop of the start-up import on pairs as [_parse_opml] gives them,
    none of which is stored. *)
Lemma insert_default_pairs_fresh pairs n w :
  List.NoDup (List.map fst pairs) ->
  List.Forall (fun p => fst p <> EmptyString
                        /\ snd p <> Some EmptyString) pairs ->
  (forall u, In u (List.map fst pairs) ->
             ~ In u (List.map f_url (feeds w))) ->
  exists new,
    Opml.insert_default_pairs pairs n w
    = (Ok (n + Z.of_nat (List.length pairs)),
       with_feeds (feeds w ++ new) w)
    /\ List.map feed_pair new = pairs
    /\ List.Forall fresh_feed new.
Proof.
  revert n w. induction pairs as [|[u t] rest IH]; intros n w Hnd Hall Hnew.
  - exists []. cbn. rewrite List.app_nil_r, with_feeds_same, Z.add_0_r.
    repeat split. constructor.
  - cbn [Opml.insert_default_pairs].
    apply List.NoDup_cons_iff in Hnd as (Hu & Hnd).
    apply List.Forall_cons_iff in Hall as ((Hne & Ht) & Hall).
    cbn [fst snd] in Hne, Ht.
    assert (Eu : String.eqb u EmptyString = false)
      by now apply String.eqb_neq.
    rewrite Eu.
    assert (Etitle : (if truthy t then t else None) = t).
    { destruct t as [s|]; [|reflexivity]. cbn.
      destruct (String.eqb s EmptyString) eqn:E; [|reflexivity].
      apply String.eqb_eq in E. congruence. }
    rewrite Etitle.
    unfold bind at 1. unfold modify.
    destruct (insert_feed_cases u t (feeds w)) as [(Hin & _) | (_ & ->)].
    { elim (Hnew u); [now left | exact Hin]. }
    cbn [fst].
    set (row := Tables.new_feed (Tables.next_feed_id (feeds w)) u t).
    destruct (IH (n + 1) (with_feeds (feeds w ++ [row]) w) Hnd Hall)
      as (new & Hrun & Hmap & Hfresh).
    { intros x Hx Hin. cbn [feeds with_feeds] in Hin.
      rewrite List.map_app in Hin.
      apply List.in_app_iff in Hin as [Hin | [<- | []]].
      - apply (Hnew x); [now right | exact Hin].
      - contradiction. }
    cbn [feeds with_feeds] in Hrun. rewrite with_feeds_twice in Hrun.
    exists (row :: new).
    replace (feeds w ++ row :: new) with ((feeds w ++ [row]) ++ new)
      by now rewrite <- List.app_assoc.
    split.
    { rewrite Hrun. cbn [List.length]. do 2 f_equal. lia. }
    split; [cbn [List.map]; now rewrite Hmap|].
    constructor; [reflexivity | exact Hfresh].
Qed.

End DefaultOpmlFacts.

(** X21. The start-up import of feeds.opml fills an empty database only.
    When the feeds table holds a row the function returns 0 and changes
    nothing, and the file is not even parsed: a broken file goes
    unnoticed. On an empty table a file that is not XML makes it raise
    ValueError with nothing stored, and a file that parses stores exactly
    its pairs, in order, as rows that are due at once; the number
    returned is the number of rows stored. *)
Theorem default_opml_fills_empty_database_only
    (P : Platform) (w : World) :
  Opml.import_default_opml_if_needed P None w = (Ok 0, w)
  /\ (feeds w <> [] ->
      forall xml,
        Opml.import_default_opml_if_needed P (Some xml) w = (Ok 0, w))
  /\ (feeds w = [] ->
      Opml.import_default_opml_if_needed P (Some None) w
      = (Raise ValueError, w))
  /\ (feeds w = [] ->
      forall outlines,
        exists w',
          Opml.import_default_opml_if_needed P (Some (Some outlines)) w
          = (Ok (Z.of_nat
                   (List.length (Opml._parse_opml P outlines))), w')
          /\ List.map feed_pair (feeds w') = Opml._parse_opml P outlines
          /\ List.Forall fresh_feed (feeds w')
          /\ entries w' = entries w
          /\ sql_log w' = sql_log w ++ [BEGIN; COMMIT]).
Proof.
  split; [reflexivity|]. split; [|split].
  - intros Hne xml. unfold Opml.import_default_opml_if_needed.
    unfold bind, gets.
    destruct (feeds w) as [|f fs]; [now elim Hne|]. reflexivity.
  - intros He. unfold Opml.import_default_opml_if_needed.
    unfold bind, gets. rewrite He. reflexivity.
  - intros He outlines.
    destruct (parsed_opml_pairs P outlines) as (Hnd & Hall).
    destruct (insert_default_pairs_fresh (Opml._parse_opml P outlines) 0
                (with_sql_log (sql_log w ++ [BEGIN]) w) Hnd Hall)
      as (new & Hrun & Hmap & Hfresh).
    { intros u _. cbn [feeds with_sql_log]. rewrite He. intros []. }
    cbn [feeds with_sql_log] in Hrun. rewrite He in Hrun.
    cbn [List.app] in Hrun.
    eexists. split.
    { unfold Opml.import_default_opml_if_needed.
      unfold bind at 1. unfold gets at 1. rewrite He. cbn [List.length].
      change (0 <? Z.of_nat 0) with false. cbv iota.
      unfold bind at 1. unfold log_sql at 1, modify at 1.
      unfold bind at 1. rewrite Hrun. cbn. reflexivity. }
    cbn [feeds entries sql_log with_sql_log with_feeds].
    split; [exact Hmap|]. split; [exact Hfresh|].
    split; [reflexivity|]. now rewrite <- List.app_assoc.
Qed.

(** * Properties of the text helpers *)

Section TextFacts.

Lemma append_cons c a b : String c a +:+ b = String c (a +:+ b).
Proof. reflexivity. Qed.

Lemma or_empty_Some s : or_empty (Some s) = s.
Proof.
  unfold or_empty, or_, truthy.
  destruct (String.eqb s EmptyString) eqn:E; [|reflexivity].
  apply String.eqb_eq in E. now rewrite E.
Qed.

Lemma all_safe_app a b :
  all_safe (a +:+ b) = all_safe a && all_safe b.
Proof.
  induction a as [|c a IH]; [reflexivity|]. rewrite append_cons. cbn.
  now rewrite IH, andb_assoc.
Qed.

Lemma sub_unsafe_all_safe in_run s :
  all_safe (Text.sub_unsafe in_run s) = true.
Proof.
  revert in_run. induction s as [|c s IH]; intros in_run; [reflexivity|].
  cbn. destruct (Text.safe_char c) eqn:E.
  - cbn. now rewrite E, IH.
  - destruct in_run; [apply IH|]. cbn. apply IH.
Qed.

Lemma sub_unsafe_fixes_safe in_run s :
  all_safe s = true -> Text.sub_unsafe in_run s = s.
Proof.
  revert in_run. induction s as [|c s IH]; intros in_run H;
    [reflexivity|].
  cbn in *. apply andb_true_iff in H as (Hc & Hs).
  rewrite Hc. now rewrite IH.
Qed.

Lemma all_safe_count c s :
  all_safe s = true -> Text.safe_char c = false -> count_char c s = O.
Proof.
  intros Hs Hc. induction s as [|d s IH]; [reflexivity|].
  cbn in *. apply andb_true_iff in Hs as (Hd & Hs).
  destruct (Ascii.eqb d c) eqn:E.
  - apply Ascii.eqb_eq in E. congruence.
  - now apply IH.
Qed.

Lemma length_lower s : String.length (Text.lower s) = String.length s.
Proof. induction s as [|c s IH]; [reflexivity|]. cbn. now rewrite IH. Qed.

Lemma length_append a b :
  String.length (a +:+ b) = (String.length a + String.length b)%nat.
Proof.
  induction a as [|c a IH]; [reflexivity|]. rewrite append_cons. cbn.
  now rewrite IH.
Qed.

Lemma substring_after a :
  String.substring (String.length a) 3 (Text.lower (a +:+ ".db")) = ".db".
Proof.
  induction a as [|c a IH]; [reflexivity|]. rewrite append_cons. cbn.
  exact IH.
Qed.

Lemma endswith_db_appended a :
  Text.endswith ".db" (Text.lower (a +:+ ".db")) = true.
Proof.
  unfold Text.endswith. rewrite length_lower, length_append.
  change (String.length ".db") with 3%nat.
  replace (String.length a + 3 - 3)%nat with (String.length a) by lia.
  rewrite substring_after, String.eqb_refl. cbn [andb].
  apply Nat.leb_le. lia.
Qed.

Lemma sanitize_cases strip name :
  let s := Text.sub_unsafe false (strip (or_empty name)) in
  (s = EmptyString /\ Text._sanitize_db_name strip name = EmptyString)
  \/ (s <> EmptyString
      /\ Text.endswith ".db" (Text.lower s) = false
      /\ Text._sanitize_db_name strip name = s +:+ ".db")
  \/ (s <> EmptyString
      /\ Text.endswith ".db" (Text.lower s) = true
      /\ Text._sanitize_db_name strip name = s).
Proof.
  intros s. unfold Text._sanitize_db_name. fold s.
  destruct (String.eqb s EmptyString) eqn:E.
  - left. apply String.eqb_eq in E. now split.
  - apply String.eqb_neq in E. right.
    destruct (Text.endswith ".db" (Text.lower s)) eqn:Ed; cbn [negb].
    + right. now repeat split.
    + left. now repeat split.
Qed.

Lemma count_char_app c a b :
  count_char c (a +:+ b) = (count_char c a + count_char c b)%nat.
Proof.
  induction a as [|d a IH]; [reflexivity|]. rewrite append_cons. cbn.
  rewrite IH. lia.
Qed.

Lemma count_replace_same old new s :
  count_char old new = O -> count_char old (Text.replace old new s) = O.
Proof.
  intros Hnew. induction s as [|d s IH]; [reflexivity|]. cbn.
  destruct (Ascii.eqb d old) eqn:E.
  - rewrite count_char_app, Hnew, IH. reflexivity.
  - cbn. rewrite E, IH. reflexivity.
Qed.

Lemma count_replace_other c old new s :
  count_char c new = O -> c <> old ->
  count_char c (Text.replace old new s) = count_char c s.
Proof.
  intros Hnew Hne. induction s as [|d s IH]; [reflexivity|]. cbn.
  destruct (Ascii.eqb d old) eqn:E.
  - apply Ascii.eqb_eq in E. subst d.
    rewrite count_char_app, Hnew, IH.
    destruct (Ascii.eqb old c) eqn:E'; [|reflexivity].
    apply Ascii.eqb_eq in E'. congruence.
  - cbn. now rewrite IH.
Qed.

Lemma esc_clean s :
  count_char Text.dquote (Text.esc s) = O
  /\ count_char "<" (Text.esc s) = O
  /\ count_char ">" (Text.esc s) = O.
Proof.
  unfold Text.esc. split; [|split].
  - now apply count_replace_same.
  - rewrite count_replace_other by (reflexivity || discriminate).
    rewrite count_replace_other by (reflexivity || discriminate).
    now apply count_replace_same.
  - rewrite count_replace_other by (reflexivity || discriminate).
    now apply count_replace_same.
Qed.

End TextFacts.

(** X22. The file name made from a database name. Whatever the name and
    whatever stripping does, the result holds only letters, digits, dots,
    underscores and hyphens, so no path separator, no NUL and no space;
    and it is either empty or ends in ".db" in some letter case, so it is
    never "." or "..". *)
Theorem sanitized_db_name_is_a_file_name
    (strip : string -> string) (name : option string) :
  let s := Text._sanitize_db_name strip name in
  all_safe s = true
  /\ count_char "/" s = O
  /\ count_char "\" s = O
  /\ count_char " " s = O
  /\ count_char (ascii_of_nat 0) s = O
  /\ (s = EmptyString \/ Text.endswith ".db" (Text.lower s) = true)
  /\ s <> "." /\ s <> "..".
Proof.
  intros s.
  assert (Hsafe : all_safe s = true).
  { unfold s.
    destruct (sanitize_cases strip name)
      as [(_ & ->) | [(_ & _ & ->) | (_ & _ & ->)]].
    - reflexivity.
    - rewrite all_safe_app, sub_unsafe_all_safe. reflexivity.
    - apply sub_unsafe_all_safe. }
  assert (Hend : s = EmptyString
                 \/ Text.endswith ".db" (Text.lower s) = true).
  { unfold s.
    destruct (sanitize_cases strip name)
      as [(_ & ->) | [(_ & _ & ->) | (_ & Hd & ->)]].
    - now left.
    - right. apply endswith_db_appended.
    - now right. }
  split; [exact Hsafe|].
  split; [now apply all_safe_count|].
  split; [now apply all_safe_count|].
  split; [now apply all_safe_count|].
  split; [now apply all_safe_count|].
  split; [exact Hend|].
  split; intros E; rewrite E in Hend;
    destruct Hend as [H|H]; discriminate.
Qed.

(** X23. Sanitizing a database name twice changes nothing more, provided
    stripping leaves alone a string that holds only letters, digits, dots,
    underscores and hyphens (none of which is white space). *)
Theorem sanitize_db_name_is_idempotent
    (strip : string -> string) (name : option string) :
  (forall s, all_safe s = true -> strip s = s) ->
  Text._sanitize_db_name strip
    (Some (Text._sanitize_db_name strip name))
  = Text._sanitize_db_name strip name.
Proof.
  intros Hstrip.
  set (r := Text._sanitize_db_name strip name).
  assert (Hsafe : all_safe r = true).
  { unfold r.
    destruct (sanitize_cases strip name)
      as [(_ & ->) | [(_ & _ & ->) | (_ & _ & ->)]].
    - reflexivity.
    - rewrite all_safe_app, sub_unsafe_all_safe. reflexivity.
    - apply sub_unsafe_all_safe. }
  assert (Hend : r = EmptyString
                 \/ Text.endswith ".db" (Text.lower r) = true).
  { unfold r.
    destruct (sanitize_cases strip name)
      as [(_ & ->) | [(_ & _ & ->) | (_ & Hd & ->)]].
    - now left.
    - right. apply endswith_db_appended.
    - now right. }
  assert (Hfix : Text.sub_unsafe false (strip (or_empty (Some r))) = r).
  { rewrite or_empty_Some, (Hstrip r Hsafe).
    now apply sub_unsafe_fixes_safe. }
  destruct (sanitize_cases strip (Some r))
    as [(He & ->) | [(_ & Hd & _) | (_ & _ & ->)]].
  - now rewrite <- Hfix.
  - rewrite Hfix in Hd. destruct Hend as [He | He].
    + rewrite He in Hd. rewrite He in Hfix.
      destruct (sanitize_cases strip (Some r))
        as [(_ & ->) | [(Hne & _) | (Hne & _)]];
        [now rewrite He | rewrite He in Hne | rewrite He in Hne].
      * rewrite He in *. now elim Hne.
      * rewrite He in *. now elim Hne.
    + congruence.
  - exact Hfix.
Qed.

Lemma sanitize_db_name_is_idempotent_witness :
  Text._sanitize_db_name (fun s => s)
    (Some (Text._sanitize_db_name (fun s => s) (Some "my feeds/2024")))
  = Text._sanitize_db_name (fun s => s) (Some "my feeds/2024").
Proof.
  apply (sanitize_db_name_is_idempotent (fun s => s)
           (Some "my feeds/2024")).
  reflexivity.
Defined.

Lemma esc_cons_other c s :
  c <> "&"%char -> c <> "<"%char -> c <> ">"%char -> c <> Text.dquote ->
  Text.esc (String c s) = String c (Text.esc s).
Proof.
  intros H1 H2 H3 H4. unfold Text.esc. cbn [Text.replace].
  destruct (Ascii.eqb_spec c "&"); [contradiction|].
  cbn [Text.replace].
  destruct (Ascii.eqb_spec c "<"); [contradiction|].
  cbn [Text.replace].
  destruct (Ascii.eqb_spec c ">"); [contradiction|].
  cbn [Text.replace].
  destruct (Ascii.eqb_spec c Text.dquote); [contradiction|].
  reflexivity.
Qed.

(** X24. The local function [esc] of the OPML export replaces the four
    characters [&], [<], [>] and the double quote by their entities, in
    one pass - the [&] of an entity it has written is not escaped again -
    and copies every other character as it is, control characters
    included. So the text of an attribute holds no double quote and no
    angle bracket, and the outline line holds exactly the eight double
    quotes of its four attributes and the two angle brackets of its tag,
    whatever the url and the title contain. *)
Theorem opml_outline_escapes_markup (url title : option string) :
  Text.esc EmptyString = EmptyString
  /\ (forall s, Text.esc (String "&" s) = "&amp;" +:+ Text.esc s)
  /\ (forall s, Text.esc (String "<" s) = "&lt;" +:+ Text.esc s)
  /\ (forall s, Text.esc (String ">" s) = "&gt;" +:+ Text.esc s)
  /\ (forall s,
        Text.esc (String Text.dquote s) = "&quot;" +:+ Text.esc s)
  /\ (forall c s,
        c <> "&"%char -> c <> "<"%char -> c <> ">"%char ->
        c <> Text.dquote ->
        Text.esc (String c s) = String c (Text.esc s))
  /\ (forall c s,
        (nat_of_ascii c < 32)%nat ->
        Text.esc (String c s) = String c (Text.esc s))
  /\ (forall s,
        count_char Text.dquote (Text.esc s) = O
        /\ count_char "<" (Text.esc s) = O
        /\ count_char ">" (Text.esc s) = O)
  /\ count_char Text.dquote (Text.outline url title) = 8%nat
  /\ count_char "<" (Text.outline url title) = 1%nat
  /\ count_char ">" (Text.outline url title) = 1%nat.
Proof.
  split; [reflexivity|].
  split; [intros s; reflexivity|].
  split; [intros s; reflexivity|].
  split; [intros s; reflexivity|].
  split; [intros s; reflexivity|].
  split; [exact esc_cons_other|].
  split.
  { intros c s Hc.
    apply esc_cons_other; intros ->; vm_compute in Hc; lia. }
  split; [exact esc_clean|].
  unfold Text.outline.
  set (u := or_empty url). set (t := or_str (or_empty title) u).
  destruct (esc_clean u) as (Hq & Hl & Hg).
  destruct (esc_clean t) as (Hq' & Hl' & Hg').
  repeat split;
    rewrite !count_char_app, ?Hq, ?Hl, ?Hg, ?Hq', ?Hl', ?Hg';
    reflexivity.
Qed.

(** * Further properties of the job manager *)

Section JobLifeFacts.

Lemma event_is_set_app ev evs more :
  event_is_set ev evs = true -> event_is_set ev (evs ++ more) = true.
Proof.
  unfold event_is_set. destruct (evs !! ev) as [b|] eqn:E; [|discriminate].
  intros ->. now rewrite (lookup_app_l_Some _ _ _ _ E).
Qed.

Lemma event_is_set_insert ev ev' evs :
  event_is_set ev evs = true ->
  event_is_set ev (set_event ev' evs) = true.
Proof.
  unfold event_is_set, set_event.
  destruct (evs !! ev) as [b|] eqn:E; [|discriminate]. intros ->.
  destruct (decide (ev' = ev)) as [->|Hne].
  - rewrite list_lookup_insert_eq; [reflexivity|].
    now apply lookup_lt_Some in E.
  - rewrite list_lookup_insert_ne by exact Hne. now rewrite E.
Qed.

(** Nothing clears an event, and nothing removes a job dict. *)
Lemma step_keeps m m' :
  step m m' ->
  (forall ev, event_is_set ev (events m) = true ->
              event_is_set ev (events m') = true)
  /\ (forall id, is_Some (_jobs m !! id) -> is_Some (_jobs m' !! id)).
Proof.
  intros Hstep.
  destruct Hstep as [fs t1 t2 t3 pid m | job_id now m | r p now m _ _
                     | r stats now m _ | r msg now m _].
  - unfold start_update_job. destruct (active_running m); [now split|].
    cbn [snd events _jobs]. split.
    + intros ev. apply event_is_set_app.
    + intros id Hid.
      destruct (decide (_new_job_id t1 pid = id)) as [<-|Hne].
      * rewrite lookup_insert_eq. eauto.
      * now rewrite lookup_insert_ne by exact Hne.
  - unfold cancel_update_job.
    destruct (_jobs m !! job_id) as [job0|] eqn:E0; [|now split].
    destruct (_cancel_event job0) as [ev0|]; [|now split].
    cbn [snd events _jobs]. split.
    + intros ev. apply event_is_set_insert.
    + intros id Hid.
      destruct (decide (job_id = id)) as [<-|Hne].
      * rewrite lookup_insert_eq. eauto.
      * now rewrite lookup_insert_ne by exact Hne.
  - unfold _progress_updater.
    destruct (_jobs m !! r_job_id r) as [job0|] eqn:E0; [|now split].
    cbn [events _jobs]. split; [auto|].
    intros id Hid.
    destruct (decide (r_job_id r = id)) as [<-|Hne].
    + rewrite lookup_insert_eq. eauto.
    + now rewrite lookup_insert_ne by exact Hne.
  - unfold runner_done.
    destruct (_jobs m !! r_job_id r) as [job0|] eqn:E0; [|now split].
    cbn [events _jobs]. split; [auto|].
    intros id Hid.
    destruct (decide (r_job_id r = id)) as [<-|Hne].
    + rewrite lookup_insert_eq. eauto.
    + now rewrite lookup_insert_ne by exact Hne.
  - unfold runner_failed.
    destruct (_jobs m !! r_job_id r) as [job0|] eqn:E0; [|now split].
    cbn [events _jobs]. split; [auto|].
    intros id Hid.
    destruct (decide (r_job_id r = id)) as [<-|Hne].
    + rewrite lookup_insert_eq. eauto.
    + now rewrite lookup_insert_ne by exact Hne.
Qed.

Lemma steps_keep m m' :
  rtc step m m' ->
  (forall ev, event_is_set ev (events m) = true ->
              event_is_set ev (events m') = true)
  /\ (forall id, is_Some (_jobs m !! id) -> is_Some (_jobs m' !! id)).
Proof.
  induction 1 as [m | m m1 m2 Hstep _ IH]; [now split|].
  destruct (step_keeps _ _ Hstep) as (He & Hj).
  destruct IH as (He' & Hj'). split; auto.
Qed.

(** The event of every job dict was allocated. *)
Lemma job_events_allocated m :
  reachable m ->
  forall id job ev,
    _jobs m !! id = Some job -> _cancel_event job = Some ev ->
    (ev < List.length (events m))%nat.
Proof.
  induction 1 as [|m m' _ IH Hstep];
    [intros id job ev H; discriminate H|].
  destruct Hstep as [fs t1 t2 t3 pid m | job_id now m | r p now m _ _
                     | r stats now m _ | r msg now m _].
  - unfold start_update_job. destruct (active_running m); [exact IH|].
    cbn [snd events _jobs]. intros id job ev Hl Hev.
    rewrite List.length_app. cbn [List.length].
    destruct (decide (_new_job_id t1 pid = id)) as [<-|Hne].
    + rewrite lookup_insert_eq in Hl. injection Hl as <-.
      cbn in Hev. injection Hev as <-. lia.
    + rewrite lookup_insert_ne in Hl by exact Hne.
      pose proof (IH _ _ _ Hl Hev). lia.
  - unfold cancel_update_job.
    destruct (_jobs m !! job_id) as [job0|] eqn:E0; [|exact IH].
    destruct (_cancel_event job0) as [ev0|] eqn:Ev0; [|exact IH].
    cbn [snd events _jobs]. intros id job ev Hl Hev.
    unfold set_event. rewrite length_insert.
    destruct (decide (job_id = id)) as [<-|Hne].
    + rewrite lookup_insert_eq in Hl. injection Hl as <-.
      cbn in Hev. injection Hev as <-.
      exact (IH _ _ _ E0 Ev0).
    + rewrite lookup_insert_ne in Hl by exact Hne.
      exact (IH _ _ _ Hl Hev).
  - unfold _progress_updater.
    destruct (_jobs m !! r_job_id r) as [job0|] eqn:E0; [|exact IH].
    cbn [events _jobs]. intros id job ev Hl Hev.
    destruct (decide (r_job_id r = id)) as [<-|Hne].
    + rewrite lookup_insert_eq in Hl. injection Hl as <-.
      cbn in Hev. exact (IH _ _ _ E0 Hev).
    + rewrite lookup_insert_ne in Hl by exact Hne.
      exact (IH _ _ _ Hl Hev).
  - unfold runner_done.
    destruct (_jobs m !! r_job_id r) as [job0|] eqn:E0; [|exact IH].
    cbn [events _jobs]. intros id job ev Hl Hev.
    destruct (decide (r_job_id r = id)) as [<-|Hne].
    + rewrite lookup_insert_eq in Hl. injection Hl as <-.
      cbn in Hev. exact (IH _ _ _ E0 Hev).
    + rewrite lookup_insert_ne in Hl by exact Hne.
      exact (IH _ _ _ Hl Hev).
  - unfold runner_failed.
    destruct (_jobs m !! r_job_id r) as [job0|] eqn:E0; [|exact IH].
    cbn [events _jobs]. intros id job ev Hl Hev.
    destruct (decide (r_job_id r = id)) as [<-|Hne].
    + rewrite lookup_insert_eq in Hl. injection Hl as <-.
      cbn in Hev. exact (IH _ _ _ E0 Hev).
    + rewrite lookup_insert_ne in Hl by exact Hne.
      exact (IH _ _ _ Hl Hev).
Qed.

(** Every state ever stored in a job dict is one of five. *)
Lemma job_state_known m :
  reachable m ->
  forall id job, _jobs m !! id = Some job -> In (state job) job_states.
Proof.
  induction 1 as [|m m' _ IH Hstep];
    [intros id job H; discriminate H|].
  destruct Hstep as [fs t1 t2 t3 pid m | job_id now m | r p now m _ Hp
                     | r stats now m _ | r msg now m _].
  - unfold start_update_job. destruct (active_running m); [exact IH|].
    cbn [snd _jobs]. intros id job Hl.
    destruct (decide (_new_job_id t1 pid = id)) as [<-|Hne].
    + rewrite lookup_insert_eq in Hl. injection Hl as <-. cbn. tauto.
    + rewrite lookup_insert_ne in Hl by exact Hne. eauto.
  - unfold cancel_update_job.
    destruct (_jobs m !! job_id) as [job0|] eqn:E0; [|exact IH].
    destruct (_cancel_event job0) as [ev0|]; [|exact IH].
    cbn [snd _jobs]. intros id job Hl.
    destruct (decide (job_id = id)) as [<-|Hne].
    + rewrite lookup_insert_eq in Hl. injection Hl as <-. cbn. tauto.
    + rewrite lookup_insert_ne in Hl by exact Hne. eauto.
  - unfold _progress_updater.
    destruct (_jobs m !! r_job_id r) as [job0|] eqn:E0; [|exact IH].
    cbn [_jobs]. intros id job Hl.
    destruct (decide (r_job_id r = id)) as [<-|Hne].
    + rewrite lookup_insert_eq in Hl. injection Hl as <-.
      cbn. rewrite Hp. cbn. tauto.
    + rewrite lookup_insert_ne in Hl by exact Hne. eauto.
  - unfold runner_done.
    destruct (_jobs m !! r_job_id r) as [job0|] eqn:E0; [|exact IH].
    cbn [_jobs]. intros id job Hl.
    destruct (decide (r_job_id r = id)) as [<-|Hne].
    + rewrite lookup_insert_eq in Hl. injection Hl as <-. cbn.
      destruct (event_is_set _ _); cbn; tauto.
    + rewrite lookup_insert_ne in Hl by exact Hne. eauto.
  - unfold runner_failed.
    destruct (_jobs m !! r_job_id r) as [job0|] eqn:E0; [|exact IH].
    cbn [_jobs]. intros id job Hl.
    destruct (decide (r_job_id r = id)) as [<-|Hne].
    + rewrite lookup_insert_eq in Hl. injection Hl as <-. cbn. tauto.
    + rewrite lookup_insert_ne in Hl by exact Hne. eauto.
Qed.

End JobLifeFacts.

(** X25. A cancellation is never lost. Once [cancel_update_job] has
    answered [True] for a job, whatever happens next in the manager -
    progress reports that put the state back to "running", other jobs
    started, cancelled or finished - the runner of that job, when its
    sweep returns, stores the state "cancelled", never "done". *)
Theorem cancelled_job_ends_cancelled
    (m : Manager) (id : string) (job : Job) (ev : nat) (now : Z) :
  reachable m ->
  _jobs m !! id = Some job ->
  _cancel_event job = Some ev ->
  fst (cancel_update_job id now m) = true
  /\ forall m',
       rtc step (snd (cancel_update_job id now m)) m' ->
       forall stats t,
         state <$> (_jobs (runner_done (mkRunner id ev) stats t m') !! id)
         = Some "cancelled".
Proof.
  intros Hr Hl Hev.
  pose proof (job_events_allocated m Hr id job ev Hl Hev) as Hlt.
  unfold cancel_update_job. rewrite Hl, Hev. cbn [fst snd].
  split; [reflexivity|].
  intros m' Hsteps stats t.
  destruct (steps_keep _ _ Hsteps) as (Hset & Hjobs).
  cbn [events _jobs] in Hset, Hjobs.
  assert (Hev' : event_is_set ev (events m') = true).
  { apply Hset. unfold event_is_set, set_event.
    now rewrite list_lookup_insert_eq. }
  destruct (Hjobs id) as (job' & Hjob').
  { rewrite lookup_insert_eq. eauto. }
  unfold runner_done. cbn [r_job_id r_cancel_event].
  rewrite Hjob', Hev'. cbn [_jobs].
  now rewrite lookup_insert_eq.
Qed.

Lemma cancelled_job_ends_cancelled_witness :
  fst (cancel_update_job "job_100_7" 101 jobs_started) = true
  /\ state <$> (_jobs (runner_done (mkRunner "job_100_7" 0)
                         (mkStats 0 0 0 2) 103
                         (_progress_updater "job_100_7"
                            (mkProgress 2 1 0 0 "running" None) 102
                            jobs_cancelled))
                !! "job_100_7")
     = Some "cancelled".
Proof.
  destruct (cancelled_job_ends_cancelled jobs_started "job_100_7"
              (mkJob "running" 0 0 0 0 None 100 100 (Some O) None None)
              O 101 reachable_jobs_started eq_refl eq_refl)
    as (Hok & Hend).
  split; [exact Hok|].
  apply Hend. apply rtc_once.
  apply (step_progress (mkRunner "job_100_7" 0)
           (mkProgress 2 1 0 0 "running" None) 102).
  - vm_compute. apply list_elem_of_here.
  - reflexivity.
Defined.

(** X26. The states of a job. In every reachable state of the manager
    each job dict is in one of the states "running", "cancelling",
    "cancelled", "done" and "error"; no job is ever "starting", so the
    guard of the database switch, which also tests for that state, blocks
    exactly when the guard of the feed routes does. What [get_job] returns
    carries the id it was asked for and never the cancellation event, and
    it returns nothing exactly for the ids without a job. *)
Theorem job_states_and_guards (m : Manager) :
  reachable m ->
  (forall id job, _jobs m !! id = Some job -> In (state job) job_states)
  /\ JobViews.db_select_blocked m = _any_update_job_running m
  /\ (forall id, JobViews.get_job id m = None <-> _jobs m !! id = None)
  /\ (forall id v,
        JobViews.get_job id m = Some v ->
        fst v = id /\ _cancel_event (snd v) = None
        /\ state <$> (_jobs m !! id) = Some (state (snd v))).
Proof.
  intros Hr. split; [exact (job_state_known m Hr)|]. split; [|split].
  - unfold JobViews.db_select_blocked, _any_update_job_running,
      active_running, JobViews.get_job.
    destruct (_active_job_id m) as [id|]; [|reflexivity].
    destruct (truthy (Some id)); [|reflexivity].
    destruct (_jobs m !! id) as [job|] eqn:Hjob; [|reflexivity].
    cbn [state].
    assert (Hs : String.eqb (state job) "starting" = false).
    { apply String.eqb_neq. intros E.
      pose proof (job_state_known m Hr id job Hjob) as Hin.
      rewrite E in Hin. cbn in Hin.
      repeat (destruct Hin as [Hin|Hin]; [discriminate|]). exact Hin. }
    rewrite Hs, orb_false_r.
    now destruct (String.eqb (state job) "running").
  - intros id. unfold JobViews.get_job.
    destruct (_jobs m !! id); split; intros H; try discriminate;
      reflexivity.
  - intros id v. unfold JobViews.get_job.
    destruct (_jobs m !! id) as [job|]; [|discriminate].
    intros H. injection H as <-. now repeat split.
Qed.

Lemma job_states_and_guards_witness :
  JobViews.db_select_blocked jobs_started
  = _any_update_job_running jobs_started.
Proof.
  exact (proj1 (proj2 (job_states_and_guards jobs_started
                         reachable_jobs_started))).
Defined.

(** X27. Cancelling the active job lifts the guard of the feed routes at
    once, while the runner is still at work: the job is "cancelling", not
    "running", so the routes that edit feeds are no longer refused. The
    next progress report of the runner stores "running" again and the
    guard is back. *)
Theorem cancel_lifts_the_edit_guard
    (m : Manager) (id : string) (job : Job) (now : Z) :
  reachable m ->
  _active_job_id m = Some id ->
  _jobs m !! id = Some job ->
  let m1 := snd (cancel_update_job id now m) in
  _any_update_job_running m1 = false
  /\ (forall (int_of_str : string -> option Z) (w : World)
             (data : Request.body) status error,
        Routes.api_feed_delete int_of_str m1 data w
        = (Ok (Refused status error), w) -> status <> 409)
  /\ (forall p t,
        pr_state p = "running" ->
        _any_update_job_running (_progress_updater id p t m1) = true).
Proof.
  intros Hr Hact Hl m1.
  destruct (jobs_have_event m Hr id job Hl) as (ev & Hev).
  pose proof (active_id_truthy m Hr id Hact) as Htruthy.
  assert (Hm1 : m1
                = mkManager
                    (<[id := mkJob "cancelling" (j_checked job)
                                   (j_updated job) (j_errors job)
                                   (j_total job) (current_url job)
                                   (started_ts job) now (_cancel_event job)
                                   (ended_ts job) (error job)]> (_jobs m))
                    (_active_job_id m) (set_event ev (events m))
                    (threads m)).
  { unfold m1, cancel_update_job. now rewrite Hl, Hev. }
  assert (Hguard : _any_update_job_running m1 = false).
  { rewrite Hm1. unfold _any_update_job_running, active_running.
    cbn [_active_job_id _jobs]. rewrite Hact, Htruthy.
    now rewrite lookup_insert_eq. }
  split; [exact Hguard|]. split.
  - intros int_of_str w data status error Hrun.
    rewrite api_feed_delete_run, Hguard in Hrun.
    destruct (Request.field_int int_of_str data "id") as [fid|e];
      [|discriminate].
    rewrite feed_delete_checked_run in Hrun.
    destruct (fid =? 0).
    + injection Hrun as <- _. discriminate.
    + destruct (negb (Routes.sqlite_int fid)); [discriminate|].
      destruct (Store.feed_by_id fid (feeds w)).
      * discriminate.
      * injection Hrun as <- _. discriminate.
  - intros p t Hp. rewrite Hm1.
    unfold _progress_updater. cbn [_jobs _active_job_id events threads].
    rewrite lookup_insert_eq.
    unfold _any_update_job_running, active_running.
    cbn [_active_job_id _jobs]. rewrite Hact, Htruthy.
    rewrite lookup_insert_eq. cbn [state apply_progress].
    now rewrite Hp.
Qed.

Lemma cancel_lifts_the_edit_guard_witness :
  _any_update_job_running jobs_started = true
  /\ _any_update_job_running jobs_cancelled = false.
Proof.
  split; [reflexivity|].
  exact (proj1 (cancel_lifts_the_edit_guard jobs_started "job_100_7"
                  (mkJob "running" 0 0 0 0 None 100 100 (Some O) None None)
                  101 reachable_jobs_started eq_refl eq_refl)).
Defined.

(** * Properties of the feed discovery *)

Section DiscoveryFacts.

Variable str_lower : string -> string.

Lemma substring_prefix n body tail :
  (n <= String.length body)%nat ->
  String.substring 0 n (body +:+ tail) = String.substring 0 n body.
Proof.
  revert body. induction n as [|n IH]; intros body Hlen.
  - destruct body; [destruct tail|]; reflexivity.
  - destruct body as [|c body]; [cbn in Hlen; lia|].
    rewrite append_cons. cbn. f_equal. apply IH. cbn in Hlen. lia.
Qed.

Lemma link_href_mono events more href :
  link_href str_lower events href ->
  link_href str_lower (more ++ events) href.
Proof.
  intros (Hne & tag & attrs & Hin & Htag & Hhref).
  split; [exact Hne|]. exists tag, attrs.
  split; [|now split]. apply List.in_or_app. now right.
Qed.

(** One handler call: the state changes as a start or an end of the head
    element says, and at most one href is appended, inside the head
    only. *)
Lemma handle_step e p :
  exists new,
    Discovery.candidates (Discovery.handle str_lower p e)
    = Discovery.candidates p ++ new
    /\ List.Forall (link_href str_lower [e]) new
    /\ (Discovery.in_head p = false -> new = [])
    /\ (Discovery.in_head p = false -> starts_head str_lower e = false ->
        Discovery.in_head (Discovery.handle str_lower p e) = false).
Proof.
  assert (Hsame : forall q,
            Discovery.candidates q = Discovery.candidates p ->
            (Discovery.in_head p = false ->
             starts_head str_lower e = false ->
             Discovery.in_head q = false) ->
            exists new,
              Discovery.candidates q = Discovery.candidates p ++ new
              /\ List.Forall (link_href str_lower [e]) new
              /\ (Discovery.in_head p = false -> new = [])
              /\ (Discovery.in_head p = false ->
                  starts_head str_lower e = false ->
                  Discovery.in_head q = false)).
  { intros q Hc Hh. exists []. rewrite List.app_nil_r.
    split; [exact Hc|]. split; [constructor|]. split; [reflexivity|].
    exact Hh. }
  destruct e as [tag attrs | tag]; cbn [Discovery.handle].
  - unfold Discovery.handle_starttag.
    destruct (String.eqb (str_lower tag) "head") eqn:Ehead.
    { apply Hsame; [reflexivity|].
      intros _ H. cbn in H. rewrite Ehead in H. discriminate. }
    destruct (Discovery.in_head p) eqn:Hin; cbn [negb].
    2:{ apply Hsame; [reflexivity | intros _ _; exact Hin]. }
    destruct (String.eqb (str_lower tag) "link") eqn:Elink; cbn [negb].
    2:{ apply Hsame; [reflexivity | discriminate]. }
    destruct (String.eqb _ EmptyString) eqn:Ehref.
    { apply Hsame; [reflexivity | discriminate]. }
    destruct (negb (Discovery.contains "alternate" _)).
    { apply Hsame; [reflexivity | discriminate]. }
    destruct (_ || _).
    2:{ apply Hsame; [reflexivity | discriminate]. }
    eexists. split; [reflexivity|]. split; [|split; discriminate].
    constructor; [|constructor].
    split; [now apply String.eqb_neq|].
    exists tag, attrs. split; [now left|].
    split; [now apply String.eqb_eq | reflexivity].
  - unfold Discovery.handle_endtag.
    destruct (String.eqb (str_lower tag) "head").
    + apply Hsame; [reflexivity | reflexivity].
    + apply Hsame; [reflexivity | intros H _; exact H].
Qed.

(** The handlers only append, only hrefs of link tags, and only inside a
    head element. *)
Lemma handle_run events p :
  exists new,
    Discovery.candidates
      (List.fold_left (Discovery.handle str_lower) events p)
    = Discovery.candidates p ++ new
    /\ List.Forall (link_href str_lower events) new
    /\ (Discovery.in_head p = false ->
        List.existsb (starts_head str_lower) events = false ->
        new = []).
Proof.
  revert p. induction events as [|e rest IH]; intros p.
  - exists []. cbn. rewrite List.app_nil_r.
    split; [reflexivity|]. split; [constructor | reflexivity].
  - cbn [List.fold_left].
    destruct (handle_step e p) as (new1 & Hc1 & Hall1 & Hout1 & Hstay).
    destruct (IH (Discovery.handle str_lower p e))
      as (new2 & Hc2 & Hall2 & Hout2).
    exists (new1 ++ new2). split; [|split].
    + rewrite Hc2, Hc1. now rewrite List.app_assoc.
    + apply List.Forall_app. split.
      * eapply List.Forall_impl; [|exact Hall1].
        intros h (Hne & tag & attrs & [Hin | []] & Htag & Hhref).
        split; [exact Hne|]. exists tag, attrs.
        split; [now left | now split].
      * eapply List.Forall_impl; [|exact Hall2].
        intros h Hh. apply (link_href_mono rest [e] h Hh).
    + intros Hin Hno. cbn [List.existsb] in Hno.
      apply orb_false_iff in Hno as (He & Hrest).
      rewrite (Hout1 Hin), (Hout2 (Hstay Hin He) Hrest). reflexivity.
Qed.

End DiscoveryFacts.

(** X28. Sniffing a response looks at the first 4096 bytes of the body
    only: what follows them never changes the answer. So a feed that
    starts after 4096 bytes of white space, with a content type that does
    not name XML, is not taken for a feed. *)
Theorem looks_like_feed_reads_4096_bytes
    (str_lower : string -> string) (content_type : option string)
    (body tail : string) :
  (4096 <= String.length body)%nat ->
  Discovery._looks_like_feed str_lower content_type (body +:+ tail)
  = Discovery._looks_like_feed str_lower content_type body.
Proof.
  intros Hlen. unfold Discovery._looks_like_feed.
  now rewrite substring_prefix.
Qed.

Lemma looks_like_feed_reads_4096_bytes_witness :
  Discovery._looks_like_feed (fun s => s) (Some "text/html")
    (blanks 4096 +:+ "<rss version='2.0'>")
  = Discovery._looks_like_feed (fun s => s) (Some "text/html")
      (blanks 4096)
  /\ Discovery._looks_like_feed (fun s => s) (Some "text/html")
       (blanks 4096) = false
  /\ Discovery._looks_like_feed (fun s => s) (Some "text/html")
       (blanks 4000 +:+ "<rss version='2.0'>") = true.
Proof.
  split; [|split; vm_compute; reflexivity].
  apply (looks_like_feed_reads_4096_bytes (fun s => s) (Some "text/html")
           (blanks 4096) "<rss version='2.0'>").
  apply Nat.leb_le. vm_compute. reflexivity.
Defined.

(** X29. The links a page offers. Whatever events the parser delivers,
    every candidate the finder ends with is the non-empty href of a link
    start tag of the page, in page order; and a page without a head start
    tag yields no candidate at all, so its links are never followed. *)
Theorem finder_collects_head_links
    (str_lower : string -> string) (events : list Discovery.Event) :
  List.Forall (link_href str_lower events)
              (Discovery.candidates
                 (Discovery.feed_events str_lower events))
  /\ (List.existsb (starts_head str_lower) events = false ->
      Discovery.candidates (Discovery.feed_events str_lower events) = [])
  /\ forall more,
       exists new,
         Discovery.candidates
           (Discovery.feed_events str_lower (events ++ more))
         = Discovery.candidates (Discovery.feed_events str_lower events)
           ++ new.
Proof.
  unfold Discovery.feed_events.
  destruct (handle_run str_lower events (Discovery.mkFinder false []))
    as (new & Hc & Hall & Hout).
  cbn [Discovery.candidates List.app] in Hc.
  split; [now rewrite Hc|]. split.
  - intros Hno. rewrite Hc. now apply Hout.
  - intros more. rewrite List.fold_left_app.
    destruct (handle_run str_lower more
                (List.fold_left (Discovery.handle str_lower) events
                                (Discovery.mkFinder false [])))
      as (new' & Hc' & _).
    now exists new'.
Qed.

(** * Properties of the tray application *)


